(** * afrobeats-no: the web request boundary and the orchestration contract

    A shallow embedding of the Next.js route handlers under
    [web/app/api/*/route.ts], of the home page's [handleSubmit], and of the
    orchestration backend's contract (router, engine, synthesizer, cache),
    followed by the properties the specification states about them. *)

From Stdlib Require Import ZArith QArith Lia Lqa Ascii String.
From stdpp Require Import gmap strings list fin_maps pretty.

Set Warnings "-register-all".

Local Open Scope string_scope.
Local Open Scope Z_scope.

(** ** JavaScript values *)

Module Js.

(** The values [JSON.parse] produces.  A string is its sequence of UTF-8
    bytes.  A number is the rational value of the parsed double ([NaN] is
    not a JSON number).  An object is the list of its own properties in
    insertion order; property names of one object are pairwise distinct. *)
Inductive json : Type :=
| JNull
| JBool (b : bool)
| JNum (x : Q)
| JStr (s : string)
| JArr (items : list json)
| JObj (props : list (string * json)).

(** A JavaScript value is a JSON value or [undefined] ([None]). *)
Definition value : Type := option json.

Definition undefined : value := None.

(** ToBoolean: [undefined], [null], [false], [0] and the empty string are
    falsy, everything else (arrays and objects included) is truthy. *)
Definition truthy (v : value) : bool :=
  match v with
  | None => false
  | Some JNull => false
  | Some (JBool b) => b
  | Some (JNum x) => negb (Qnum x =? 0)%Z
  | Some (JStr s) => negb (String.eqb s EmptyString)
  | Some (JArr _) => true
  | Some (JObj _) => true
  end.

Definition falsy (v : value) : bool := negb (truthy v).

(** [a || b] where [b] is a defined value. *)
Definition or_else (a : value) (b : json) : json :=
  match a with
  | Some j => if truthy a then j else b
  | None => b
  end.

(** Own-property lookup in an object's property list. *)
Fixpoint own_prop (props : list (string * json)) (name : string) : value :=
  match props with
  | [] => None
  | (k, v) :: rest => if String.eqb k name then Some v else own_prop rest name
  end.

(** The errors the handlers can meet. *)
Inductive error : Type :=
| TypeError (msg : string)
| RangeError (msg : string)
| SyntaxError (msg : string)
| FetchFailed (msg : string)
| Error_ (msg : string).

(** [o[name]] for a value that came out of [JSON.parse].  Reading a property
    of [null] throws a TypeError.  Booleans, numbers, strings and arrays have
    no property of the names the handlers read (query, context, error,
    response, agents_used and the required-field names), so they yield
    [undefined]. *)
Definition get (o : json) (name : string) : error + value :=
  match o with
  | JNull => inl (TypeError "Cannot read properties of null")
  | JObj props => inr (own_prop props name)
  | _ => inr None
  end.

End Js.

Import Js.

(** ** encodeURIComponent *)

Module Uri.

(** The characters [encodeURIComponent] leaves alone:
    [A-Z a-z 0-9 - _ . ! ~ * ' ( )]. *)
Definition unreserved (c : ascii) : bool :=
  let n := nat_of_ascii c in
  ((65 <=? n) && (n <=? 90) || (97 <=? n) && (n <=? 122)
   || (48 <=? n) && (n <=? 57)
   || (n =? 45) || (n =? 95) || (n =? 46) || (n =? 33) || (n =? 126)
   || (n =? 42) || (n =? 39) || (n =? 40) || (n =? 41))%nat.

Definition hex_digit (n : nat) : ascii :=
  if (n <? 10)%nat then ascii_of_nat (48 + n) else ascii_of_nat (55 + n).

(** [%XX] with upper-case hexadecimal digits. *)
Definition percent (c : ascii) : string :=
  let n := nat_of_ascii c in
  String "%" (String (hex_digit (n / 16)) (String (hex_digit (n mod 16)) EmptyString)).

(** Every byte of the UTF-8 encoding that is not unreserved is
    percent-escaped.  The values the handlers encode come from
    [URLSearchParams], which holds well-formed strings only, so the URIError
    for lone surrogates cannot arise. *)
Fixpoint encodeURIComponent (s : string) : string :=
  match s with
  | EmptyString => EmptyString
  | String c rest =>
      (if unreserved c then String c EmptyString else percent c)
        +:+ encodeURIComponent rest
  end.

End Uri.

(** ** The effects of a handler: fetch calls, console output, exceptions *)

(** What is handed to [fetch]. *)
Record FetchRequest : Type := mkFetchRequest {
  f_url : string;
  f_method : string;
  f_headers : list (string * string);
  (** the value given to [JSON.stringify], when a body is sent *)
  f_body : option json;
  f_cache : option string
}.

(** What [fetch] resolves to; [r_body] is [None] when the body is not JSON,
    in which case [response.json()] rejects. *)
Record FetchResponse : Type := mkFetchResponse {
  r_status : Z;
  r_statusText : string;
  r_body : option json
}.

(** [fetch] either rejects (network failure) or resolves. *)
Inductive FetchResult : Type :=
| Rejected (msg : string)
| Resolved (r : FetchResponse).

(** [response.ok]: the status is in the range 200-299. *)
Definition ok (r : FetchResponse) : bool :=
  (200 <=? r_status r) && (r_status r <=? 299).

(** What [console.error] is called with. *)
Inductive LogEntry : Type :=
| LogApiError (label : string) (status : Z) (statusText : string) (data : json)
| LogCaught (label : string) (e : error).

Record Trace : Type := mkTrace {
  fetched : list FetchRequest;
  logged : list LogEntry
}.

Definition no_trace : Trace := mkTrace [] [].

Inductive Completion (A : Type) : Type :=
| Normal (a : A)
| Thrown (e : error).
Arguments Normal {A} a.
Arguments Thrown {A} e.

(** A computation reads the network, extends the trace and completes
    normally or abruptly. *)
Definition Eff (A : Type) : Type :=
  (FetchRequest -> FetchResult) -> Trace -> Trace * Completion A.

Definition ret {A} (a : A) : Eff A := fun _ t => (t, Normal a).

Definition throw {A} (e : error) : Eff A := fun _ t => (t, Thrown e).

Definition bind {A B} (m : Eff A) (k : A -> Eff B) : Eff B :=
  fun net t =>
    match m net t with
    | (t', Normal a) => k a net t'
    | (t', Thrown e) => (t', Thrown e)
    end.

Notation "'let*' x ':=' m 'in' k" := (bind m (fun x => k))
  (at level 10, x name, m at level 100, k at level 200).
Notation "m ';;' k" := (bind m (fun _ => k))
  (at level 100, k at level 200, right associativity).

(** [try { body } catch (error) { handler }], also a promise's [.catch]. *)
Definition try_catch {A} (body : Eff A) (handler : error -> Eff A) : Eff A :=
  fun net t =>
    match body net t with
    | (t', Normal a) => (t', Normal a)
    | (t', Thrown e) => handler e net t'
    end.

Definition lift {A} (r : error + A) : Eff A :=
  match r with
  | inl e => throw e
  | inr a => ret a
  end.

Definition fetch (rq : FetchRequest) : Eff FetchResponse :=
  fun net t =>
    let t' := mkTrace (fetched t ++ [rq]) (logged t) in
    match net rq with
    | Rejected msg => (t', Thrown (FetchFailed msg))
    | Resolved r => (t', Normal r)
    end.

Definition console_error (entry : LogEntry) : Eff unit :=
  fun _ t => (mkTrace (fetched t) (logged t ++ [entry]), Normal tt).

(** [response.json()] *)
Definition response_json (r : FetchResponse) : Eff json :=
  match r_body r with
  | Some j => ret j
  | None => throw (SyntaxError "Unexpected token in JSON")
  end.

Definition run {A} (m : Eff A) (net : FetchRequest -> FetchResult) : Trace * Completion A :=
  m net no_trace.

(** ** Requests, responses and the environment of the route modules *)

(** What a handler reads of a [NextRequest]: the parsed body ([None] when
    [request.json()] rejects), the URL's search parameters in order, and the
    request headers. *)
Record NextRequest : Type := mkNextRequest {
  rq_body : option json;
  rq_searchParams : list (string * string);
  rq_headers : list (string * string)
}.

Record NextResponse : Type := mkNextResponse {
  status : Z;
  headers : list (string * string);
  body : option json
}.

(** [process.env] *)
Definition Env : Type := list (string * string).

Fixpoint env_get (env : Env) (name : string) : option string :=
  match env with
  | [] => None
  | (k, v) :: rest => if String.eqb k name then Some v else env_get rest name
  end.

(** Truthiness of [string | undefined] and of [string | null]. *)
Definition nonempty (s : option string) : bool :=
  match s with
  | Some v => negb (String.eqb v EmptyString)
  | None => false
  end.

(** [request.json()] *)
Definition request_json (request : NextRequest) : Eff json :=
  match rq_body request with
  | Some j => ret j
  | None => throw (SyntaxError "Unexpected end of JSON input")
  end.

(** [searchParams.get(name)]: the first value of that name, or [null]. *)
Fixpoint searchParams_get (params : list (string * string)) (name : string) : option string :=
  match params with
  | [] => None
  | (k, v) :: rest => if String.eqb k name then Some v else searchParams_get rest name
  end.

(** The statuses for which a response cannot carry a body. *)
Definition null_body_status (s : Z) : bool :=
  (s =? 101) || (s =? 103) || (s =? 204) || (s =? 205) || (s =? 304).

(** [NextResponse.json(data, { status })].  The Response constructor throws
    a RangeError for a status outside 200-599 and a TypeError for a body on
    a null-body status. *)
Definition NextResponse_json (data : json) (st : Z) : Eff NextResponse :=
  if negb ((200 <=? st) && (st <=? 599)) then
    throw (RangeError "init.status must be in the range of 200 to 599")
  else if null_body_status st then
    throw (TypeError "Response with null body status cannot have body")
  else
    ret (mkNextResponse st [("content-type", "application/json")] (Some data)).

(** [new NextResponse(null, { status, headers })] *)
Definition NextResponse_empty (st : Z) (hs : list (string * string)) : NextResponse :=
  mkNextResponse st hs None.

(** The two module constants every route file starts with. *)
Definition API_URL (env : Env) : string :=
  match env_get env "NEXT_PUBLIC_API_URL" with
  | Some u => if nonempty (Some u) then u else "http://localhost:8000"
  | None => "http://localhost:8000"
  end.

Definition API_KEY (env : Env) : option string := env_get env "API_KEY".

(** The headers object: Content-Type, and X-API-Key when a key is set. *)
Definition api_headers (env : Env) : list (string * string) :=
  [("Content-Type", "application/json")]
    ++ match API_KEY env with
       | Some k => if nonempty (Some k) then [("X-API-Key", k)] else []
       | None => []
       end.

Definition error_body (msg : json) : json := JObj [("error", msg)].

(** The branch every handler takes on a non-ok backend response. *)
Definition relay_error (label fallback : string) (response : FetchResponse) : Eff NextResponse :=
  let* errorData :=
    try_catch (response_json response)
              (fun _ => ret (error_body (JStr "Unknown error"))) in
  console_error (LogApiError label (r_status response) (r_statusText response) errorData) ;;
  let* e := lift (Js.get errorData "error") in
  NextResponse_json (error_body (or_else e (JStr fallback))) (r_status response).

(** The outer [catch] of every handler. *)
Definition internal_error (label : string) (e : error) : Eff NextResponse :=
  console_error (LogCaught label e) ;;
  NextResponse_json (error_body (JStr "Internal server error")) 500.

(** ** web/app/api/query/route.ts *)

Module QueryRoute.

Definition POST (env : Env) (request : NextRequest) : Eff NextResponse :=
  try_catch
    (let* body := request_json request in
     let* query := lift (Js.get body "query") in
     if falsy query then
       NextResponse_json (error_body (JStr "Query is required")) 400
     else
       let headers := api_headers env in
       let* context := lift (Js.get body "context") in
       let* response :=
         fetch (mkFetchRequest
                  (API_URL env +:+ "/query") "POST" headers
                  (Some (JObj [("query", or_else query JNull);
                               ("context", or_else context (JObj []))]))
                  (Some "no-store")) in
       if negb (ok response) then
         relay_error "API error:" "Error processing query" response
       else
         let* data := response_json response in
         NextResponse_json data 200)
    (internal_error "Error processing query:").

Definition OPTIONS : NextResponse :=
  NextResponse_empty 200
    [("Access-Control-Allow-Origin", "*");
     ("Access-Control-Allow-Methods", "POST, OPTIONS");
     ("Access-Control-Allow-Headers", "Content-Type, Authorization")].

End QueryRoute.

(** ** web/app/api/bookings/route.ts *)

Module BookingsRoute.

Definition requiredFields : list string :=
  ["dj_name"; "date"; "time"; "hours"; "venue"].

(** The validation loop: the first field whose value is falsy ends the
    handler with a 400; [None] means the loop ran to its end. *)
Fixpoint check_required (body : json) (fields : list string) : Eff (option NextResponse) :=
  match fields with
  | [] => ret None
  | field :: rest =>
      let* v := lift (Js.get body field) in
      if falsy v then
        let* r := NextResponse_json (error_body (JStr (field +:+ " is required"))) 400 in
        ret (Some r)
      else check_required body rest
  end.

Definition POST (env : Env) (request : NextRequest) : Eff NextResponse :=
  try_catch
    (let* body := request_json request in
     let* early := check_required body requiredFields in
     match early with
     | Some r => ret r
     | None =>
         let headers := api_headers env in
         let* response :=
           fetch (mkFetchRequest (API_URL env +:+ "/bookings") "POST" headers
                                 (Some body) None) in
         if negb (ok response) then
           relay_error "API error:" "Error creating booking" response
         else
           let* data := response_json response in
           NextResponse_json data 200
     end)
    (internal_error "Error creating booking:").

Definition OPTIONS : NextResponse :=
  NextResponse_empty 200
    [("Access-Control-Allow-Origin", "*");
     ("Access-Control-Allow-Methods", "POST, OPTIONS");
     ("Access-Control-Allow-Headers", "Content-Type, Authorization")].

End BookingsRoute.

(** ** web/app/api/djs/route.ts and web/app/api/events/route.ts *)

(** [s.endsWith('&')] *)
Fixpoint endsWith_amp (s : string) : bool :=
  match s with
  | EmptyString => false
  | String c rest =>
      match rest with
      | EmptyString => Ascii.eqb c "&"
      | String _ _ => endsWith_amp rest
      end
  end.

(** [s.slice(0, -1)] *)
Fixpoint slice_0_m1 (s : string) : string :=
  match s with
  | EmptyString => EmptyString
  | String c rest =>
      match rest with
      | EmptyString => EmptyString
      | String _ _ => String c (slice_0_m1 rest)
      end
  end.

(** [if (v) queryString += `name=${encodeURIComponent(v)}&`] *)
Definition append_param (queryString name : string) (v : option string) : string :=
  match v with
  | Some x =>
      if nonempty v then queryString +:+ name +:+ "=" +:+ Uri.encodeURIComponent x +:+ "&"
      else queryString
  | None => queryString
  end.

(** Remove the trailing ampersand if it exists. *)
Definition strip_trailing_amp (queryString : string) : string :=
  if endsWith_amp queryString then slice_0_m1 queryString else queryString.

(** [`${queryString ? `?${queryString}` : ''}`] *)
Definition query_suffix (queryString : string) : string :=
  if nonempty (Some queryString) then "?" +:+ queryString else EmptyString.

Module DjsRoute.

Definition queryString (request : NextRequest) : string :=
  let searchParams := rq_searchParams request in
  let genres := searchParams_get searchParams "genres" in
  let minRating := searchParams_get searchParams "minRating" in
  let availability := searchParams_get searchParams "availability" in
  let queryString := EmptyString in
  let queryString := append_param queryString "genres" genres in
  let queryString := append_param queryString "min_rating" minRating in
  let queryString := append_param queryString "availability" availability in
  strip_trailing_amp queryString.

Definition url (env : Env) (request : NextRequest) : string :=
  API_URL env +:+ "/djs" +:+ query_suffix (queryString request).

Definition GET (env : Env) (request : NextRequest) : Eff NextResponse :=
  try_catch
    (let headers := api_headers env in
     let* response :=
       fetch (mkFetchRequest (url env request) "GET" headers None (Some "no-store")) in
     if negb (ok response) then
       relay_error "API error:" "Error fetching DJs" response
     else
       let* data := response_json response in
       NextResponse_json data 200)
    (internal_error "Error fetching DJs:").

Definition OPTIONS : NextResponse :=
  NextResponse_empty 200
    [("Access-Control-Allow-Origin", "*");
     ("Access-Control-Allow-Methods", "GET, OPTIONS");
     ("Access-Control-Allow-Headers", "Content-Type, Authorization")].

End DjsRoute.

Module EventsRoute.

Definition queryString (request : NextRequest) : string :=
  let searchParams := rq_searchParams request in
  let genres := searchParams_get searchParams "genres" in
  let featured := searchParams_get searchParams "featured" in
  let queryString := EmptyString in
  let queryString := append_param queryString "genres" genres in
  let queryString := append_param queryString "featured" featured in
  strip_trailing_amp queryString.

Definition GET (env : Env) (request : NextRequest) : Eff NextResponse :=
  try_catch
    (let headers := api_headers env in
     let* response :=
       fetch (mkFetchRequest
                (API_URL env +:+ "/events" +:+ query_suffix (queryString request))
                "GET" headers None (Some "no-store")) in
     if negb (ok response) then
       relay_error "API error:" "Error fetching events" response
     else
       let* data := response_json response in
       NextResponse_json data 200)
    (internal_error "Error fetching events:").

Definition requiredFields : list string :=
  ["title"; "date"; "time"; "venue"; "location"; "description"; "genres"].

Definition POST (env : Env) (request : NextRequest) : Eff NextResponse :=
  try_catch
    (let* body := request_json request in
     let* early := BookingsRoute.check_required body requiredFields in
     match early with
     | Some r => ret r
     | None =>
         let headers := api_headers env in
         let* response :=
           fetch (mkFetchRequest (API_URL env +:+ "/events") "POST" headers
                                 (Some body) None) in
         if negb (ok response) then
           relay_error "API error:" "Error creating event" response
         else
           let* data := response_json response in
           NextResponse_json data 200
     end)
    (internal_error "Error creating event:").

Definition OPTIONS : NextResponse :=
  NextResponse_empty 200
    [("Access-Control-Allow-Origin", "*");
     ("Access-Control-Allow-Methods", "GET, POST, OPTIONS");
     ("Access-Control-Allow-Headers", "Content-Type, Authorization")].

End EventsRoute.

(** The four route modules, and the framework's call of a module's OPTIONS
    export: the handler takes no argument, so the request and the
    environment are dropped. *)
Inductive Route : Type := QueryR | DjsR | EventsR | BookingsR.

Definition preflight (r : Route) (env : Env) (request : NextRequest) : NextResponse :=
  match r with
  | QueryR => QueryRoute.OPTIONS
  | DjsR => DjsRoute.OPTIONS
  | EventsR => EventsRoute.OPTIONS
  | BookingsR => BookingsRoute.OPTIONS
  end.

(** [headers.get(name)] on a response. *)
Fixpoint header_get (hs : list (string * string)) (name : string) : option string :=
  match hs with
  | [] => None
  | (k, v) :: rest => if String.eqb k name then Some v else header_get rest name
  end.

(** ** The home page (web/app/page.tsx): handleSubmit *)

(** How the server answers the browser's fetch of a route: the handler runs
    against the backend, its response goes over HTTP with the reason phrase
    of its status, and a handler that throws gives the framework's 500. *)
Definition serve (reason : Z -> string)
    (handler : NextRequest -> Eff NextResponse)
    (backend : FetchRequest -> FetchResult) (rq : FetchRequest) : FetchResult :=
  match snd (run (handler (mkNextRequest (f_body rq) [] (f_headers rq))) backend) with
  | Normal r => Resolved (mkFetchResponse (status r) (reason (status r)) (body r))
  | Thrown _ => Resolved (mkFetchResponse 500 (reason 500) None)
  end.

Module Home.

(** The component's state. [response] holds whatever [data.response] was. *)
Record State : Type := mkState {
  query : string;
  isLoading : bool;
  response : value;
  error : string;
  agentsUsed : json
}.

Definition initial (q : string) : State :=
  mkState q false (Some (JStr EmptyString)) EmptyString (JArr []).

Definition byte (c : ascii) (n : nat) : bool := (nat_of_ascii c =? n)%nat.

(** [!s.trim()]: the string holds white space and line terminators only
    (TAB LF VT FF CR SP, U+00A0, U+1680, U+2000-200A, U+2028, U+2029,
    U+202F, U+205F, U+3000, U+FEFF, in UTF-8). *)
Fixpoint blank (s : string) : bool :=
  match s with
  | EmptyString => true
  | String c1 r1 =>
      if byte c1 9 || byte c1 10 || byte c1 11 || byte c1 12 || byte c1 13 || byte c1 32
      then blank r1
      else
        match r1 with
        | EmptyString => false
        | String c2 r2 =>
            if byte c1 194 && byte c2 160 then blank r2
            else
              match r2 with
              | EmptyString => false
              | String c3 r3 =>
                  let n3 := nat_of_ascii c3 in
                  if (byte c1 225 && byte c2 154 && byte c3 128)
                     || (byte c1 226 && byte c2 128
                         && (((128 <=? n3) && (n3 <=? 138))%nat
                             || byte c3 168 || byte c3 169 || byte c3 175))
                     || (byte c1 226 && byte c2 129 && byte c3 159)
                     || (byte c1 227 && byte c2 128 && byte c3 128)
                     || (byte c1 239 && byte c2 187 && byte c3 191)
                  then blank r3
                  else false
              end
        end
  end.

Definition apology : string :=
  "Sorry, there was an error processing your request. Please try again later.".

(** The state changes inside [try] happen after the last point that can
    throw, so the [catch] block starts from the state set before [try]. *)
Definition handleSubmit (st : State) : Eff State :=
  if blank (query st) then ret st
  else
    let st0 := mkState (query st) true (Some (JStr EmptyString)) EmptyString (JArr []) in
    let* st1 :=
      try_catch
        (let* res :=
           fetch (mkFetchRequest "/api/query" "POST"
                    [("Content-Type", "application/json")]
                    (Some (JObj [("query", JStr (query st))])) None) in
         if negb (ok res) then
           throw (Error_ ("Error: " +:+ pretty (r_status res) +:+ " " +:+ r_statusText res))
         else
           let* data := response_json res in
           let* r := lift (Js.get data "response") in
           let* a := lift (Js.get data "agents_used") in
           ret (mkState (query st0) (isLoading st0) r (error st0) (or_else a (JArr []))))
        (fun e =>
           console_error (LogCaught "Error:" e) ;;
           ret (mkState (query st0) (isLoading st0) (response st0) apology (agentsUsed st0))) in
    ret (mkState (query st1) false (response st1) (error st1) (agentsUsed st1)).

(** What the response card shows: the error text when there is one, else
    the response; nothing when both are falsy. *)
Definition shown (st : State) : value :=
  if nonempty (Some (error st)) then Some (JStr (error st))
  else if truthy (response st) then response st
  else None.

End Home.

(** ** The orchestration backend behind [API_URL] *)

Module Backend.

(** Modelled from the spec: the backend (api.py, agent_graph.py and the
    agents directory) is not among the sources; the data model of section 3
    is followed here.  The eight specialized responders of section 4.2 and
    the default general-purpose responder of section 4.1. *)
Inductive Responder : Type :=
| Booking | Events | Playlist | Rating | Content | Social | Artist | Analytics
| General.

(** Modelled from the spec: the responder-id, as the ids of agents_used in
    section 8 spell it. *)
Definition responder_id (r : Responder) : string :=
  match r with
  | Booking => "booking" | Events => "events" | Playlist => "playlist"
  | Rating => "rating" | Content => "content" | Social => "social"
  | Artist => "artist" | Analytics => "analytics" | General => "general"
  end.

(** Modelled from the spec: the closed set of specialized responders of
    section 4.2, in its order. *)
Definition specialized : list Responder :=
  [Booking; Events; Playlist; Rating; Content; Social; Artist; Analytics].

(** Modelled from the spec: the provider preference of section 6. *)
Inductive Provider : Type := Primary | Secondary.

(** Modelled from the spec: the Query value of section 3 (raw text, context
    hints, provider preference, cache-bypass flag, here as its negation
    [use_cache]). *)
Record Query : Type := mkQuery {
  text : string;
  context : list (string * string);
  provider_preference : option Provider;
  use_cache : bool
}.

(** Modelled from the spec: the status of a ResponderResult (section 3). *)
Inductive Status : Type := Succeeded | Failed | TimedOut.

(** Modelled from the spec: ResponderResult of section 3; latency is in
    milliseconds. *)
Record ResponderResult : Type := mkResult {
  rr_responder : Responder;
  rr_status : Status;
  rr_content : option string;
  rr_latency : Z;
  rr_error : option string
}.

(** Modelled from the spec: SynthesizedResponse of section 3; the timestamp
    is in seconds. *)
Record SynthesizedResponse : Type := mkSynth {
  sr_text : string;
  sr_agents : list string;
  sr_timestamp : Z;
  sr_cache_hit : bool
}.

(** Modelled from the spec: CacheEntry of section 3. *)
Record CacheEntry : Type := mkEntry {
  ce_response : SynthesizedResponse;
  ce_expiry : Z
}.

(** Modelled from the spec: the static responder metadata the Router
    consults (section 4.1): the keywords of each category and the width of
    its declared domain. *)
Record Metadata : Type := mkMetadata {
  keywords : Responder -> list string;
  breadth : Responder -> nat
}.

(** Modelled from the spec: the configuration surface of section 6, with
    the defaults the spec names (TTL 24h); the length bound on a query has
    no stated value. *)
Record Config : Type := mkConfig {
  primary_configured : bool;
  secondary_configured : bool;
  cache_ttl : Z;
  max_query_length : nat
}.

(** Modelled from the spec: the default TTL of 24 hours, in seconds. *)
Definition default_ttl : Z := 24 * 3600.

(** *** Normalization and fingerprint *)

(** Modelled from the spec: the white space that normalization collapses. *)
Definition is_space (c : ascii) : bool :=
  let n := nat_of_ascii c in ((n =? 32) || (9 <=? n) && (n <=? 13))%nat.

(** Modelled from the spec: case folding of a letter. *)
Definition lower (c : ascii) : ascii :=
  let n := nat_of_ascii c in
  if ((65 <=? n) && (n <=? 90))%nat then ascii_of_nat (n + 32) else c.

(** Modelled from the spec: one pass of the normalization of section 3.
    [started]: a word has been emitted; [pending]: white space was seen
    since.  Leading and trailing white space is dropped, inner runs become
    one space, letters are case-folded. *)
Fixpoint squeeze (pending started : bool) (s : string) : string :=
  match s with
  | EmptyString => EmptyString
  | String c rest =>
      if is_space c then squeeze started started rest
      else if pending then String " " (String (lower c) (squeeze false true rest))
      else String (lower c) (squeeze false true rest)
  end.

(** Modelled from the spec: case-fold, trim, collapse whitespace
    (section 3, Fingerprint). *)
Definition normalize (s : string) : string := squeeze false false s.

(** Modelled from the spec: the fingerprint of section 3, kept as the triple
    it digests (normalized text, context fields, active responder set). *)
Definition fingerprint (q : Query) : string * list (string * string) * list string :=
  (normalize (text q), context q, map responder_id specialized).

(** *** Router (section 4.1) *)

(** Modelled from the spec: the confidence threshold (default 0.3) of
    section 4.1. *)
Definition threshold : Q := 3 # 10.

(** Modelled from the spec: two confidences within this distance count as
    tied (section 4.1). *)
Definition epsilon : Q := 5 # 100.

(** Modelled from the spec: a keyword matches when it occurs in the text. *)
Definition occurs (kw txt : string) : bool :=
  match String.index 0 kw txt with
  | Some _ => true
  | None => false
  end.

(** Modelled from the spec: the number of keywords of a category that the
    normalized query holds. *)
Definition matched (md : Metadata) (r : Responder) (q : Query) : nat :=
  length (filter (fun kw => occurs (normalize kw) (normalize (text q)) = true) (keywords md r)).

(** Modelled from the spec: keyword scoring per responder category: the
    share of the category's keywords found in the normalized query. *)
Definition score (md : Metadata) (r : Responder) (q : Query) : Q :=
  match keywords md r with
  | [] => 0
  | k :: ks => Z.of_nat (matched md r q) # Pos.of_nat (length (k :: ks))
  end.

(** Modelled from the spec: the distance between two confidences. *)
Definition Qabs_diff (a b : Q) : Q := if Qle_bool a b then b - a else a - b.

(** Modelled from the spec: the priority order of section 4.1.
    [a] goes before [b]: by narrower domain when the two confidences are
    within epsilon, by higher confidence otherwise. *)
Definition before (md : Metadata) (a b : Responder * Q) : bool :=
  if Qle_bool (Qabs_diff (snd a) (snd b)) epsilon
  then (breadth md (fst a) <=? breadth md (fst b))%nat
  else Qle_bool (snd b) (snd a).

(** Modelled from the spec: insertion of one pair at its priority. *)
Fixpoint place (md : Metadata) (x : Responder * Q) (l : list (Responder * Q))
  : list (Responder * Q) :=
  match l with
  | [] => [x]
  | y :: rest => if before md x y then x :: y :: rest else y :: place md x rest
  end.

(** Modelled from the spec: the classification in priority order. *)
Definition prioritize (md : Metadata) (l : list (Responder * Q)) : list (Responder * Q) :=
  foldr (place md) [] l.

(** Modelled from the spec: the fallback of section 4.1, the default
    general responder alone. *)
Definition fallback : list (Responder * Q) := [(General, 1%Q)].

(** Modelled from the spec: [classify(query) -> IntentClassification]
    (section 4.1): the responders whose score clears the threshold, in
    priority order, or the default general responder when none does. *)
Definition classify (md : Metadata) (q : Query) : list (Responder * Q) :=
  let scored := map (fun r => (r, score md r q)) specialized in
  let cleared := filter (fun p => Qle_bool threshold (snd p) = true) scored in
  match cleared with
  | [] => fallback
  | _ :: _ => prioritize md cleared
  end.

(** Modelled from the spec: the Dispatch Plan of section 3, the responders
    of the classification in its order. *)
Definition plan (md : Metadata) (q : Query) : list Responder :=
  map fst (classify md q).

(** *** Execution Engine (section 4.3) and Synthesizer (section 4.4) *)

(** Modelled from the spec: the generic apology of section 4.3; its wording
    is not stated. *)
Definition generic_apology : string :=
  "Sorry, I could not find an answer to your question right now. Please try again later.".

(** Modelled from the spec: the Succeeded results are the ones synthesis
    uses (section 4.4). *)
Definition succeeded (r : ResponderResult) : bool :=
  match rr_status r with
  | Succeeded => true
  | _ => false
  end.

(** Modelled from the spec: the single synthetic Failed result that wraps
    the apology (section 4.3). *)
Definition synthetic_failure : ResponderResult :=
  mkResult General Failed (Some generic_apology) 0 (Some "all responders failed").

(** Modelled from the spec: [run(plan, query, deadline)] (section 4.3).
    [world r] is what the invocation of responder [r] ends as for this
    request, the deadlines included (a call cut by a deadline is TimedOut).
    Results come in plan order; when none succeeded the engine returns the
    single synthetic Failed result that wraps the apology. *)
Definition engine_run (world : Responder -> ResponderResult) (p : list Responder)
  : list ResponderResult :=
  let results := map world p in
  if existsb succeeded results then results else [synthetic_failure].

(** Modelled from the spec: the Analytics responder is fire-and-forget
    (section 4.2). *)
Definition is_analytics (r : Responder) : bool :=
  match r with
  | Analytics => true
  | _ => false
  end.

(** Modelled from the spec: the content of a result, nullable on failure. *)
Definition content_of (r : ResponderResult) : string :=
  match rr_content r with
  | Some c => c
  | None => EmptyString
  end.

(** Modelled from the spec: deduplication by normalized-text equality
    (section 4.4): a content whose normalized text was seen is dropped. *)
Fixpoint dedup (seen : list string) (cs : list string) : list string :=
  match cs with
  | [] => []
  | c :: rest =>
      if existsb (String.eqb (normalize c)) seen then dedup seen rest
      else c :: dedup (normalize c :: seen) rest
  end.

(** Modelled from the spec: the separator of concatenated contents. *)
Definition newline : string := String (ascii_of_nat 10) EmptyString.

(** Modelled from the spec: [merge(results)] (section 4.4).  Succeeded
    results only, in the order given; the Analytics result never
    contributes; with no contributor the answer is the apology the
    synthetic Failed result wraps and the contributor list is empty. *)
Definition merge (now : Z) (results : list ResponderResult) : SynthesizedResponse :=
  let contributors :=
    filter (fun r => (succeeded r && negb (is_analytics (rr_responder r))) = true) results in
  match contributors with
  | [] =>
      let wrapped :=
        match results with
        | r :: _ => match rr_content r with Some c => c | None => generic_apology end
        | [] => generic_apology
        end in
      mkSynth (if String.eqb wrapped EmptyString then generic_apology else wrapped) [] now false
  | _ :: _ =>
      mkSynth (String.concat newline (dedup [] (map content_of contributors)))
              (map (fun r => responder_id (rr_responder r)) contributors) now false
  end.

(** Modelled from the spec: the pipeline of section 2 behind the cache:
    classify, dispatch, merge.  The provider client of section 4.6 works
    inside a responder and shows in [world] only. *)
Definition compute (md : Metadata) (world : Responder -> ResponderResult) (now : Z) (q : Query)
  : SynthesizedResponse :=
  merge now (engine_run world (plan md q)).

(** *** Cache (section 4.5) *)

(** Modelled from the spec: the cache, a map from fingerprints to entries. *)
Abbreviation Cache := (gmap (string * list (string * string) * list string) CacheEntry).

(** Modelled from the spec: [get(fingerprint)]; an entry found expired is
    evicted by the lookup. *)
Definition cache_get (c : Cache) (fp : string * list (string * string) * list string) (now : Z)
  : option SynthesizedResponse * Cache :=
  match c !! fp with
  | Some e => if now <? ce_expiry e then (Some (ce_response e), c) else (None, delete fp c)
  | None => (None, c)
  end.

(** Modelled from the spec: [put(fingerprint, response, ttl)]. *)
Definition cache_put (c : Cache) (fp : string * list (string * string) * list string)
    (r : SynthesizedResponse) (ttl now : Z) : Cache :=
  <[fp := mkEntry r (now + ttl)]> c.

(** Modelled from the spec: the control flow of section 2: the cache is
    consulted first, a miss runs the pipeline and stores its answer, and the
    bypass flag skips both the read and the write. *)
Definition answer (cfg : Config) (md : Metadata) (world : Responder -> ResponderResult)
    (now : Z) (c : Cache) (q : Query) : SynthesizedResponse * Cache :=
  if use_cache q then
    match cache_get c (fingerprint q) now with
    | (Some r, c') => (mkSynth (sr_text r) (sr_agents r) (sr_timestamp r) true, c')
    | (None, c') =>
        let r := compute md world now q in
        (r, cache_put c' (fingerprint q) r (cache_ttl cfg) now)
    end
  else (compute md world now q, c).

(** *** The request boundary (section 6) *)

(** Modelled from the spec: the key/value hints of the context (section 3):
    the string-valued properties of
    the [context] object. *)
Definition hints (v : value) : list (string * string) :=
  match v with
  | Some (JObj props) =>
      omap (fun p => match snd p with JStr s => Some (fst p, s) | _ => None end) props
  | _ => []
  end.

(** Modelled from the spec: [provider_preference?: primary | secondary]. *)
Definition parse_provider (v : value) : option Provider :=
  match v with
  | Some (JStr s) =>
      if String.eqb s "primary" then Some Primary
      else if String.eqb s "secondary" then Some Secondary
      else None
  | _ => None
  end.

(** Modelled from the spec: [use_cache?: boolean (default true)]. *)
Definition parse_use_cache (v : value) : bool :=
  match v with
  | Some (JBool b) => b
  | _ => true
  end.

(** Modelled from the spec: the Query of a request body (section 6). *)
Definition parse_query (props : list (string * json)) (q : string) : Query :=
  mkQuery q (hints (own_prop props "context"))
          (parse_provider (own_prop props "provider_preference"))
          (parse_use_cache (own_prop props "use_cache")).

(** Modelled from the spec: the response of section 6. *)
Definition response_body (r : SynthesizedResponse) : json :=
  JObj [("response", JStr (sr_text r));
        ("agents_used", JArr (map JStr (sr_agents r)));
        ("timestamp", JStr (pretty (sr_timestamp r)));
        ("cache_hit", JBool (sr_cache_hit r))].

(** Modelled from the spec: an HTTP answer with a JSON body. *)
Definition reply (st : Z) (reason : string) (b : json) : FetchResponse :=
  mkFetchResponse st reason (Some b).

(** Modelled from the spec: [POST /query] (sections 6 and 7): a missing or
    oversized query is InputInvalid and answered with a 4xx before any
    dispatch; with neither provider configured the degraded-answer path
    cannot run and the answer is a 5xx; every other request is answered
    with a 200. *)
Definition post_query (cfg : Config) (md : Metadata) (world : Responder -> ResponderResult)
    (now : Z) (c : Cache) (rq : FetchRequest) : FetchResponse * Cache :=
  match f_body rq with
  | Some (JObj props) =>
      match own_prop props "query" with
      | Some (JStr q) =>
          if (max_query_length cfg <? String.length q)%nat then
            (reply 422 "Unprocessable Entity" (error_body (JStr "Query too long")), c)
          else if negb (primary_configured cfg || secondary_configured cfg) then
            (reply 503 "Service Unavailable" (error_body (JStr "No provider configured")), c)
          else
            let (r, c') := answer cfg md world now c (parse_query props q) in
            (reply 200 "OK" (response_body r), c')
      | _ => (reply 422 "Unprocessable Entity" (error_body (JStr "Query is required")), c)
      end
  | _ => (reply 422 "Unprocessable Entity" (error_body (JStr "Query is required")), c)
  end.

(** Modelled from the spec: the backend as the network a route handler
    fetches from. *)
Definition network (cfg : Config) (md : Metadata) (world : Responder -> ResponderResult)
    (now : Z) (c : Cache) : FetchRequest -> FetchResult :=
  fun rq => Resolved (fst (post_query cfg md world now c rq)).

End Backend.

(** ** ToString and error messages *)

Module JsText.

(** ToString of a value that came out of [JSON.parse]; [num] is the
    platform's Number::toString.  An array is its elements joined by commas,
    null elements as the empty string; an object is [[object Object]]. *)
Fixpoint to_string (num : Q -> string) (j : json) : string :=
  match j with
  | JNull => "null"
  | JBool true => "true"
  | JBool false => "false"
  | JNum x => num x
  | JStr s => s
  | JArr items =>
      (fix join (l : list json) : string :=
         match l with
         | [] => EmptyString
         | x :: rest =>
             (match x with JNull => EmptyString | _ => to_string num x end)
               +:+ match rest with
                   | [] => EmptyString
                   | _ :: _ => "," +:+ join rest
                   end
         end) items
  | JObj _ => "[object Object]"
  end.

(** [error.message] *)
Definition message (e : error) : string :=
  match e with
  | TypeError m | RangeError m | SyntaxError m | FetchFailed m | Error_ m => m
  end.

(** [s || fallback] on strings. *)
Definition or_text (s fallback : string) : string :=
  if String.eqb s EmptyString then fallback else s.

End JsText.

(** ** The filter toggles of the booking and events pages *)

Section Toggle.
Context {A : Type} `{EqDecision A}.

(** [if (list.includes(x)) set(list.filter(y => y !== x)) else set([...list, x])] *)
Definition toggle (l : list A) (x : A) : list A :=
  if decide (x ∈ l) then filter (fun y => y <> x) l else l ++ [x].

End Toggle.

(** web/app/booking/page.tsx: the selected genres are strings. *)
Definition toggleGenre (selectedGenres : list string) (genre : string) : list string :=
  toggle selectedGenres genre.

(** web/app/events/page.tsx: the favourite event ids are numbers, each the
    value of its double. *)
Definition toggleFavorite (favoriteEvents : list Qcanon.Qc) (eventId : Qcanon.Qc) : list Qcanon.Qc :=
  toggle favoriteEvents eventId.

(** ** web/app/components/api-connector.ts *)

Module ApiConnector.

(** The filters of [useDJs]; a field is [None] when undefined. *)
Record DJFilters : Type := mkDJFilters {
  dj_genres : option string;
  dj_minRating : option Q;
  dj_availability : option string
}.

Record EventFilters : Type := mkEventFilters {
  ev_genres : option string;
  ev_featured : option bool
}.

(** The state of a list hook: the list, the loading flag and the error. *)
Record ListState : Type := mkListState {
  items : json;
  loading : bool;
  error : option string
}.

(** The state of [useBooking]; [success] holds JSON null for null. *)
Record BookingState : Type := mkBookingState {
  b_loading : bool;
  b_error : option string;
  b_success : json
}.

(** The state of [useAgent]; [response] holds JSON null for null. *)
Record AgentState : Type := mkAgentState {
  a_loading : bool;
  a_error : option string;
  a_response : json
}.

Section WithNumbers.

(** The platform's Number::toString. *)
Variable num : Q -> string.

(** [if (n) queryString += `name=${encodeURIComponent(n)}&`] for a number. *)
Definition append_number (queryString name : string) (n : option Q) : string :=
  match n with
  | Some x =>
      if truthy (Some (JNum x))
      then queryString +:+ name +:+ "=" +:+ Uri.encodeURIComponent (num x) +:+ "&"
      else queryString
  | None => queryString
  end.

(** [if (b !== undefined) queryString += `name=${b}&`] for a boolean. *)
Definition append_flag (queryString name : string) (b : option bool) : string :=
  match b with
  | Some x => queryString +:+ name +:+ "=" +:+ (if x then "true" else "false") +:+ "&"
  | None => queryString
  end.

Definition djs_queryString (filters : option DJFilters) : string :=
  let queryString := EmptyString in
  let queryString := append_param queryString "genres" (filters ≫= dj_genres) in
  let queryString := append_number queryString "minRating" (filters ≫= dj_minRating) in
  let queryString := append_param queryString "availability" (filters ≫= dj_availability) in
  strip_trailing_amp queryString.

Definition events_queryString (filters : option EventFilters) : string :=
  let queryString := EmptyString in
  let queryString := append_param queryString "genres" (filters ≫= ev_genres) in
  let queryString := append_flag queryString "featured" (filters ≫= ev_featured) in
  strip_trailing_amp queryString.

(** [fetch(url)] without options. *)
Definition plain_get (url : string) : FetchRequest :=
  mkFetchRequest url "GET" [] None None.

(** What the two list hooks share: [setLoading(true); setError(null)], the
    fetch, the list read from the property [key] of the answer (or the empty
    array), the fixed error text on any failure, [setLoading(false)]. *)
Definition fetch_list (url key thrown label shown : string) (st : ListState) : Eff ListState :=
  let st0 := mkListState (items st) true None in
  let* st1 :=
    try_catch
      (let* response := fetch (plain_get url) in
       if negb (ok response) then throw (Error_ thrown)
       else
         let* data := response_json response in
         let* l := lift (Js.get data key) in
         ret (mkListState (or_else l (JArr [])) (loading st0) (error st0)))
      (fun e =>
         console_error (LogCaught label e) ;;
         ret (mkListState (items st0) (loading st0) (Some shown))) in
  ret (mkListState (items st1) false (error st1)).

(** The effect of [useDJs]. *)
Definition fetchDJs (filters : option DJFilters) (st : ListState) : Eff ListState :=
  fetch_list ("/api/djs" +:+ query_suffix (djs_queryString filters)) "djs"
             "Failed to fetch DJs" "Error fetching DJs:"
             "Failed to load DJs. Please try again later." st.

(** The effect of [useEvents]. *)
Definition fetchEvents (filters : option EventFilters) (st : ListState) : Eff ListState :=
  fetch_list ("/api/events" +:+ query_suffix (events_queryString filters)) "events"
             "Failed to fetch events" "Error fetching events:"
             "Failed to load events. Please try again later." st.

Definition json_post (url : string) (b : json) : FetchRequest :=
  mkFetchRequest url "POST" [("Content-Type", "application/json")] (Some b) None.

(** [submitBooking] of [useBooking]: the state it leaves and what it
    returns (JSON null for null). *)
Definition submitBooking (bookingData : json) : Eff (BookingState * json) :=
  let* out :=
    try_catch
      (let* response := fetch (json_post "/api/bookings" bookingData) in
       if negb (ok response) then
         let* errorData := response_json response in
         let* e := lift (Js.get errorData "error") in
         throw (Error_ (JsText.to_string num (or_else e (JStr "Failed to submit booking"))))
       else
         let* data := response_json response in
         ret (mkBookingState true None data, data))
      (fun err =>
         console_error (LogCaught "Error submitting booking:" err) ;;
         ret (mkBookingState true
                (Some (JsText.or_text (JsText.message err)
                         "Failed to submit booking. Please try again later."))
                JNull,
              JNull)) in
  ret (mkBookingState false (b_error (fst out)) (b_success (fst out)), snd out).

(** The body of [JSON.stringify({ query, context })]: an undefined context
    is left out. *)
Definition query_body (query : string) (context : value) : json :=
  JObj (("query", JStr query)
          :: match context with
             | Some c => [("context", c)]
             | None => []
             end).

(** [submitQuery] of [useAgent]: the state it leaves and what it returns
    ([None] for undefined, JSON null for null). *)
Definition submitQuery (query : string) (context : value) : Eff (AgentState * value) :=
  let* out :=
    try_catch
      (let* response := fetch (json_post "/api/query" (query_body query context)) in
       if negb (ok response) then
         let* errorData := response_json response in
         let* e := lift (Js.get errorData "error") in
         throw (Error_ (JsText.to_string num (or_else e (JStr "Failed to process query"))))
       else
         let* data := response_json response in
         let* r := lift (Js.get data "response") in
         ret (mkAgentState true None (or_else r (JStr EmptyString)), r))
      (fun err =>
         console_error (LogCaught "Error processing query:" err) ;;
         ret (mkAgentState true
                (Some (JsText.or_text (JsText.message err)
                         "Failed to process query. Please try again later."))
                JNull,
              Some JNull)) in
  ret (mkAgentState false (a_error (fst out)) (a_response (fst out)), snd out).

End WithNumbers.

End ApiConnector.

(** ** web/app/booking/page.tsx *)

Module BookingPage.

(** The booking form; [hours] is a number. *)
Record BookingForm : Type := mkBookingForm {
  date : string;
  time : string;
  hours : Q;
  venue : string;
  details : string
}.

(** The argument of [useDJs]: the selected genres joined by commas when
    there is one, the minimum rating when it is positive, the selected day
    when it is not empty. *)
Definition dj_filters (selectedGenres : list string) (selectedDay : string) (minRating : Q)
  : ApiConnector.DJFilters :=
  ApiConnector.mkDJFilters
    (if (0 <? length selectedGenres)%nat then Some (String.concat "," selectedGenres) else None)
    (if negb (Qle_bool minRating 0) then Some minRating else None)
    (if nonempty (Some selectedDay) then Some selectedDay else None).

(** The object handed to [submitBooking], as [JSON.stringify] writes it: an
    undefined [dj_name] is left out. *)
Definition bookingData (name : value) (form : BookingForm) : json :=
  JObj (match name with
        | Some n => [("dj_name", n)]
        | None => []
        end
        ++ [("date", JStr (date form)); ("time", JStr (time form));
            ("hours", JNum (hours form)); ("venue", JStr (venue form));
            ("details", JStr (details form))]).

(** [handleBookingSubmit]: nothing happens without a selected DJ; else the
    booking goes to [submitBooking] and the hook's state is what it leaves. *)
Definition handleBookingSubmit (num : Q -> string) (selectedDJ : value) (form : BookingForm)
    (st : ApiConnector.BookingState) : Eff ApiConnector.BookingState :=
  match selectedDJ with
  | Some dj =>
      if falsy selectedDJ then ret st
      else
        let* name := lift (Js.get dj "name") in
        let* out := ApiConnector.submitBooking num (bookingData name form) in
        ret (fst out)
  | None => ret st
  end.

End BookingPage.

(** ** web/app/events/page.tsx *)

Module EventsPage.

(** The argument of [useEvents]: [selectedGenre || undefined] and
    [showFeaturedOnly || undefined]. *)
Definition event_filters (selectedGenre : string) (showFeaturedOnly : bool)
  : ApiConnector.EventFilters :=
  ApiConnector.mkEventFilters
    (if nonempty (Some selectedGenre) then Some selectedGenre else None)
    (if showFeaturedOnly then Some true else None).

End EventsPage.

(** ** web/app/agents/page.tsx *)

Module AgentsPage.

Inductive Role : Type := user | system | agent.

Record Message : Type := mkMessage {
  id : string;
  role : Role;
  content : json;
  timestamp : Z
}.

Record State : Type := mkState {
  messages : list Message;
  input : string;
  isLoading : bool
}.

Definition apology : string :=
  "Sorry, there was an error processing your request. Please try again later.".

Definition no_answer : string :=
  "Sorry, I couldn't process your request. Please try again.".

(** The message the catch block appends; [k] clock reads were made before. *)
Definition errorMessage (clock : nat -> Z) (k : nat) : Message :=
  mkMessage (pretty (clock k + 1)) system (JStr apology) (clock (S k)).

(** [handleSubmit].  [clock n] is what the n-th read of the clock gives
    ([Date.now()] and [new Date()], in the order the handler makes them).
    The id of the agent's message is read before [data.response] is, so the
    catch block that follows a throwing [data.response] reads the clock one
    further than the one that follows a failed fetch. *)
Definition handleSubmit (clock : nat -> Z) (st : State) : Eff State :=
  if Home.blank (input st) then ret st
  else
    let userMessage := mkMessage (pretty (clock 0%nat)) user (JStr (input st)) (clock 1%nat) in
    let st0 := mkState (messages st ++ [userMessage]) EmptyString true in
    let failed (k : nat) (e : error) : Eff State :=
      console_error (LogCaught "Error communicating with agent system:" e) ;;
      ret (mkState (messages st0 ++ [errorMessage clock k]) (input st0) (isLoading st0)) in
    let* st1 :=
      try_catch
        (let* response :=
           fetch (ApiConnector.json_post "/api/query" (JObj [("query", JStr (input st))])) in
         if negb (ok response) then
           throw (Error_ "Failed to get response from agent system")
         else
           let* data := response_json response in
           try_catch
             (let* r := lift (Js.get data "response") in
              let agentMessage :=
                mkMessage (pretty (clock 2%nat + 1)) agent (or_else r (JStr no_answer))
                          (clock 3%nat) in
              ret (mkState (messages st0 ++ [agentMessage]) (input st0) (isLoading st0)))
             (failed 3%nat))
        (failed 2%nat) in
    ret (mkState (messages st1) (input st1) false).

End AgentsPage.

(** * Sample inputs and the stated properties as predicates *)

Definition zero_hours_booking : NextRequest :=
  mkNextRequest
    (Some (JObj [("dj_name", JStr "DJ Spinall"); ("date", JStr "2025-06-14");
                 ("time", JStr "20:00"); ("hours", JNum 0); ("venue", JStr "Bla")]))
    [] [].

Definition unreachable_backend : FetchRequest -> FetchResult :=
  fun _ => Rejected "connection refused".

(** A request whose body is the JSON value null, and one whose body is not
    JSON: in both none of the required fields is present. *)
Definition null_booking : NextRequest := mkNextRequest (Some JNull) [] [].

Definition unparseable_booking : NextRequest := mkNextRequest None [] [].


(** The request the query route hands to [fetch] for a body whose [query]
    and [context] properties are the two values given. *)
Definition forwarded (env : Env) (query context : value) : FetchRequest :=
  mkFetchRequest (API_URL env +:+ "/query") "POST" (api_headers env)
    (Some (JObj [("query", or_else query JNull);
                 ("context", or_else context (JObj []))]))
    (Some "no-store").

Definition json_response (st : Z) (data : json) : NextResponse :=
  mkNextResponse st [("content-type", "application/json")] (Some data).

Definition is_4xx (s : Z) : bool := (400 <=? s) && (s <=? 499).

(** Malformed input in the sense of the spec: the body is an object whose
    [query] is missing, or is a string longer than the bound. *)
Definition malformed (bound : nat) (request : NextRequest) : Prop :=
  exists props, rq_body request = Some (JObj props) /\
    (own_prop props "query" = None
     \/ exists q, own_prop props "query" = Some (JStr q) /\ (bound < String.length q)%nat).

(** The handler answers with a 4xx and has fetched nothing. *)
Definition rejected_before_dispatch (env : Env) (net : FetchRequest -> FetchResult)
    (request : NextRequest) : Prop :=
  exists t resp,
    run (QueryRoute.POST env request) net = (t, Normal resp)
    /\ is_4xx (status resp) = true /\ fetched t = [].

Definition long_query : string := Nat.iter 1001 (String "a") EmptyString.

Definition oversized_request : NextRequest :=
  mkNextRequest (Some (JObj [("query", JStr long_query)])) [] [].

Definition sample_answer : json :=
  JObj [("response", JStr "Three Amapiano DJs are free on Saturday.");
        ("agents_used", JArr [JStr "booking"]);
        ("timestamp", JStr "2025-06-01T12:00:00");
        ("cache_hit", JBool false)].

Definition accepting_backend : FetchRequest -> FetchResult :=
  fun _ => Resolved (mkFetchResponse 200 "OK" (Some sample_answer)).


(** The option [name] of the request body governs the processing only if
    it reaches the backend: every fetch carries it as the body has it. *)
Definition honors_option (name : string) (env : Env) (net : FetchRequest -> FetchResult)
    (request : NextRequest) : Prop :=
  forall b rq fb,
    rq_body request = Some b ->
    In rq (fetched (fst (run (QueryRoute.POST env request) net))) ->
    f_body rq = Some fb ->
    Js.get fb name = Js.get b name.

Definition bypass_request : NextRequest :=
  mkNextRequest
    (Some (JObj [("query", JStr "Upcoming Afrobeats events in Oslo");
                 ("provider_preference", JStr "secondary");
                 ("use_cache", JBool false)]))
    [] [].


(** The djs route's parameters as the claim words them: the incoming
    parameter names with the names they are forwarded under. *)
Definition djs_renaming : list (string * string) :=
  [("genres", "genres"); ("minRating", "min_rating"); ("availability", "availability")].

(** A forwarded parameter: present and non-empty in the incoming URL. *)
Definition kept (request : NextRequest) (names : string * string) : option (string * string) :=
  match searchParams_get (rq_searchParams request) (fst names) with
  | Some v => if String.eqb v EmptyString then None else Some (snd names, v)
  | None => None
  end.

Definition forwarded_params (request : NextRequest) : list (string * string) :=
  omap (kept request) djs_renaming.

(** [name=value] with the value URI-encoded. *)
Definition render (p : string * string) : string :=
  fst p +:+ "=" +:+ Uri.encodeURIComponent (snd p).

(** The query string as the claim words it: the rendered parameters joined
    by an ampersand, behind a question mark when there is at least one. *)
Definition joined_suffix (ps : list (string * string)) : string :=
  match ps with
  | [] => EmptyString
  | _ :: _ => "?" +:+ String.concat "&" (map render ps)
  end.

(** Every parameter followed by an ampersand, as the handler builds it. *)
Definition trailed (ps : list (string * string)) : string :=
  String.concat EmptyString (map (fun p => render p +:+ "&") ps).

Fixpoint has_amp (s : string) : bool :=
  match s with
  | EmptyString => false
  | String c rest => Ascii.eqb c "&" || has_amp rest
  end.

Definition djs_request : NextRequest :=
  mkNextRequest None
    [("genres", "Afrobeats & Amapiano"); ("minRating", "4.5"); ("availability", EmptyString)]
    [("origin", "https://afrobeats.no")].

(** A backend result that is a failure below the boundary: the fetch
    rejects, or the backend answers with a status that is not ok. *)
Definition failing (f : FetchResult) : Prop :=
  match f with
  | Rejected _ => True
  | Resolved r => ok r = false
  end.

(** The text of an error response: the [error] property of its body. *)
Definition response_text (c : Completion NextResponse) : value :=
  match c with
  | Normal resp =>
      match body resp with
      | Some d => match Js.get d "error" with inr v => v | inl _ => None end
      | None => None
      end
  | Thrown _ => None
  end.

(** Two runs that differ in the failure only answer with the same text. *)
Definition hides_failure_detail (env : Env) (request : NextRequest) : Prop :=
  forall f1 f2, failing f1 -> failing f2 ->
    response_text (snd (run (QueryRoute.POST env request) (fun _ => f1))) =
    response_text (snd (run (QueryRoute.POST env request) (fun _ => f2))).

(** What [errorData.error] evaluates to for a backend response. *)
Definition relayed (r : FetchResponse) : error + value :=
  match r_body r with
  | Some d => Js.get d "error"
  | None => inr (Some (JStr "Unknown error"))
  end.

Definition events_request : NextRequest :=
  mkNextRequest (Some (JObj [("query", JStr "Upcoming Afrobeats events in Oslo")])) [] [].

Definition rate_limited : FetchResponse :=
  mkFetchResponse 503 "Service Unavailable"
    (Some (JObj [("error", JStr "booking responder: primary provider RateLimited after 10021 ms")])).

Definition unavailable : FetchResponse :=
  mkFetchResponse 503 "Service Unavailable"
    (Some (JObj [("error", JStr "events responder: secondary provider Unavailable after 312 ms")])).

Definition reason_phrase (s : Z) : string :=
  if s =? 200 then "OK" else if s =? 500 then "Internal Server Error" else EmptyString.

Definition rate_limited_traced : FetchResponse :=
  mkFetchResponse 503 "Backend overloaded"
    (Some (JObj [("error", JStr "booking responder: primary provider RateLimited after 10021 ms");
                 ("trace", JStr "agent_graph.py line 212")])).

(** Sample responder metadata: a narrow booking domain, a broad content
    domain. *)
Definition sample_metadata : Backend.Metadata :=
  Backend.mkMetadata
    (fun r =>
       match r with
       | Backend.Booking => ["book"; "dj"; "hire"]
       | Backend.Events => ["event"; "tonight"; "festival"]
       | Backend.Content => ["article"; "dj"; "news"; "interview"]
       | _ => []
       end)
    (fun r =>
       match r with
       | Backend.Content => 5%nat
       | _ => 1%nat
       end).

Definition greeting : Backend.Query := Backend.mkQuery "Hello there" [] None true.


Definition default_config : Backend.Config :=
  Backend.mkConfig true true Backend.default_ttl 1000.

Definition unconfigured : Backend.Config :=
  Backend.mkConfig false false Backend.default_ttl 1000.

(** A world in which the booking responder answers and the others fail. *)
Definition booking_world (r : Backend.Responder) : Backend.ResponderResult :=
  match r with
  | Backend.Booking =>
      Backend.mkResult r Backend.Succeeded (Some "DJ Spinall is free on Saturday.") 840 None
  | _ => Backend.mkResult r Backend.Failed None 10000 (Some "provider unavailable")
  end.

(** A world in which every responder fails or times out. *)
Definition dead_world (r : Backend.Responder) : Backend.ResponderResult :=
  match r with
  | Backend.Booking =>
      Backend.mkResult r Backend.TimedOut None 10000 (Some "deadline exceeded")
  | _ => Backend.mkResult r Backend.Failed None 120 (Some "provider unavailable")
  end.




(** The query the backend reads from what the query route forwards for a
    body with the string [q] as query and [ctx] as context. *)
Definition forwarded_query (q : string) (ctx : value) : Backend.Query :=
  Backend.mkQuery q (Backend.hints (Some (or_else ctx (JObj [])))) None true.

(** The body of a degraded answer. *)
Definition degraded_answer (now : Z) : json :=
  JObj [("response", JStr Backend.generic_apology);
        ("agents_used", JArr []);
        ("timestamp", JStr (pretty now));
        ("cache_hit", JBool false)].

Definition booking_request : NextRequest :=
  mkNextRequest (Some (JObj [("query", JStr "Book an Amapiano DJ for Saturday in Oslo")])) [] [].

(** The cache after the events query was answered once at instant 0. *)
Definition warm_cache : gmap (string * list (string * string) * list string) Backend.CacheEntry :=
  snd (Backend.answer default_config sample_metadata
         (fun r => Backend.mkResult r Backend.Succeeded (Some "Afro Nation Oslo, Friday.") 900 None)
         0 ∅ (forwarded_query "Upcoming Afrobeats events in Oslo" None)).

Definition ambiguous_query : Backend.Query :=
  Backend.mkQuery "Hire and book a DJ: news, article, interview" [] None true.

Definition content_query : Backend.Query :=
  Backend.mkQuery "News article: interview with a DJ you can book" [] None true.

(** * The route handlers as a family *)

(** The five exported request handlers of web/app/api, as the framework
    routes a method and a path to them. *)
Inductive Handler : Type := QueryPOST | BookingsPOST | DjsGET | EventsGET | EventsPOST.

Definition handle (h : Handler) : Env -> NextRequest -> Eff NextResponse :=
  match h with
  | QueryPOST => QueryRoute.POST
  | BookingsPOST => BookingsRoute.POST
  | DjsGET => DjsRoute.GET
  | EventsGET => EventsRoute.GET
  | EventsPOST => EventsRoute.POST
  end.

(** The handlers that read the request body. *)
Definition reads_body (h : Handler) : bool :=
  match h with
  | QueryPOST | BookingsPOST | EventsPOST => true
  | DjsGET | EventsGET => false
  end.

(** The text each handler falls back to when the backend's error body has
    no truthy [error] property. *)
Definition fallback_text (h : Handler) : string :=
  match h with
  | QueryPOST => "Error processing query"
  | BookingsPOST => "Error creating booking"
  | DjsGET => "Error fetching DJs"
  | EventsGET => "Error fetching events"
  | EventsPOST => "Error creating event"
  end.

Definition internal_server_error : NextResponse :=
  json_response 500 (error_body (JStr "Internal server error")).

(** A backend status that the handler can put on its own response: within
    300-599 and not the null-body status 304. *)
Definition relayable_status (s : Z) : bool :=
  (300 <=? s) && (s <=? 599) && negb (s =? 304).

(** The text relayed for a backend answer that is not ok. *)
Definition relay_text (fallback : string) (r : FetchResponse) : json :=
  match r_body r with
  | None => JStr "Unknown error"
  | Some d =>
      match Js.get d "error" with
      | inr e => or_else e (JStr fallback)
      | inl _ => JNull
      end
  end.

(** The response of a handler as a function of what its one fetch gave. *)
Definition answer_of (fallback : string) (f : FetchResult) : NextResponse :=
  match f with
  | Rejected _ => internal_server_error
  | Resolved r =>
      if ok r then
        match r_body r with
        | Some d => json_response 200 d
        | None => internal_server_error
        end
      else
        match r_body r with
        | Some JNull => internal_server_error
        | _ =>
            if relayable_status (r_status r)
            then json_response (r_status r) (error_body (relay_text fallback r))
            else internal_server_error
        end
  end.

(** The key the handlers send to the backend: API_KEY when it is set and
    not empty. *)
Definition configured_key (env : Env) : option string :=
  match API_KEY env with
  | Some k => if String.eqb k EmptyString then None else Some k
  | None => None
  end.

(** Every required field of the list reads as a truthy value. *)
Definition all_truthy (b : json) (fields : list string) : Prop :=
  forall f, In f fields -> exists v, Js.get b f = inr v /\ truthy v = true.

Definition events_renaming : list (string * string) :=
  [("genres", "genres"); ("featured", "featured")].

Definition events_forwarded_params (request : NextRequest) : list (string * string) :=
  omap (kept request) events_renaming.

Definition keyed_env : Env :=
  [("NEXT_PUBLIC_API_URL", "http://api:8000"); ("API_KEY", "s3cret")].

Definition full_booking : json :=
  JObj [("dj_name", JStr "DJ Spinall"); ("date", JStr "2025-06-14");
        ("time", JStr "20:00"); ("hours", JNum 3); ("venue", JStr "Bla");
        ("details", JStr "Birthday party")].

Definition not_modified : FetchResponse :=
  mkFetchResponse 304 "Not Modified" (Some (JObj [("error", JStr "stale")])).

Definition no_content : FetchResponse := mkFetchResponse 204 "No Content" None.

Definition events_request_params : NextRequest :=
  mkNextRequest None [("featured", "false"); ("genres", "Afrobeats/Amapiano")] [].

Definition event_without_genres : json :=
  JObj [("title", JStr "Afro Nation Oslo"); ("date", JStr "2025-08-01");
        ("time", JStr "22:00"); ("venue", JStr "Bla"); ("location", JStr "Oslo");
        ("description", JStr "All night long"); ("genres", JArr [])].

(** * The client side: expected parameters and outcomes *)

(** A parameter with a non-empty string value. *)
Definition present (name : string) (v : option string) : list (string * string) :=
  match v with
  | Some x => if String.eqb x EmptyString then [] else [(name, x)]
  | None => []
  end.

(** The parameters [useDJs] sends: genres and availability when non-empty,
    minRating when it is a number other than zero. *)
Definition dj_params (num : Q -> string) (filters : option ApiConnector.DJFilters)
  : list (string * string) :=
  present "genres" (filters ≫= ApiConnector.dj_genres)
  ++ match filters ≫= ApiConnector.dj_minRating with
     | Some x => if (Qnum x =? 0)%Z then [] else [("minRating", num x)]
     | None => []
     end
  ++ present "availability" (filters ≫= ApiConnector.dj_availability).

(** The parameters [useEvents] sends: genres when non-empty, featured
    whenever it is defined. *)
Definition event_params (filters : option ApiConnector.EventFilters)
  : list (string * string) :=
  present "genres" (filters ≫= ApiConnector.ev_genres)
  ++ match filters ≫= ApiConnector.ev_featured with
     | Some true => [("featured", "true")]
     | Some false => [("featured", "false")]
     | None => []
     end.

(** The fetch of a list hook failed: it rejected, the answer was not ok, or
    its body was not JSON or was null. *)
Definition list_failure (f : FetchResult) : Prop :=
  match f with
  | Rejected _ => True
  | Resolved r => ok r = false \/ r_body r = None \/ r_body r = Some JNull
  end.

(** A decimal rendering of the numbers used in the examples. *)
Definition sample_num (x : Q) : string :=
  if Qeq_bool x (45 # 10) then "4.5" else pretty (Qnum x).

(** What a list hook leaves behind: one GET of [url]; on a failure the old
    list and the fixed text [shown]; on an ok JSON answer the list under
    [key] (or the empty array) and no error; the loading flag off. *)
Definition list_hook_outcome (hook : Eff ApiConnector.ListState) (url key shown : string)
    (st : ApiConnector.ListState) (net : FetchRequest -> FetchResult) : Prop :=
  exists logs st',
    run hook net = (mkTrace [ApiConnector.plain_get url] logs, Normal st')
    /\ ApiConnector.loading st' = false
    /\ (list_failure (net (ApiConnector.plain_get url)) ->
        ApiConnector.items st' = ApiConnector.items st
        /\ ApiConnector.error st' = Some shown)
    /\ (forall r d l,
        net (ApiConnector.plain_get url) = Resolved r -> ok r = true ->
        r_body r = Some d -> Js.get d key = inr l ->
        ApiConnector.items st' = or_else l (JArr [])
        /\ ApiConnector.error st' = None).

Definition loaded_djs : ApiConnector.ListState :=
  ApiConnector.mkListState (JArr [JObj [("name", JStr "DJ Spinall")]]) false None.

(** The request the bookings route hands to [fetch] for the body [b]. *)
Definition bookings_forwarded (env : Env) (b : json) : FetchRequest :=
  mkFetchRequest (API_URL env +:+ "/bookings") "POST" (api_headers env) (Some b) None.

Definition provider_down : FetchResponse :=
  mkFetchResponse 503 "Service Unavailable"
    (Some (JObj [("error", JStr "gemini: quota exceeded for key AIza...")])).

Definition zero_hours_body : json :=
  JObj [("dj_name", JStr "DJ Spinall"); ("date", JStr "2025-06-14");
        ("time", JStr "20:00"); ("hours", JNum 0); ("venue", JStr "Bla")].

(** The request the chat page and the home page make for a query. *)
Definition page_query (q : string) : FetchRequest :=
  ApiConnector.json_post "/api/query" (JObj [("query", JStr q)]).

Definition sample_clock (n : nat) : Z := 1750000000000 + Z.of_nat n.

Definition greeted : AgentsPage.State :=
  AgentsPage.mkState
    [AgentsPage.mkMessage "0" AgentsPage.agent (JStr "Hello!") 1749999999000]
    "Who plays tonight?" false.

Definition untouched_form : BookingPage.BookingForm :=
  BookingPage.mkBookingForm EmptyString EmptyString 2 EmptyString EmptyString.

Definition idle_booking : ApiConnector.BookingState :=
  ApiConnector.mkBookingState false None JNull.

(** * Reading a query string back *)

(** The character [c] occurs in the string. *)
Fixpoint contains (c : ascii) (s : string) : bool :=
  match s with
  | EmptyString => false
  | String a rest => Ascii.eqb a c || contains c rest
  end.

(** The value of a hexadecimal digit and the byte of two of them: the
    inverse of [Uri.percent], used to read an escape back. *)
Definition hex_value (c : ascii) : nat :=
  let n := nat_of_ascii c in if (n <? 58)%nat then (n - 48)%nat else (n - 55)%nat.

Definition unpercent (x y : ascii) : ascii := ascii_of_nat (16 * hex_value x + hex_value y).

(** One character as [encodeURIComponent] writes it. *)
Definition encoded_char (c : ascii) : string :=
  if Uri.unreserved c then String c EmptyString else Uri.percent c.

(** A parameter name without [=] and [&]. *)
Definition plain_name (n : string) : bool :=
  negb (contains "=" n) && negb (contains "&" n).

Definition injection_attempt : NextRequest :=
  mkNextRequest None [("genres", "Afrobeats&availability=Monday")] [].

Definition honest_request : NextRequest :=
  mkNextRequest None [("genres", "Afrobeats"); ("availability", "Monday")] [].

Definition reordered_request : NextRequest :=
  mkNextRequest None [("page", "2"); ("availability", "Monday"); ("genres", "Afrobeats")] [].

(** * Properties *)

(** ** Stepping through a handler *)

Ltac unfold_eff :=
  unfold relay_error, internal_error, NextResponse_json, request_json, response_json in *;
  unfold run, bind, ret, throw, try_catch, lift, fetch, console_error in *.

(** Case analysis on the next scrutinee of the goal. *)
Ltac split_match :=
  match goal with
  | |- context [match ?x with _ => _ end] =>
      lazymatch x with
      | context [match _ with _ => _ end] => fail
      | _ => destruct x eqn:?; simpl in *
      end
  end.

Lemma eqb_neq_false (a b : string) : a <> b -> String.eqb a b = false.
Proof. intros H. apply String.eqb_neq. exact H. Qed.

(** The validation loop returns at the first falsy field. *)
Lemma check_required_first_falsy (b : json) (net : FetchRequest -> FetchResult) (t : Trace) :
  forall (pre : list string) (f : string) (post : list string) (v : value),
    (forall g, In g pre -> exists w, Js.get b g = inr w /\ truthy w = true) ->
    Js.get b f = inr v -> falsy v = true ->
    BookingsRoute.check_required b (pre ++ f :: post) net t =
      (t, Normal (Some (mkNextResponse 400 [("content-type", "application/json")]
                          (Some (error_body (JStr (f +:+ " is required"))))))).
Proof.
  induction pre as [|g pre IH]; intros f post v Hpre Hf Hv; simpl.
  - unfold_eff. rewrite Hf. simpl. rewrite Hv. reflexivity.
  - destruct (Hpre g (or_introl eq_refl)) as (w & Hg & Hw).
    unfold bind at 1. unfold lift. rewrite Hg. unfold ret at 1.
    unfold falsy. rewrite Hw. simpl.
    apply (IH f post v); auto. intros g' Hin. apply Hpre. right. exact Hin.
Qed.

(** ** web/app/api/bookings/route.ts *)

(** C8 as stated fails: a request whose body is the JSON value null, or is
    not JSON at all, has none of the five fields, yet it is answered 500
    "Internal server error" and not 400. *)
Lemma bookings_without_fields_is_500 :
  (forall f, In f BookingsRoute.requiredFields ->
             forall v, Js.get JNull f = inr v -> False)
  /\ snd (run (BookingsRoute.POST [] null_booking) unreachable_backend) =
       Normal (json_response 500 (error_body (JStr "Internal server error")))
  /\ snd (run (BookingsRoute.POST [] unparseable_booking) unreachable_backend) =
       Normal (json_response 500 (error_body (JStr "Internal server error")))
  /\ (forall resp,
        snd (run (BookingsRoute.POST [] null_booking) unreachable_backend) = Normal resp ->
        status resp <> 400).
Proof.
  split; [|split; [|split]].
  - intros f _ v H. discriminate H.
  - reflexivity.
  - reflexivity.
  - intros resp H. vm_compute in H. injection H as <-. discriminate.
Qed.

(** C8, amended. For every POST /api/bookings request whose body parses to a
    JSON value: when one of dj_name, date, time, hours, venue is absent or
    falsy in the body while the fields before it in that order are truthy,
    the handler answers 400 with the message "<field> is required" and
    fetches nothing; in particular a booking whose hours is the number 0
    (the first three fields being truthy) is answered "hours is required".
    Every field of a body other than null can be read, so these cases cover
    every parsed body but null.  A request whose body is not JSON, or is the
    JSON value null, is answered 500 "Internal server error", and nothing is
    fetched either. *)
Theorem bookings_rejects_first_missing_field
    (env : Env) (net : FetchRequest -> FetchResult) (request : NextRequest) :
  (forall b : json, rq_body request = Some b ->
    (forall (pre : list string) (f : string) (post : list string) (v : value),
        BookingsRoute.requiredFields = (pre ++ f :: post)%list ->
        (forall g, In g pre -> exists w, Js.get b g = inr w /\ truthy w = true) ->
        Js.get b f = inr v -> falsy v = true ->
        run (BookingsRoute.POST env request) net =
          (no_trace,
           Normal (mkNextResponse 400 [("content-type", "application/json")]
                     (Some (error_body (JStr (f +:+ " is required")))))))
    /\ (forall x : Q,
        (forall g, In g ["dj_name"; "date"; "time"] ->
                   exists w, Js.get b g = inr w /\ truthy w = true) ->
        Js.get b "hours" = inr (Some (JNum x)) -> Qnum x = 0 ->
        run (BookingsRoute.POST env request) net =
          (no_trace,
           Normal (mkNextResponse 400 [("content-type", "application/json")]
                     (Some (error_body (JStr "hours is required"))))))
    /\ (b <> JNull -> forall f, exists v, Js.get b f = inr v))
  /\ (rq_body request = None \/ rq_body request = Some JNull ->
      snd (run (BookingsRoute.POST env request) net) =
        Normal (json_response 500 (error_body (JStr "Internal server error")))
      /\ fetched (fst (run (BookingsRoute.POST env request) net)) = []).
Proof.
  split.
  - intros b Hb.
    assert (G : forall pre f post v,
        BookingsRoute.requiredFields = (pre ++ f :: post)%list ->
        (forall g, In g pre -> exists w, Js.get b g = inr w /\ truthy w = true) ->
        Js.get b f = inr v -> falsy v = true ->
        run (BookingsRoute.POST env request) net =
          (no_trace,
           Normal (mkNextResponse 400 [("content-type", "application/json")]
                     (Some (error_body (JStr (f +:+ " is required"))))))).
    { intros pre f post v Hsplit Hpre Hf Hv.
      unfold BookingsRoute.POST, run, try_catch, bind at 1, request_json.
      rewrite Hb. unfold ret at 1. unfold bind at 1. rewrite Hsplit.
      rewrite (check_required_first_falsy b net no_trace pre f post v Hpre Hf Hv).
      reflexivity. }
    split; [exact G|split].
    + intros x Hpre Hh Hx.
      apply (G ["dj_name"; "date"; "time"] "hours" ["venue"] (Some (JNum x))); auto.
      unfold falsy. simpl. rewrite Hx. reflexivity.
    + intros Hnn f. destruct b; simpl; eauto. contradiction Hnn. reflexivity.
  - intros [Hb|Hb]; unfold BookingsRoute.POST; unfold_eff; rewrite Hb;
      split; reflexivity.
Qed.

Lemma bookings_rejects_zero_hours :
  run (BookingsRoute.POST [] zero_hours_booking) unreachable_backend =
    (no_trace,
     Normal (mkNextResponse 400 [("content-type", "application/json")]
               (Some (error_body (JStr "hours is required"))))).
Proof.
  refine (proj1 (proj2 (proj1 (bookings_rejects_first_missing_field [] unreachable_backend
                                 zero_hours_booking) _ eq_refl)) 0%Q _ eq_refl eq_refl).
  intros g [<-|[<-|[<-|[]]]]; eexists; (split; [reflexivity|reflexivity]).
Defined.

(** A body that is the JSON value null makes the property read throw; the
    outer catch answers 500. *)
Lemma bookings_null_body (env : Env) (net : FetchRequest -> FetchResult) :
  snd (run (BookingsRoute.POST env (mkNextRequest (Some JNull) [] [])) net) =
    Normal (mkNextResponse 500 [("content-type", "application/json")]
              (Some (error_body (JStr "Internal server error")))).
Proof. reflexivity. Qed.

(** ** OPTIONS of the four route modules *)

(** C9. For every OPTIONS preflight to the query, djs, events or bookings
    route, whatever the request (its Origin header included) and whatever
    the environment (an allowed-origins setting included), the response has
    status 200 and its Access-Control-Allow-Origin header is "*". *)
Theorem preflight_allows_any_origin (r : Route) (env : Env) (request : NextRequest) :
  status (preflight r env request) = 200
  /\ header_get (headers (preflight r env request)) "Access-Control-Allow-Origin" = Some "*"
  /\ body (preflight r env request) = None.
Proof. destruct r; repeat split; reflexivity. Qed.

(** ** web/app/api/query/route.ts *)

(** What the handler does once the body is parsed and [query] is read. *)
Lemma query_post_missing (env : Env) (net : FetchRequest -> FetchResult)
    (request : NextRequest) (b : json) (v : value) :
  rq_body request = Some b -> Js.get b "query" = inr v -> falsy v = true ->
  run (QueryRoute.POST env request) net =
    (no_trace, Normal (json_response 400 (error_body (JStr "Query is required")))).
Proof.
  intros Hb Hq Hv. unfold QueryRoute.POST. unfold_eff.
  rewrite Hb. simpl. rewrite Hq. simpl. rewrite Hv. reflexivity.
Qed.

Lemma get_total_of_get (b : json) (n m : string) (v : value) :
  Js.get b n = inr v -> exists w, Js.get b m = inr w.
Proof. destruct b; simpl; intros H; try discriminate; eauto. Qed.

Lemma query_post_fetches (env : Env) (net : FetchRequest -> FetchResult)
    (request : NextRequest) (b : json) (v c : value) :
  rq_body request = Some b -> Js.get b "query" = inr v -> truthy v = true ->
  Js.get b "context" = inr c ->
  fetched (fst (run (QueryRoute.POST env request) net)) = [forwarded env v c].
Proof.
  intros Hb Hq Hv Hc. unfold QueryRoute.POST. unfold_eff.
  rewrite Hb. simpl. rewrite Hq. simpl. unfold falsy. rewrite Hv. simpl.
  rewrite Hc. simpl.
  fold (forwarded env v c).
  destruct (net (forwarded env v c)) as [msg|r]; simpl; [reflexivity|].
  repeat split_match; reflexivity.
Qed.

(** The fetches of a run, by cases on the body. *)
Lemma query_post_fetched_cases (env : Env) (net : FetchRequest -> FetchResult)
    (request : NextRequest) (rq : FetchRequest) :
  In rq (fetched (fst (run (QueryRoute.POST env request) net))) ->
  exists b v c,
    rq_body request = Some b /\ Js.get b "query" = inr v /\ truthy v = true
    /\ Js.get b "context" = inr c /\ rq = forwarded env v c.
Proof.
  intros Hin.
  destruct (rq_body request) as [b|] eqn:Hb.
  2:{ unfold QueryRoute.POST in Hin. unfold_eff. rewrite Hb in Hin.
      simpl in Hin. destruct Hin. }
  destruct (Js.get b "query") as [e|v] eqn:Hq.
  { unfold QueryRoute.POST in Hin. unfold_eff. rewrite Hb in Hin.
    simpl in Hin. rewrite Hq in Hin. simpl in Hin. destruct Hin. }
  destruct (truthy v) eqn:Hv.
  2:{ rewrite (query_post_missing env net request b v Hb Hq) in Hin.
      - destruct Hin.
      - unfold falsy. rewrite Hv. reflexivity. }
  destruct (get_total_of_get b "query" "context" v Hq) as [c Hc].
  rewrite (query_post_fetches env net request b v c Hb Hq Hv Hc) in Hin.
  destruct Hin as [<-|[]]. exists b, v, c. auto.
Qed.

(** A dispatched request whose backend call is answered ok with a JSON
    body. *)
Lemma query_post_ok (env : Env) (net : FetchRequest -> FetchResult)
    (request : NextRequest) (b : json) (v c : value) (r : FetchResponse) (d : json) :
  rq_body request = Some b -> Js.get b "query" = inr v -> truthy v = true ->
  Js.get b "context" = inr c ->
  net (forwarded env v c) = Resolved r -> ok r = true -> r_body r = Some d ->
  snd (run (QueryRoute.POST env request) net) = Normal (json_response 200 d).
Proof.
  intros Hb Hq Hv Hc Hnet Hok Hd. unfold QueryRoute.POST. unfold_eff.
  rewrite Hb. simpl. rewrite Hq. simpl. unfold falsy. rewrite Hv. simpl.
  rewrite Hc. simpl. fold (forwarded env v c). rewrite Hnet. simpl.
  rewrite Hok. simpl. rewrite Hd. reflexivity.
Qed.

(** A dispatched request whose backend call is answered with a status that
    is not ok and that a response with a body can carry. *)
Lemma query_post_relay (env : Env) (net : FetchRequest -> FetchResult)
    (request : NextRequest) (b : json) (v c : value) (r : FetchResponse) (e : value) :
  rq_body request = Some b -> Js.get b "query" = inr v -> truthy v = true ->
  Js.get b "context" = inr c ->
  net (forwarded env v c) = Resolved r -> ok r = false -> relayed r = inr e ->
  300 <= r_status r <= 599 -> null_body_status (r_status r) = false ->
  snd (run (QueryRoute.POST env request) net) =
    Normal (json_response (r_status r)
              (error_body (or_else e (JStr "Error processing query")))).
Proof.
  intros Hb Hq Hv Hc Hnet Hok Hrel Hst Hnull. unfold QueryRoute.POST. unfold_eff.
  rewrite Hb. simpl. rewrite Hq. simpl. unfold falsy. rewrite Hv. simpl.
  rewrite Hc. simpl. fold (forwarded env v c). rewrite Hnet. simpl.
  rewrite Hok. simpl. unfold relayed in Hrel.
  assert (Hrange : (200 <=? r_status r) && (r_status r <=? 599) = true).
  { apply andb_true_iff. split; apply Z.leb_le; lia. }
  destruct (r_body r) as [d|]; simpl.
  - rewrite Hrel. simpl. rewrite Hrange, Hnull. reflexivity.
  - injection Hrel as <-. rewrite Hrange, Hnull. reflexivity.
Qed.

(** C2 as stated fails: a query longer than the bound is dispatched. *)
Lemma oversized_query_is_dispatched :
  malformed 1000 oversized_request
  /\ ~ rejected_before_dispatch [] accepting_backend oversized_request.
Proof.
  split.
  - exists [("query", JStr long_query)]. split; [reflexivity|].
    right. exists long_query. split; [reflexivity|].
    apply Nat.ltb_lt. vm_compute. reflexivity.
  - intros (t & resp & Hrun & H4 & Hf).
    assert (Hs : status resp = 200).
    { change resp with (match (t, Normal resp) with (_, Normal r) => r | _ => resp end).
      rewrite <- Hrun. vm_compute. reflexivity. }
    unfold is_4xx in H4. rewrite Hs in H4. discriminate.
Qed.

(** C2, amended. For every POST /query request whose parsed body yields a
    falsy [query] (missing, null, false, 0 or the empty string) the handler
    answers 400 "Query is required" and fetches nothing; it applies no
    length bound: for a truthy [query] of any length it makes exactly one
    fetch, which carries that query to the backend. *)
Theorem query_required_and_never_measured
    (env : Env) (net : FetchRequest -> FetchResult) (request : NextRequest)
    (b : json) (v c : value) :
  rq_body request = Some b ->
  Js.get b "query" = inr v -> Js.get b "context" = inr c ->
  (falsy v = true ->
     run (QueryRoute.POST env request) net =
       (no_trace, Normal (json_response 400 (error_body (JStr "Query is required")))))
  /\ (truthy v = true ->
     fetched (fst (run (QueryRoute.POST env request) net)) = [forwarded env v c]
     /\ exists j, v = Some j
          /\ f_body (forwarded env v c) =
               Some (JObj [("query", j); ("context", or_else c (JObj []))])).
Proof.
  intros Hb Hq Hc. split.
  - apply query_post_missing with (b := b); assumption.
  - intros Hv. split.
    + apply query_post_fetches with (b := b); assumption.
    + destruct v as [j|]; [|discriminate]. exists j. split; [reflexivity|].
      unfold forwarded. cbn [f_body or_else]. rewrite Hv. reflexivity.
Qed.

Lemma query_required_and_never_measured_witness :
  run (QueryRoute.POST [] (mkNextRequest (Some (JObj [("context", JObj [])])) [] []))
      accepting_backend =
    (no_trace, Normal (json_response 400 (error_body (JStr "Query is required"))))
  /\ fetched (fst (run (QueryRoute.POST [] oversized_request) accepting_backend)) =
       [forwarded [] (Some (JStr long_query)) None].
Proof.
  split.
  - exact (proj1 (query_required_and_never_measured [] accepting_backend
                    (mkNextRequest (Some (JObj [("context", JObj [])])) [] [])
                    _ None (Some (JObj [])) eq_refl eq_refl eq_refl) eq_refl).
  - exact (proj1 (proj2 (query_required_and_never_measured [] accepting_backend
                    oversized_request _ (Some (JStr long_query)) None
                    eq_refl eq_refl eq_refl) eq_refl)).
Defined.

(** C3 as stated fails: neither [use_cache] nor [provider_preference]
    reaches the backend; the one fetch of the run carries the query and an
    empty context only. *)
Lemma cache_bypass_is_not_forwarded :
  ~ honors_option "use_cache" [] accepting_backend bypass_request
  /\ ~ honors_option "provider_preference" [] accepting_backend bypass_request
  /\ map f_body (fetched (fst (run (QueryRoute.POST [] bypass_request) accepting_backend))) =
       [Some (JObj [("query", JStr "Upcoming Afrobeats events in Oslo");
                    ("context", JObj [])])].
Proof.
  split; [|split; [|reflexivity]]; intros H;
    pose proof (H _ (forwarded [] (Some (JStr "Upcoming Afrobeats events in Oslo")) None)
                  _ eq_refl (or_introl eq_refl) eq_refl) as H1;
    vm_compute in H1; discriminate H1.
Qed.

(** C3, amended. The POST /query handler reads [query] and [context] of the
    body and nothing else: every fetch it makes carries exactly these two
    (a falsy context replaced by the empty object), and two requests whose
    bodies agree on [query] and [context] run identically (same fetches,
    same log, same response) whatever their [provider_preference] and
    [use_cache]. *)
Theorem query_route_reads_query_and_context_only
    (env : Env) (net : FetchRequest -> FetchResult) (r1 r2 : NextRequest) (b1 b2 : json) :
  rq_body r1 = Some b1 -> rq_body r2 = Some b2 ->
  Js.get b1 "query" = Js.get b2 "query" ->
  Js.get b1 "context" = Js.get b2 "context" ->
  run (QueryRoute.POST env r1) net = run (QueryRoute.POST env r2) net
  /\ (forall rq, In rq (fetched (fst (run (QueryRoute.POST env r1) net))) ->
        exists v c, Js.get b1 "query" = inr v /\ Js.get b1 "context" = inr c
                    /\ rq = forwarded env v c).
Proof.
  intros H1 H2 Hq Hc. split.
  - unfold QueryRoute.POST, run, try_catch, bind, request_json.
    rewrite H1, H2. unfold ret. cbn beta iota. rewrite Hq, Hc. reflexivity.
  - intros rq Hin.
    destruct (query_post_fetched_cases env net r1 rq Hin) as (b & v & c & Hb & Hv & _ & Hcx & ->).
    rewrite H1 in Hb. injection Hb as <-. exists v, c. auto.
Qed.

Lemma query_route_reads_query_and_context_only_witness :
  run (QueryRoute.POST [] bypass_request) accepting_backend =
    run (QueryRoute.POST []
           (mkNextRequest (Some (JObj [("query", JStr "Upcoming Afrobeats events in Oslo")]))
                          [] []))
        accepting_backend.
Proof.
  exact (proj1 (query_route_reads_query_and_context_only [] accepting_backend
                  bypass_request
                  (mkNextRequest
                     (Some (JObj [("query", JStr "Upcoming Afrobeats events in Oslo")])) [] [])
                  _ _ eq_refl eq_refl eq_refl eq_refl)).
Defined.





(** ** web/app/api/djs/route.ts *)

(** *** Strings *)

Lemma app_nil_l (s : string) : EmptyString +:+ s = s.
Proof. reflexivity. Qed.

Lemma app_cons (c : ascii) (a b : string) : String c a +:+ b = String c (a +:+ b).
Proof. reflexivity. Qed.

Lemma app_nil_r (s : string) : s +:+ EmptyString = s.
Proof. induction s as [|c s IH]; [reflexivity|]. rewrite app_cons, IH. reflexivity. Qed.

Lemma app_assoc (a b c : string) : (a +:+ b) +:+ c = a +:+ (b +:+ c).
Proof.
  induction a as [|x a IH]; [reflexivity|]. rewrite !app_cons, IH. reflexivity.
Qed.

Lemma app_eq_nil (a b : string) : a +:+ b = EmptyString -> a = EmptyString /\ b = EmptyString.
Proof.
  destruct a as [|x a]; [rewrite app_nil_l; auto|]. rewrite app_cons. discriminate.
Qed.

Lemma endsWith_amp_app (a b : string) :
  b <> EmptyString -> endsWith_amp (a +:+ b) = endsWith_amp b.
Proof.
  intros Hb. induction a as [|x a IH]; [reflexivity|].
  rewrite app_cons. simpl. rewrite IH.
  destruct (a +:+ b) as [|y s] eqn:E; [|reflexivity].
  apply app_eq_nil in E. destruct E as [_ E]. contradiction.
Qed.

Lemma slice_0_m1_app (a b : string) :
  b <> EmptyString -> slice_0_m1 (a +:+ b) = a +:+ slice_0_m1 b.
Proof.
  intros Hb. induction a as [|x a IH]; [reflexivity|].
  rewrite !app_cons. simpl. rewrite IH.
  destruct (a +:+ b) as [|y s] eqn:E; [|reflexivity].
  apply app_eq_nil in E. destruct E as [_ E]. contradiction.
Qed.

Lemma strip_app (a b : string) :
  b <> EmptyString -> strip_trailing_amp (a +:+ b) = a +:+ strip_trailing_amp b.
Proof.
  intros Hb. unfold strip_trailing_amp.
  rewrite endsWith_amp_app by exact Hb.
  destruct (endsWith_amp b); [apply slice_0_m1_app; exact Hb|reflexivity].
Qed.

Lemma has_amp_app (a b : string) : has_amp (a +:+ b) = has_amp a || has_amp b.
Proof.
  induction a as [|x a IH]; [reflexivity|].
  rewrite app_cons. simpl. rewrite IH. apply orb_assoc.
Qed.

(** No ampersand survives the encoding. *)
Lemma encoded_piece_has_no_amp (c : ascii) :
  has_amp (if Uri.unreserved c then String c EmptyString else Uri.percent c) = false.
Proof. destruct c as [[] [] [] [] [] [] [] []]; reflexivity. Qed.

Lemma encodeURIComponent_has_no_amp (s : string) :
  has_amp (Uri.encodeURIComponent s) = false.
Proof.
  induction s as [|c s IH]; [reflexivity|].
  cbn [Uri.encodeURIComponent]. rewrite has_amp_app, IH, encoded_piece_has_no_amp.
  reflexivity.
Qed.

Lemma endsWith_amp_has_amp (s : string) : endsWith_amp s = true -> has_amp s = true.
Proof.
  induction s as [|c s IH]; [discriminate|].
  simpl. destruct s as [|d s].
  - intros ->. reflexivity.
  - intros H. rewrite (IH H). apply orb_true_r.
Qed.

Lemma encodeURIComponent_nonempty (s : string) :
  s <> EmptyString -> Uri.encodeURIComponent s <> EmptyString.
Proof.
  destruct s as [|c s]; [congruence|]. intros _ H.
  cbn [Uri.encodeURIComponent] in H. apply app_eq_nil in H. destruct H as [H _].
  destruct (Uri.unreserved c); discriminate H.
Qed.

(** *** The handler's string against the joined parameters *)

Lemma trailed_cons (p : string * string) (ps : list (string * string)) :
  trailed (p :: ps) = (render p +:+ "&") +:+ trailed ps.
Proof.
  unfold trailed. destruct ps as [|q ps]; simpl.
  - rewrite app_nil_r. reflexivity.
  - reflexivity.
Qed.

Lemma trailed_app (ps qs : list (string * string)) :
  trailed (ps ++ qs) = trailed ps +:+ trailed qs.
Proof.
  induction ps as [|p ps IH]; [reflexivity|].
  rewrite <- app_comm_cons, !trailed_cons, IH, !app_assoc. reflexivity.
Qed.

Lemma trailed_nonempty (p : string * string) (ps : list (string * string)) :
  trailed (p :: ps) <> EmptyString.
Proof.
  rewrite trailed_cons. intros H.
  apply app_eq_nil in H. destruct H as [H _].
  apply app_eq_nil in H. destruct H as [_ H]. discriminate H.
Qed.

(** Stripping the trailing ampersand leaves the parameters joined. *)
Lemma strip_trailed (ps : list (string * string)) :
  strip_trailing_amp (trailed ps) = String.concat "&" (map render ps).
Proof.
  induction ps as [|p ps IH]; [reflexivity|].
  rewrite trailed_cons. destruct ps as [|q ps].
  - change (trailed []) with EmptyString. rewrite app_nil_r.
    rewrite strip_app by discriminate. simpl. rewrite app_nil_r. reflexivity.
  - rewrite strip_app by apply trailed_nonempty.
    rewrite IH, !app_assoc. reflexivity.
Qed.

Lemma append_param_kept (request : NextRequest) (acc inc out : string) :
  append_param acc out (searchParams_get (rq_searchParams request) inc) =
    acc +:+ trailed (match kept request (inc, out) with Some p => [p] | None => [] end).
Proof.
  unfold append_param, kept, nonempty. cbn [fst snd].
  destruct (searchParams_get (rq_searchParams request) inc) as [v|].
  - destruct (String.eqb v EmptyString); simpl.
    + rewrite app_nil_r. reflexivity.
    + unfold trailed, render. simpl. rewrite !app_assoc. reflexivity.
  - simpl. rewrite app_nil_r. reflexivity.
Qed.

Lemma djs_queryString_joined (request : NextRequest) :
  DjsRoute.queryString request = String.concat "&" (map render (forwarded_params request)).
Proof.
  unfold DjsRoute.queryString.
  rewrite (append_param_kept request EmptyString "genres" "genres").
  rewrite (append_param_kept request _ "minRating" "min_rating").
  rewrite (append_param_kept request _ "availability" "availability").
  rewrite app_nil_l, <- !trailed_app, strip_trailed.
  unfold forwarded_params, djs_renaming. simpl.
  destruct (kept request ("genres", "genres")),
           (kept request ("minRating", "min_rating")),
           (kept request ("availability", "availability")); reflexivity.
Qed.

Lemma render_nonempty (p : string * string) : render p <> EmptyString.
Proof.
  unfold render. intros H. apply app_eq_nil in H. destruct H as [_ H]. discriminate H.
Qed.

Lemma joined_nonempty (p : string * string) (ps : list (string * string)) :
  String.concat "&" (map render (p :: ps)) <> EmptyString.
Proof.
  simpl. destruct (map render ps).
  - apply render_nonempty.
  - intros H. apply app_eq_nil in H. destruct H as [H _]. exact (render_nonempty p H).
Qed.

Lemma djs_suffix_joined (request : NextRequest) :
  query_suffix (DjsRoute.queryString request) = joined_suffix (forwarded_params request).
Proof.
  rewrite djs_queryString_joined. unfold query_suffix, joined_suffix, nonempty.
  destruct (forwarded_params request) as [|p ps]; [reflexivity|].
  rewrite eqb_neq_false by apply joined_nonempty. reflexivity.
Qed.

Lemma render_no_trailing_amp (p : string * string) : endsWith_amp (render p) = false.
Proof.
  unfold render. rewrite endsWith_amp_app by discriminate.
  destruct (Uri.encodeURIComponent (snd p)) as [|c s] eqn:E; [reflexivity|].
  rewrite endsWith_amp_app by discriminate.
  destruct (endsWith_amp (String c s)) eqn:H; [|reflexivity].
  apply endsWith_amp_has_amp in H. rewrite <- E, encodeURIComponent_has_no_amp in H.
  discriminate H.
Qed.

Lemma joined_no_trailing_amp (ps : list (string * string)) :
  endsWith_amp (String.concat "&" (map render ps)) = false.
Proof.
  induction ps as [|p ps IH]; [reflexivity|].
  destruct ps as [|q ps]; [apply render_no_trailing_amp|].
  change (String.concat "&" (map render (p :: q :: ps)))
    with (render p +:+ "&" +:+ String.concat "&" (map render (q :: ps))).
  rewrite endsWith_amp_app.
  - rewrite endsWith_amp_app by apply joined_nonempty. exact IH.
  - intros H. apply app_eq_nil in H. destruct H as [H _]. discriminate H.
Qed.

Lemma kept_spec (request : NextRequest) (inc out : string) (p : string * string) :
  kept request (inc, out) = Some p <->
  exists v, p = (out, v)
            /\ searchParams_get (rq_searchParams request) inc = Some v /\ v <> EmptyString.
Proof.
  unfold kept. cbn [fst snd].
  destruct (searchParams_get (rq_searchParams request) inc) as [v|].
  - destruct (String.eqb v EmptyString) eqn:E.
    + apply String.eqb_eq in E. split; [discriminate|].
      intros (w & _ & Hw & Hne). congruence.
    + apply String.eqb_neq in E. split.
      * intros [= <-]. exists v. auto.
      * intros (w & -> & [= <-] & _). reflexivity.
  - split; [discriminate|]. intros (w & _ & Hw & _). discriminate Hw.
Qed.

(** C10. For every GET /api/djs request the handler fetches once, from the
    URL API_URL/djs followed by the forwarded parameters: an incoming
    parameter among genres, minRating, availability is forwarded if and only
    if it is present and non-empty, minRating under the name min_rating,
    each value URI-encoded (so that no value holds an ampersand), the
    parameters joined by an ampersand with none trailing, and the question
    mark present only when a parameter is forwarded. *)
Theorem djs_forwards_present_parameters
    (env : Env) (net : FetchRequest -> FetchResult) (request : NextRequest) :
  fetched (fst (run (DjsRoute.GET env request) net)) =
    [mkFetchRequest
       (API_URL env +:+ "/djs" +:+ joined_suffix (forwarded_params request))
       "GET" (api_headers env) None (Some "no-store")]
  /\ (forall inc out v,
        In (inc, out) djs_renaming ->
        (In (out, v) (forwarded_params request) <->
         searchParams_get (rq_searchParams request) inc = Some v /\ v <> EmptyString))
  /\ endsWith_amp (DjsRoute.queryString request) = false
  /\ (forall p, In p (forwarded_params request) ->
        has_amp (Uri.encodeURIComponent (snd p)) = false)
  /\ (forwarded_params request = [] <->
        query_suffix (DjsRoute.queryString request) = EmptyString).
Proof.
  split; [|split; [|split; [|split]]].
  - unfold DjsRoute.GET, DjsRoute.url. rewrite djs_suffix_joined. unfold_eff. simpl.
    destruct (net _) as [msg|r]; simpl; [reflexivity|].
    repeat split_match; reflexivity.
  - intros inc out v Hin. unfold forwarded_params. rewrite <- list_elem_of_In.
    rewrite list_elem_of_omap. split.
    + intros (names & Hnames & Hk). apply list_elem_of_In in Hnames.
      destruct names as [inc' out']. apply kept_spec in Hk.
      destruct Hk as (w & [= <- <-] & Hget & Hne).
      assert (inc' = inc) as ->; [|auto].
      simpl in Hin, Hnames.
      destruct Hin as [[= <- <-]|[[= <- <-]|[[= <- <-]|[]]]];
        destruct Hnames as [[= <-]|[[= <-]|[[= <-]|[]]]]; reflexivity.
    + intros [Hget Hne]. exists (inc, out). split; [apply list_elem_of_In; exact Hin|].
      apply kept_spec. exists v. auto.
  - rewrite djs_queryString_joined. apply joined_no_trailing_amp.
  - intros p _. apply encodeURIComponent_has_no_amp.
  - rewrite djs_suffix_joined. unfold joined_suffix.
    destruct (forwarded_params request); split; intros H; try reflexivity; discriminate H.
Qed.

Lemma djs_forwards_present_parameters_example :
  map f_url (fetched (fst (run (DjsRoute.GET [] djs_request) unreachable_backend))) =
    ["http://localhost:8000/djs?genres=Afrobeats%20%26%20Amapiano&min_rating=4.5"].
Proof.
  rewrite (proj1 (djs_forwards_present_parameters [] unreachable_backend djs_request)).
  reflexivity.
Defined.

(** ** Failures below the request boundary *)

(** C5 as stated fails: two non-ok answers of the backend that differ in
    their failure detail only give two different response texts, each
    holding the detail. *)
Lemma failure_detail_reaches_the_caller :
  failing (Resolved rate_limited) /\ failing (Resolved unavailable)
  /\ response_text (snd (run (QueryRoute.POST [] events_request)
                            (fun _ => Resolved rate_limited))) =
       Some (JStr "booking responder: primary provider RateLimited after 10021 ms")
  /\ ~ hides_failure_detail [] events_request.
Proof.
  split; [reflexivity|]. split; [reflexivity|]. split; [reflexivity|].
  intros H. specialize (H (Resolved rate_limited) (Resolved unavailable) eq_refl eq_refl).
  vm_compute in H. discriminate H.
Qed.

(** The handler never throws: every run ends with a response. *)
Lemma query_post_total (env : Env) (net : FetchRequest -> FetchResult) (request : NextRequest) :
  exists resp, snd (run (QueryRoute.POST env request) net) = Normal resp.
Proof.
  unfold QueryRoute.POST. unfold_eff.
  destruct (rq_body request) as [b|]; simpl; [|eauto].
  destruct (Js.get b "query") as [e|v]; simpl; [eauto|].
  destruct (falsy v); simpl; [eauto|].
  destruct (Js.get b "context") as [e|c]; simpl; [eauto|].
  destruct (net _) as [msg|r]; simpl; [eauto|].
  repeat split_match; eauto.
Qed.

(** A dispatched request whose backend call fails is answered with an
    error body and a status that is not ok. *)
Lemma query_post_failing (env : Env) (request : NextRequest) (b : json) (v c : value)
    (f : FetchResult) :
  rq_body request = Some b -> Js.get b "query" = inr v -> truthy v = true ->
  Js.get b "context" = inr c -> failing f ->
  exists st e,
    snd (run (QueryRoute.POST env request) (fun _ => f)) = Normal (json_response st (error_body e))
    /\ 300 <= st <= 599.
Proof.
  intros Hb Hq Hv Hc Hf. unfold QueryRoute.POST. unfold_eff.
  rewrite Hb. simpl. rewrite Hq. simpl. unfold falsy. rewrite Hv. simpl.
  rewrite Hc. simpl.
  destruct f as [msg|r]; simpl.
  { exists 500, (JStr "Internal server error"). split; [reflexivity|lia]. }
  simpl in Hf. rewrite Hf. simpl.
  assert (Hfallback : exists st e,
             Normal (json_response 500 (error_body (JStr "Internal server error"))) =
               Normal (json_response st (error_body e)) /\ 300 <= st <= 599).
  { exists 500, (JStr "Internal server error"). split; [reflexivity|lia]. }
  unfold ok in Hf.
  destruct (r_body r) as [d|]; simpl.
  - destruct (Js.get d "error") as [e|w]; simpl; [exact Hfallback|].
    destruct ((200 <=? r_status r) && (r_status r <=? 599)) eqn:Hrange; simpl;
      [|exact Hfallback].
    destruct (null_body_status (r_status r)); simpl; [exact Hfallback|].
    eexists _, _. split; [reflexivity|].
    apply andb_true_iff in Hrange. apply andb_false_iff in Hf. lia.
  - destruct ((200 <=? r_status r) && (r_status r <=? 599)) eqn:Hrange; simpl;
      [|exact Hfallback].
    destruct (null_body_status (r_status r)); simpl; [exact Hfallback|].
    eexists _, _. split; [reflexivity|].
    apply andb_true_iff in Hrange. apply andb_false_iff in Hf. lia.
Qed.

Lemma blank_false_nonempty (q : string) : Home.blank q = false -> q <> EmptyString.
Proof. intros H ->. discriminate H. Qed.

(** On every failure the home page shows its fixed apology. *)
Lemma home_shows_apology (env : Env) (reason : Z -> string) (q : string) (f : FetchResult) :
  Home.blank q = false -> failing f ->
  exists st,
    snd (run (Home.handleSubmit (Home.initial q))
             (serve reason (QueryRoute.POST env) (fun _ => f))) = Normal st
    /\ Home.shown st = Some (JStr Home.apology)
    /\ Home.response st = Some (JStr EmptyString)
    /\ Home.agentsUsed st = JArr [].
Proof.
  intros Hq Hf.
  assert (Hv : truthy (Some (JStr q)) = true).
  { simpl. rewrite eqb_neq_false by (apply blank_false_nonempty; exact Hq). reflexivity. }
  destruct (query_post_failing env
              (mkNextRequest (Some (JObj [("query", JStr q)])) []
                             [("Content-Type", "application/json")])
              (JObj [("query", JStr q)]) (Some (JStr q)) None f
              eq_refl eq_refl Hv eq_refl Hf) as (st & e & Hrun & Hst).
  unfold Home.handleSubmit. cbn [Home.query Home.initial]. rewrite Hq.
  unfold run, bind, try_catch, fetch. cbn [fetched logged no_trace].
  unfold serve. cbn [f_body f_headers]. rewrite Hrun.
  cbn [status body json_response].
  assert (Hok : ok (mkFetchResponse st (reason st) (Some (error_body e))) = false).
  { unfold ok. cbn [r_status]. apply andb_false_iff.
    destruct (Z.leb_spec st 299); [lia|]. right. reflexivity. }
  rewrite Hok. eexists. split; [reflexivity|]. repeat split; reflexivity.
Qed.

Lemma query_post_rejected (env : Env) (request : NextRequest) (msg1 msg2 : string) :
  snd (run (QueryRoute.POST env request) (fun _ => Rejected msg1)) =
  snd (run (QueryRoute.POST env request) (fun _ => Rejected msg2)).
Proof.
  unfold QueryRoute.POST. unfold_eff.
  destruct (rq_body request) as [b|]; simpl; [|reflexivity].
  destruct (Js.get b "query") as [e|v]; simpl; [reflexivity|].
  destruct (falsy v); simpl; [reflexivity|].
  destruct (Js.get b "context") as [e|c]; simpl; reflexivity.
Qed.

Lemma query_post_relays_error_field (env : Env) (request : NextRequest)
    (r1 r2 : FetchResponse) :
  ok r1 = false -> ok r2 = false -> r_status r1 = r_status r2 ->
  relayed r1 = relayed r2 ->
  snd (run (QueryRoute.POST env request) (fun _ => Resolved r1)) =
  snd (run (QueryRoute.POST env request) (fun _ => Resolved r2)).
Proof.
  intros Hok1 Hok2 Hst Hrel. unfold QueryRoute.POST. unfold_eff.
  destruct (rq_body request) as [b|]; simpl; [|reflexivity].
  destruct (Js.get b "query") as [e|v]; simpl; [reflexivity|].
  destruct (falsy v); simpl; [reflexivity|].
  destruct (Js.get b "context") as [e|c]; simpl; [reflexivity|].
  rewrite Hok1, Hok2. simpl. rewrite <- Hst.
  unfold relayed in Hrel.
  destruct (r_body r1) as [d1|], (r_body r2) as [d2|]; simpl;
    try rewrite Hrel; try rewrite <- Hrel; simpl;
    repeat split_match; reflexivity.
Qed.

Lemma query_post_logs_api_error (env : Env) (request : NextRequest) (b : json)
    (v c : value) (r : FetchResponse) :
  rq_body request = Some b -> Js.get b "query" = inr v -> truthy v = true ->
  Js.get b "context" = inr c -> ok r = false ->
  exists rest,
    logged (fst (run (QueryRoute.POST env request) (fun _ => Resolved r))) =
      LogApiError "API error:" (r_status r) (r_statusText r)
        (match r_body r with Some d => d | None => error_body (JStr "Unknown error") end)
      :: rest.
Proof.
  intros Hb Hq Hv Hc Hok. unfold QueryRoute.POST. unfold_eff.
  rewrite Hb. simpl. rewrite Hq. simpl. unfold falsy. rewrite Hv. simpl.
  rewrite Hc. simpl. rewrite Hok. simpl.
  destruct (r_body r) as [d|]; simpl; repeat split_match; eauto.
Qed.

(** C5, amended. Every request that fails below the boundary is answered
    with a body of the form {error: text} and a status that is not ok.  When
    the fetch rejects, the text is the fixed "Internal server error" with
    status 500 whatever the failure, which goes to the log only.  When the
    backend answers with a status that is not ok, the answer depends on that
    status and on the [error] property of the backend's body only (which is
    relayed as the text); the status text and the rest of the body go to the
    log only.  The home page shows the same fixed apology for every failed
    request. *)
Theorem failure_detail_flow (env : Env) :
  (forall request b v c f,
      rq_body request = Some b -> Js.get b "query" = inr v -> truthy v = true ->
      Js.get b "context" = inr c -> failing f ->
      exists st e,
        snd (run (QueryRoute.POST env request) (fun _ => f)) =
          Normal (json_response st (error_body e))
        /\ 300 <= st <= 599)
  /\ (forall request b v c msg,
      rq_body request = Some b -> Js.get b "query" = inr v -> truthy v = true ->
      Js.get b "context" = inr c ->
      run (QueryRoute.POST env request) (fun _ => Rejected msg) =
        (mkTrace [forwarded env v c]
                 [LogCaught "Error processing query:" (FetchFailed msg)],
         Normal (json_response 500 (error_body (JStr "Internal server error")))))
  /\ (forall request r1 r2,
      ok r1 = false -> ok r2 = false -> r_status r1 = r_status r2 ->
      relayed r1 = relayed r2 ->
      snd (run (QueryRoute.POST env request) (fun _ => Resolved r1)) =
      snd (run (QueryRoute.POST env request) (fun _ => Resolved r2)))
  /\ (forall request b v c r,
      rq_body request = Some b -> Js.get b "query" = inr v -> truthy v = true ->
      Js.get b "context" = inr c -> ok r = false ->
      exists rest,
        logged (fst (run (QueryRoute.POST env request) (fun _ => Resolved r))) =
          LogApiError "API error:" (r_status r) (r_statusText r)
            (match r_body r with Some d => d | None => error_body (JStr "Unknown error") end)
          :: rest)
  /\ (forall reason q f,
      Home.blank q = false -> failing f ->
      exists st,
        snd (run (Home.handleSubmit (Home.initial q))
                 (serve reason (QueryRoute.POST env) (fun _ => f))) = Normal st
        /\ Home.shown st = Some (JStr Home.apology)).
Proof.
  split; [|split; [|split; [|split]]].
  - intros request b v c f. apply query_post_failing.
  - intros request b v c msg Hb Hq Hv Hc. unfold QueryRoute.POST. unfold_eff.
    rewrite Hb. simpl. rewrite Hq. simpl. unfold falsy. rewrite Hv. simpl.
    rewrite Hc. reflexivity.
  - intros request r1 r2. apply query_post_relays_error_field.
  - intros request b v c r. apply query_post_logs_api_error.
  - intros reason q f Hq Hf.
    destruct (home_shows_apology env reason q f Hq Hf) as (st & H1 & H2 & _).
    exists st. auto.
Qed.

Lemma failure_detail_flow_witness :
  snd (run (QueryRoute.POST [] events_request) (fun _ => Resolved rate_limited)) =
  snd (run (QueryRoute.POST [] events_request) (fun _ => Resolved rate_limited_traced)).
Proof.
  exact (proj1 (proj2 (proj2 (failure_detail_flow [])))
           events_request rate_limited rate_limited_traced
           eq_refl eq_refl eq_refl eq_refl).
Defined.

(** ** The Router of the backend contract *)

Module RouterFacts.
Import Backend.

Lemma score_bounds (md : Metadata) (r : Responder) (q : Query) :
  (0 <= score md r q <= 1)%Q.
Proof.
  unfold score. destruct (keywords md r) as [|k ks] eqn:E.
  - split; unfold Qle; simpl; lia.
  - assert (Hm : (matched md r q <= length (k :: ks))%nat).
    { unfold matched. rewrite E. apply length_filter. }
    assert (Hp : Z.pos (Pos.of_nat (length (k :: ks))) = Z.of_nat (length (k :: ks))).
    { rewrite <- positive_nat_Z, Nat2Pos.id by discriminate. reflexivity. }
    split; unfold Qle; cbn [Qnum Qden]; rewrite ?Hp; lia.
Qed.

Lemma place_Forall (P : Responder * Q -> Prop) (md : Metadata) (x : Responder * Q)
    (l : list (Responder * Q)) :
  P x -> Forall P l -> Forall P (place md x l).
Proof.
  intros Hx Hl. induction Hl as [|y l Hy Hl IH]; simpl.
  - constructor; [exact Hx|constructor].
  - destruct (before md x y); repeat constructor; auto.
Qed.

Lemma prioritize_Forall (P : Responder * Q -> Prop) (md : Metadata)
    (l : list (Responder * Q)) :
  Forall P l -> Forall P (prioritize md l).
Proof.
  unfold prioritize. induction 1 as [|x l Hx Hl IH]; simpl.
  - constructor.
  - apply place_Forall; assumption.
Qed.

Lemma place_nonempty (md : Metadata) (x : Responder * Q) (l : list (Responder * Q)) :
  place md x l <> [].
Proof. destruct l as [|y l]; simpl; [discriminate|]. destruct (before md x y); discriminate. Qed.

Lemma scored_bounds (md : Metadata) (q : Query) (rs : list Responder) :
  Forall (fun p : Responder * Q => (0 <= snd p <= 1)%Q)
         (map (fun r => (r, score md r q)) rs).
Proof.
  induction rs as [|r rs IH]; simpl; constructor; [apply score_bounds|exact IH].
Qed.

Lemma none_cleared (md : Metadata) (q : Query) (rs : list Responder) :
  (forall r, In r rs -> (score md r q < threshold)%Q) ->
  filter (fun p : Responder * Q => Qle_bool threshold (snd p) = true)
         (map (fun r => (r, score md r q)) rs) = [].
Proof.
  induction rs as [|r rs IH]; intros H; [reflexivity|].
  simpl. rewrite filter_cons. destruct (decide _) as [Hc|Hc].
  - simpl in Hc. apply Qle_bool_iff in Hc.
    exfalso. apply (Qlt_not_le _ _ (H r (or_introl eq_refl))). exact Hc.
  - apply IH. intros r' Hr'. apply H. right. exact Hr'.
Qed.

End RouterFacts.

(** C7. For every query, classify returns (it is a total function, there is
    no error result) a classification that is not empty, in which every
    confidence lies in [0,1]; when the score of no specialized responder
    reaches the threshold 0.3 the classification is the default general
    responder alone. *)
Theorem classify_never_empty (md : Backend.Metadata) (q : Backend.Query) :
  Backend.classify md q <> []
  /\ Forall (fun p : Backend.Responder * Q => (0 <= snd p <= 1)%Q) (Backend.classify md q)
  /\ ((forall r, In r Backend.specialized -> (Backend.score md r q < Backend.threshold)%Q) ->
      Backend.classify md q = [(Backend.General, 1%Q)]
      /\ Backend.plan md q = [Backend.General])
  /\ Backend.threshold == 3 # 10.
Proof.
  assert (Hb : Forall (fun p : Backend.Responder * Q => (0 <= snd p <= 1)%Q)
                 (filter (fun p : Backend.Responder * Q =>
                            Qle_bool Backend.threshold (snd p) = true)
                    (map (fun r => (r, Backend.score md r q)) Backend.specialized))).
  { apply Forall_forall. intros p Hp. apply list_elem_of_filter in Hp as [_ Hp].
    revert p Hp. apply Forall_forall. apply RouterFacts.scored_bounds. }
  unfold Backend.plan, Backend.classify.
  split; [|split; [|split]].
  - destruct (filter _ _) as [|p ps]; [discriminate|].
    unfold Backend.prioritize. simpl. apply RouterFacts.place_nonempty.
  - destruct (filter _ _) as [|p ps] eqn:E.
    + repeat constructor; unfold Qle; simpl; lia.
    + apply RouterFacts.prioritize_Forall. exact Hb.
  - intros H. rewrite (RouterFacts.none_cleared md q Backend.specialized H).
    split; reflexivity.
  - reflexivity.
Qed.

Lemma classify_never_empty_witness :
  Backend.classify sample_metadata greeting = [(Backend.General, 1%Q)]
  /\ Backend.plan sample_metadata greeting = [Backend.General].
Proof.
  apply (proj1 (proj2 (proj2 (classify_never_empty sample_metadata greeting)))).
  intros r Hr. simpl in Hr.
  destruct Hr as [<-|[<-|[<-|[<-|[<-|[<-|[<-|[<-|[]]]]]]]]]; vm_compute; reflexivity.
Defined.

(** ** The cache of the backend contract *)






(** ** Total failure of the responders *)

Lemma engine_run_all_failed (world : Backend.Responder -> Backend.ResponderResult)
    (p : list Backend.Responder) :
  (forall r, In r p -> Backend.rr_status (world r) <> Backend.Succeeded) ->
  Backend.engine_run world p = [Backend.synthetic_failure].
Proof.
  intros H. unfold Backend.engine_run.
  assert (E : existsb Backend.succeeded (map world p) = false).
  { induction p as [|r p IH]; [reflexivity|]. simpl.
    rewrite IH by (intros r' Hr'; apply H; right; exact Hr').
    unfold Backend.succeeded.
    destruct (Backend.rr_status (world r)) eqn:S; [|reflexivity|reflexivity].
    exfalso. apply (H r (or_introl eq_refl)). exact S. }
  rewrite E. reflexivity.
Qed.

Lemma compute_degraded (md : Backend.Metadata)
    (world : Backend.Responder -> Backend.ResponderResult) (now : Z) (q : Backend.Query) :
  (forall r, In r (Backend.plan md q) ->
             Backend.rr_status (world r) <> Backend.Succeeded) ->
  Backend.compute md world now q = Backend.mkSynth Backend.generic_apology [] now false.
Proof.
  intros H. unfold Backend.compute. rewrite (engine_run_all_failed world _ H).
  reflexivity.
Qed.

(** What the backend reads from the request the query route forwards. *)
Lemma post_query_forwarded (env : Env) (cfg : Backend.Config) (md : Backend.Metadata)
    (world : Backend.Responder -> Backend.ResponderResult) (now : Z)
    (c : gmap (string * list (string * string) * list string) Backend.CacheEntry)
    (q : string) (ctx : value) :
  q <> EmptyString ->
  (String.length q <= Backend.max_query_length cfg)%nat ->
  fst (Backend.post_query cfg md world now c (forwarded env (Some (JStr q)) ctx)) =
    if Backend.primary_configured cfg || Backend.secondary_configured cfg
    then Backend.reply 200 "OK"
           (Backend.response_body
              (fst (Backend.answer cfg md world now c (forwarded_query q ctx))))
    else Backend.reply 503 "Service Unavailable"
           (error_body (JStr "No provider configured")).
Proof.
  intros Hq Hlen. unfold Backend.post_query, forwarded. cbn [f_body].
  assert (Hv : or_else (Some (JStr q)) JNull = JStr q).
  { unfold or_else, truthy. rewrite eqb_neq_false by exact Hq. reflexivity. }
  rewrite Hv. cbn [own_prop]. rewrite String.eqb_refl.
  assert (Hl : (Backend.max_query_length cfg <? String.length q)%nat = false).
  { apply Nat.ltb_ge. exact Hlen. }
  rewrite Hl.
  destruct (Backend.primary_configured cfg || Backend.secondary_configured cfg);
    cbn [negb]; [|reflexivity].
  change (Backend.parse_query _ q) with (forwarded_query q ctx).
  destruct (Backend.answer cfg md world now c (forwarded_query q ctx)). reflexivity.
Qed.

(** C1. For every POST /query request that is dispatched (a non-empty query
    within the length bound, not answered from the cache) and for which
    every responder of the plan fails or times out, the status returned to
    the caller is 200 and the body holds the non-empty apology as response
    and an empty agents_used list, provided a provider is configured; with
    no provider configured the degraded-answer path cannot run and the
    status is the 503 of the backend. *)
Theorem total_failure_degrades_gracefully
    (env : Env) (cfg : Backend.Config) (md : Backend.Metadata)
    (world : Backend.Responder -> Backend.ResponderResult) (now : Z)
    (c : gmap (string * list (string * string) * list string) Backend.CacheEntry)
    (request : NextRequest) (props : list (string * json)) (q : string) :
  rq_body request = Some (JObj props) ->
  own_prop props "query" = Some (JStr q) -> q <> EmptyString ->
  (String.length q <= Backend.max_query_length cfg)%nat ->
  fst (Backend.cache_get c
         (Backend.fingerprint (forwarded_query q (own_prop props "context"))) now) = None ->
  (forall r, In r (Backend.plan md (forwarded_query q (own_prop props "context"))) ->
             Backend.rr_status (world r) <> Backend.Succeeded) ->
  snd (run (QueryRoute.POST env request) (Backend.network cfg md world now c)) =
    (if Backend.primary_configured cfg || Backend.secondary_configured cfg
     then Normal (json_response 200 (degraded_answer now))
     else Normal (json_response 503 (error_body (JStr "No provider configured"))))
  /\ Js.get (degraded_answer now) "response" = inr (Some (JStr Backend.generic_apology))
  /\ Backend.generic_apology <> EmptyString
  /\ Js.get (degraded_answer now) "agents_used" = inr (Some (JArr [])).
Proof.
  intros Hb Hq Hne Hlen Hmiss Hdead.
  split; [|split; [reflexivity|split; [discriminate|reflexivity]]].
  assert (Hv : truthy (Some (JStr q)) = true).
  { simpl. rewrite eqb_neq_false by exact Hne. reflexivity. }
  assert (Hnet : Backend.network cfg md world now c
                   (forwarded env (Some (JStr q)) (own_prop props "context")) =
                 Resolved (fst (Backend.post_query cfg md world now c
                                  (forwarded env (Some (JStr q)) (own_prop props "context")))))
    by reflexivity.
  rewrite (post_query_forwarded env cfg md world now c q _ Hne Hlen) in Hnet.
  destruct (Backend.primary_configured cfg || Backend.secondary_configured cfg).
  - assert (Ha : fst (Backend.answer cfg md world now c
                        (forwarded_query q (own_prop props "context"))) =
                 Backend.mkSynth Backend.generic_apology [] now false).
    { unfold Backend.answer. cbn [Backend.use_cache forwarded_query].
      destruct (Backend.cache_get c _ now) as [o c'] eqn:G.
      cbn [fst] in Hmiss. subst o. cbn [fst].
      apply compute_degraded. exact Hdead. }
    rewrite Ha in Hnet.
    apply (query_post_ok env _ request (JObj props) (Some (JStr q))
             (own_prop props "context") _ (degraded_answer now) Hb
             (f_equal inr Hq) Hv eq_refl Hnet);
      reflexivity.
  - apply (query_post_relay env _ request (JObj props) (Some (JStr q))
             (own_prop props "context") _ (Some (JStr "No provider configured"))
             Hb (f_equal inr Hq) Hv eq_refl Hnet); try reflexivity.
    cbn [r_status Backend.reply]. lia.
Qed.

Lemma total_failure_degrades_gracefully_witness :
  snd (run (QueryRoute.POST [] booking_request)
           (Backend.network default_config sample_metadata dead_world 1750000000 ∅)) =
    Normal (json_response 200 (degraded_answer 1750000000)).
Proof.
  assert (Hlen : (String.length "Book an Amapiano DJ for Saturday in Oslo"
                  <= Backend.max_query_length default_config)%nat)
    by (vm_compute; lia).
  assert (Hdead : forall r,
             In r (Backend.plan sample_metadata
                     (forwarded_query "Book an Amapiano DJ for Saturday in Oslo" None)) ->
             Backend.rr_status (dead_world r) <> Backend.Succeeded).
  { intros r Hr. vm_compute in Hr. destruct Hr as [<-|[]]. discriminate. }
  refine (proj1 (total_failure_degrades_gracefully [] default_config sample_metadata
                   dead_world 1750000000 ∅ booking_request
                   [("query", JStr "Book an Amapiano DJ for Saturday in Oslo")]
                   "Book an Amapiano DJ for Saturday in Oslo"
                   eq_refl eq_refl _ Hlen eq_refl Hdead)).
  discriminate.
Defined.

(** ** The home page against the query route *)

(** An ok answer with the four fields shows on the page: the response text
    and the agents list are the backend's. *)
Lemma home_receives_answer (env : Env) (reason : Z -> string)
    (backend : FetchRequest -> FetchResult) (q : string) (r : FetchResponse)
    (text ts : string) (agents : list json) (hit : bool) :
  Home.blank q = false ->
  backend (forwarded env (Some (JStr q)) None) = Resolved r -> ok r = true ->
  r_body r = Some (JObj [("response", JStr text); ("agents_used", JArr agents);
                         ("timestamp", JStr ts); ("cache_hit", JBool hit)]) ->
  snd (run (Home.handleSubmit (Home.initial q))
           (serve reason (QueryRoute.POST env) backend)) =
    Normal (Home.mkState q false (Some (JStr text)) EmptyString (JArr agents)).
Proof.
  intros Hq Hnet Hok Hd.
  assert (Hv : truthy (Some (JStr q)) = true).
  { simpl. rewrite eqb_neq_false by (apply blank_false_nonempty; exact Hq). reflexivity. }
  pose proof (query_post_ok env backend
                (mkNextRequest (Some (JObj [("query", JStr q)])) []
                               [("Content-Type", "application/json")])
                (JObj [("query", JStr q)]) (Some (JStr q)) None r _
                eq_refl eq_refl Hv eq_refl Hnet Hok Hd) as Hrun.
  unfold Home.handleSubmit. cbn [Home.query Home.initial]. rewrite Hq.
  unfold run, bind, try_catch, fetch. cbn [fetched logged no_trace].
  unfold serve. cbn [f_body f_headers]. rewrite Hrun.
  reflexivity.
Qed.

(** ** The contract of the backend on the scenarios of the spec *)

(** The cache-bypass flag skips the read and the write. *)
Lemma cache_bypass (cfg : Backend.Config) (md : Backend.Metadata)
    (w : Backend.Responder -> Backend.ResponderResult) (t : Z)
    (c : gmap (string * list (string * string) * list string) Backend.CacheEntry)
    (q : Backend.Query) :
  Backend.use_cache q = false ->
  Backend.answer cfg md w t c q = (Backend.compute md w t q, c).
Proof. intros U. unfold Backend.answer. rewrite U. reflexivity. Qed.

(** The booking scenario: the plan is the booking responder alone and it
    is the one contributor. *)
Example booking_scenario :
  Backend.plan sample_metadata
    (forwarded_query "Book an Amapiano DJ for Saturday in Oslo" None) = [Backend.Booking]
  /\ Backend.sr_agents
       (Backend.compute sample_metadata booking_world 0
          (forwarded_query "Book an Amapiano DJ for Saturday in Oslo" None)) = ["booking"].
Proof. split; vm_compute; reflexivity. Qed.

(** The tie-break: the query holds every keyword of booking and of content,
    the two confidences are equal, and the narrower booking domain goes
    first. *)
Example classification_tie_break :
  Backend.classify sample_metadata ambiguous_query =
    [(Backend.Booking, 3 # 3); (Backend.Content, 4 # 4)].
Proof. vm_compute. reflexivity. Qed.

(** Without a tie the higher confidence goes first: booking 2/3, content
    4/4. *)
Example classification_by_confidence :
  Backend.classify sample_metadata content_query =
    [(Backend.Content, 4 # 4); (Backend.Booking, 2 # 3)].
Proof. vm_compute. reflexivity. Qed.

(** With the cache warm, a request that asks for the bypass is answered
    from the cache all the same: the flag was dropped by the route. *)
Example cache_bypass_lost_on_the_way :
  match snd (run (QueryRoute.POST [] bypass_request)
                 (Backend.network default_config sample_metadata dead_world 3600 warm_cache)) with
  | Normal resp =>
      match body resp with
      | Some d => Js.get d "cache_hit"
      | None => inr None
      end
  | Thrown _ => inr None
  end = inr (Some (JBool true)).
Proof. vm_compute. reflexivity. Qed.

(** * Further properties of the route handlers *)

Lemma bool_range (a b s : Z) : (a <=? s) && (s <=? b) = true <-> a <= s <= b.
Proof. rewrite andb_true_iff, !Z.leb_le. tauto. Qed.

Lemma null_body_relayable (s : Z) :
  relayable_status s = true ->
  (200 <=? s) && (s <=? 599) = true /\ null_body_status s = false.
Proof.
  unfold relayable_status, null_body_status. intros H.
  apply andb_true_iff in H. destruct H as [H H304].
  apply bool_range in H. apply negb_true_iff, Z.eqb_neq in H304.
  split; [apply bool_range; lia|].
  repeat (apply orb_false_iff; split); apply Z.eqb_neq; lia.
Qed.

Lemma not_relayable (s : Z) :
  (200 <=? s) && (s <=? 299) = false -> relayable_status s = false ->
  (200 <=? s) && (s <=? 599) = false \/ null_body_status s = true.
Proof.
  unfold relayable_status, null_body_status. intros Hok H.
  destruct ((200 <=? s) && (s <=? 599)) eqn:Hr; [right|left; reflexivity].
  apply bool_range in Hr.
  assert (Hok' : ~ 200 <= s <= 299) by (rewrite <- bool_range, Hok; discriminate).
  assert (H3 : (300 <=? s) && (s <=? 599) = true) by (apply bool_range; lia).
  rewrite H3 in H. simpl in H. apply negb_false_iff, Z.eqb_eq in H. subst s.
  reflexivity.
Qed.

(** The part every handler shares: the fetch, the branch on [response.ok]
    and the outer catch. *)
Lemma guarded_call (label fallback : string) (rq : FetchRequest)
    (net : FetchRequest -> FetchResult) (t : Trace) :
  exists logs,
    try_catch
      (let* response := fetch rq in
       if negb (ok response) then relay_error "API error:" fallback response
       else let* data := response_json response in NextResponse_json data 200)
      (internal_error label) net t =
    (mkTrace (fetched t ++ [rq]) logs, Normal (answer_of fallback (net rq))).
Proof.
  unfold_eff. unfold answer_of, relay_text.
  destruct (net rq) as [msg|r]; simpl; [eauto|].
  destruct (ok r) eqn:Hok; simpl.
  - destruct (r_body r) as [d|]; simpl; eauto.
  - unfold ok in Hok.
    destruct (r_body r) as [d|]; simpl.
    + destruct (Js.get d "error") as [e|v] eqn:Hget; simpl.
      * destruct d; try discriminate Hget. eauto.
      * assert (Hd : match d with JNull => False | _ => True end)
          by (destruct d; try exact I; discriminate Hget).
        destruct (relayable_status (r_status r)) eqn:Hrel.
        -- destruct (null_body_relayable _ Hrel) as [H1 H2]. rewrite H1, H2. simpl.
           destruct d; try contradiction; eauto.
        -- destruct (not_relayable _ Hok Hrel) as [H1|H1].
           ++ rewrite H1. simpl. destruct d; try contradiction; eauto.
           ++ destruct ((200 <=? r_status r) && (r_status r <=? 599)); simpl;
                rewrite ?H1; simpl; destruct d; try contradiction; eauto.
    + destruct (relayable_status (r_status r)) eqn:Hrel.
      * destruct (null_body_relayable _ Hrel) as [H1 H2]. rewrite H1, H2. simpl. eauto.
      * destruct (not_relayable _ Hok Hrel) as [H1|H1].
        -- rewrite H1. simpl. eauto.
        -- destruct ((200 <=? r_status r) && (r_status r <=? 599)); simpl;
             rewrite ?H1; simpl; eauto.
Qed.

Lemma guarded_call_fresh (label fallback : string) (rq : FetchRequest)
    (net : FetchRequest -> FetchResult) :
  exists logs,
    try_catch
      (let* response := fetch rq in
       if negb (ok response) then relay_error "API error:" fallback response
       else let* data := response_json response in NextResponse_json data 200)
      (internal_error label) net no_trace =
    (mkTrace [rq] logs, Normal (answer_of fallback (net rq))).
Proof. exact (guarded_call label fallback rq net no_trace). Qed.

(** The validation loop leaves the trace alone and ends in one of three
    ways. *)
Lemma check_required_cases (b : json) (fields : list string)
    (net : FetchRequest -> FetchResult) (t : Trace) :
  BookingsRoute.check_required b fields net t = (t, Normal None)
  \/ (exists f, In f fields
        /\ BookingsRoute.check_required b fields net t =
             (t, Normal (Some (json_response 400 (error_body (JStr (f +:+ " is required")))))))
  \/ (exists e, BookingsRoute.check_required b fields net t = (t, Thrown e)).
Proof.
  induction fields as [|f fields IH]; simpl; [left; reflexivity|].
  unfold_eff. destruct (Js.get b f) as [e|v]; simpl; [right; right; eauto|].
  destruct (falsy v); simpl.
  - right. left. exists f. split; [left; reflexivity|reflexivity].
  - destruct IH as [IH|[(g & Hg & IH)|(e & IH)]].
    + left. exact IH.
    + right. left. exists g. split; [right; exact Hg|exact IH].
    + right. right. eauto.
Qed.

Lemma check_required_passes (b : json) (fields : list string)
    (net : FetchRequest -> FetchResult) (t : Trace) :
  all_truthy b fields ->
  BookingsRoute.check_required b fields net t = (t, Normal None).
Proof.
  induction fields as [|f fields IH]; intros H; simpl; [reflexivity|].
  destruct (H f (or_introl eq_refl)) as (v & Hv & Ht).
  unfold_eff. rewrite Hv. simpl. unfold falsy. rewrite Ht. simpl.
  apply IH. intros g Hg. apply H. right. exact Hg.
Qed.

Lemma check_required_passes_inv (b : json) (fields : list string)
    (net : FetchRequest -> FetchResult) (t : Trace) :
  BookingsRoute.check_required b fields net t = (t, Normal None) ->
  all_truthy b fields.
Proof.
  induction fields as [|f fields IH]; intros H g Hg; [destruct Hg|].
  simpl in H. unfold bind at 1, lift in H.
  destruct (Js.get b f) as [e|v] eqn:Hget; [discriminate H|].
  unfold ret at 1 in H. destruct (falsy v) eqn:Hf.
  - unfold_eff. discriminate H.
  - destruct Hg as [<-|Hg].
    + exists v. split; [exact Hget|]. unfold falsy in Hf.
      apply negb_false_iff in Hf. exact Hf.
    + apply IH; assumption.
Qed.

(** ** Each handler: no fetch, or one fetch and the answer made of it *)

Lemma query_post_dispatched (env : Env) (net : FetchRequest -> FetchResult)
    (request : NextRequest) (b : json) (v c : value) :
  rq_body request = Some b -> Js.get b "query" = inr v -> truthy v = true ->
  Js.get b "context" = inr c ->
  exists logs,
    run (QueryRoute.POST env request) net =
      (mkTrace [forwarded env v c] logs,
       Normal (answer_of "Error processing query" (net (forwarded env v c)))).
Proof.
  intros Hb Hq Hv Hc.
  destruct (guarded_call_fresh "Error processing query:" "Error processing query"
              (forwarded env v c) net) as [logs Hg].
  exists logs. rewrite <- Hg.
  unfold QueryRoute.POST, run, try_catch, bind, request_json, lift.
  rewrite Hb. unfold ret at 1. cbn beta iota. rewrite Hq. unfold ret at 1.
  cbn beta iota. unfold falsy. rewrite Hv. cbn [negb]. cbn beta iota.
  rewrite Hc. reflexivity.
Qed.

Lemma bookings_post_dispatched (env : Env) (net : FetchRequest -> FetchResult)
    (request : NextRequest) (b : json) :
  rq_body request = Some b -> all_truthy b BookingsRoute.requiredFields ->
  exists logs,
    run (BookingsRoute.POST env request) net =
      (mkTrace [mkFetchRequest (API_URL env +:+ "/bookings") "POST" (api_headers env)
                               (Some b) None] logs,
       Normal (answer_of "Error creating booking"
                 (net (mkFetchRequest (API_URL env +:+ "/bookings") "POST"
                                      (api_headers env) (Some b) None)))).
Proof.
  intros Hb Hall.
  destruct (guarded_call_fresh "Error creating booking:" "Error creating booking"
              (mkFetchRequest (API_URL env +:+ "/bookings") "POST" (api_headers env)
                              (Some b) None) net) as [logs Hg].
  exists logs. rewrite <- Hg.
  unfold BookingsRoute.POST, run, try_catch, bind at 1, request_json.
  rewrite Hb. unfold ret at 1. unfold bind at 1.
  rewrite (check_required_passes b _ net no_trace Hall). reflexivity.
Qed.

Lemma events_post_dispatched (env : Env) (net : FetchRequest -> FetchResult)
    (request : NextRequest) (b : json) :
  rq_body request = Some b -> all_truthy b EventsRoute.requiredFields ->
  exists logs,
    run (EventsRoute.POST env request) net =
      (mkTrace [mkFetchRequest (API_URL env +:+ "/events") "POST" (api_headers env)
                               (Some b) None] logs,
       Normal (answer_of "Error creating event"
                 (net (mkFetchRequest (API_URL env +:+ "/events") "POST"
                                      (api_headers env) (Some b) None)))).
Proof.
  intros Hb Hall.
  destruct (guarded_call_fresh "Error creating event:" "Error creating event"
              (mkFetchRequest (API_URL env +:+ "/events") "POST" (api_headers env)
                              (Some b) None) net) as [logs Hg].
  exists logs. rewrite <- Hg.
  unfold EventsRoute.POST, run, try_catch, bind at 1, request_json.
  rewrite Hb. unfold ret at 1. unfold bind at 1.
  rewrite (check_required_passes b _ net no_trace Hall). reflexivity.
Qed.

Lemma djs_get_dispatched (env : Env) (net : FetchRequest -> FetchResult)
    (request : NextRequest) :
  exists logs,
    run (DjsRoute.GET env request) net =
      (mkTrace [mkFetchRequest (DjsRoute.url env request) "GET" (api_headers env)
                               None (Some "no-store")] logs,
       Normal (answer_of "Error fetching DJs"
                 (net (mkFetchRequest (DjsRoute.url env request) "GET" (api_headers env)
                                      None (Some "no-store"))))).
Proof.
  destruct (guarded_call_fresh "Error fetching DJs:" "Error fetching DJs"
              (mkFetchRequest (DjsRoute.url env request) "GET" (api_headers env)
                              None (Some "no-store")) net) as [logs Hg].
  exists logs. rewrite <- Hg. reflexivity.
Qed.

Lemma events_get_dispatched (env : Env) (net : FetchRequest -> FetchResult)
    (request : NextRequest) :
  exists logs,
    run (EventsRoute.GET env request) net =
      (mkTrace [mkFetchRequest
                  (API_URL env +:+ "/events" +:+ query_suffix (EventsRoute.queryString request))
                  "GET" (api_headers env) None (Some "no-store")] logs,
       Normal (answer_of "Error fetching events"
                 (net (mkFetchRequest
                         (API_URL env +:+ "/events"
                            +:+ query_suffix (EventsRoute.queryString request))
                         "GET" (api_headers env) None (Some "no-store"))))).
Proof.
  destruct (guarded_call_fresh "Error fetching events:" "Error fetching events"
              (mkFetchRequest
                 (API_URL env +:+ "/events" +:+ query_suffix (EventsRoute.queryString request))
                 "GET" (api_headers env) None (Some "no-store")) net) as [logs Hg].
  exists logs. rewrite <- Hg. reflexivity.
Qed.

(** A body-reading handler that fetches nothing answers 400 or 500. *)
Lemma validated_post_cases (label fallback path : string) (fields : list string)
    (env : Env) (net : FetchRequest -> FetchResult) (request : NextRequest) :
  let handler :=
    try_catch
      (let* body := request_json request in
       let* early := BookingsRoute.check_required body fields in
       match early with
       | Some r => ret r
       | None =>
           let headers := api_headers env in
           let* response :=
             fetch (mkFetchRequest (API_URL env +:+ path) "POST" headers (Some body) None) in
           if negb (ok response) then relay_error "API error:" fallback response
           else let* data := response_json response in NextResponse_json data 200
       end)
      (internal_error label) in
  (exists logs, handler net no_trace = (mkTrace [] logs, Normal internal_server_error))
  \/ (exists f, In f fields
        /\ handler net no_trace =
             (no_trace, Normal (json_response 400 (error_body (JStr (f +:+ " is required"))))))
  \/ (exists b logs,
        rq_body request = Some b /\ all_truthy b fields
        /\ handler net no_trace =
             (mkTrace [mkFetchRequest (API_URL env +:+ path) "POST" (api_headers env)
                                      (Some b) None] logs,
              Normal (answer_of fallback
                        (net (mkFetchRequest (API_URL env +:+ path) "POST"
                                             (api_headers env) (Some b) None))))).
Proof.
  intros handler. subst handler.
  destruct (rq_body request) as [b|] eqn:Hb.
  2:{ left. unfold try_catch, bind at 1, request_json. rewrite Hb.
      unfold_eff. simpl. eauto. }
  destruct (check_required_cases b fields net no_trace) as [H|[(f & Hf & H)|(e & H)]].
  - right. right. exists b.
    destruct (guarded_call_fresh label fallback
                (mkFetchRequest (API_URL env +:+ path) "POST" (api_headers env) (Some b) None)
                net) as [logs Hg].
    exists logs. split; [reflexivity|].
    split; [apply (check_required_passes_inv b fields net no_trace H)|].
    rewrite <- Hg. unfold try_catch, bind at 1, request_json. rewrite Hb.
    unfold ret at 1. unfold bind at 1. rewrite H. reflexivity.
  - right. left. exists f. split; [exact Hf|].
    unfold try_catch, bind at 1, request_json. rewrite Hb.
    unfold ret at 1. unfold bind at 1. rewrite H. reflexivity.
  - left. unfold try_catch, bind at 1, request_json. rewrite Hb.
    unfold ret at 1. unfold bind at 1. rewrite H. unfold_eff. simpl. eauto.
Qed.

Lemma bookings_post_shape (env : Env) (request : NextRequest) :
  BookingsRoute.POST env request =
    try_catch
      (let* body := request_json request in
       let* early := BookingsRoute.check_required body BookingsRoute.requiredFields in
       match early with
       | Some r => ret r
       | None =>
           let headers := api_headers env in
           let* response :=
             fetch (mkFetchRequest (API_URL env +:+ "/bookings") "POST" headers
                                   (Some body) None) in
           if negb (ok response)
           then relay_error "API error:" "Error creating booking" response
           else let* data := response_json response in NextResponse_json data 200
       end)
      (internal_error "Error creating booking:").
Proof. reflexivity. Qed.

Lemma events_post_shape (env : Env) (request : NextRequest) :
  EventsRoute.POST env request =
    try_catch
      (let* body := request_json request in
       let* early := BookingsRoute.check_required body EventsRoute.requiredFields in
       match early with
       | Some r => ret r
       | None =>
           let headers := api_headers env in
           let* response :=
             fetch (mkFetchRequest (API_URL env +:+ "/events") "POST" headers
                                   (Some body) None) in
           if negb (ok response)
           then relay_error "API error:" "Error creating event" response
           else let* data := response_json response in NextResponse_json data 200
       end)
      (internal_error "Error creating event:").
Proof. reflexivity. Qed.

(** Every run of every handler: nothing fetched and a 500 or a 400, or one
    fetch with the handler's headers and the answer made of its outcome. *)
Lemma handler_cases (h : Handler) (env : Env) (request : NextRequest)
    (net : FetchRequest -> FetchResult) :
  (exists logs,
      run (handle h env request) net = (mkTrace [] logs, Normal internal_server_error))
  \/ (exists msg,
      run (handle h env request) net =
        (no_trace, Normal (json_response 400 (error_body (JStr msg)))))
  \/ (exists rq logs,
      f_headers rq = api_headers env
      /\ run (handle h env request) net =
           (mkTrace [rq] logs, Normal (answer_of (fallback_text h) (net rq)))).
Proof.
  destruct h; cbn [handle fallback_text].
  - destruct (rq_body request) as [b|] eqn:Hb.
    2:{ left. unfold QueryRoute.POST. unfold_eff. rewrite Hb. simpl. eauto. }
    destruct (Js.get b "query") as [e|v] eqn:Hq.
    { left. unfold QueryRoute.POST. unfold_eff. rewrite Hb. simpl. rewrite Hq.
      simpl. eauto. }
    destruct (truthy v) eqn:Hv.
    + destruct (get_total_of_get b "query" "context" v Hq) as [c Hc].
      right. right.
      destruct (query_post_dispatched env net request b v c Hb Hq Hv Hc) as [logs H].
      exists (forwarded env v c), logs. split; [reflexivity|exact H].
    + right. left. exists "Query is required".
      apply query_post_missing with (b := b) (v := v); auto.
      unfold falsy. rewrite Hv. reflexivity.
  - rewrite bookings_post_shape. unfold run.
    destruct (validated_post_cases "Error creating booking:" "Error creating booking"
                "/bookings" BookingsRoute.requiredFields env net request)
      as [H|[(f & _ & H)|(b & logs & _ & _ & H)]].
    + left. exact H.
    + right. left. exists (f +:+ " is required"). exact H.
    + right. right. eexists _, logs. split; [|exact H]. reflexivity.
  - right. right. destruct (djs_get_dispatched env net request) as [logs H].
    eexists _, logs. split; [|exact H]. reflexivity.
  - right. right. destruct (events_get_dispatched env net request) as [logs H].
    eexists _, logs. split; [|exact H]. reflexivity.
  - rewrite events_post_shape. unfold run.
    destruct (validated_post_cases "Error creating event:" "Error creating event"
                "/events" EventsRoute.requiredFields env net request)
      as [H|[(f & _ & H)|(b & logs & _ & _ & H)]].
    + left. exact H.
    + right. left. exists (f +:+ " is required"). exact H.
    + right. right. eexists _, logs. split; [|exact H]. reflexivity.
Qed.

Lemma answer_of_well_formed (fallback : string) (f : FetchResult) :
  200 <= status (answer_of fallback f) <= 599
  /\ null_body_status (status (answer_of fallback f)) = false
  /\ headers (answer_of fallback f) = [("content-type", "application/json")]
  /\ exists d, body (answer_of fallback f) = Some d.
Proof.
  assert (H500 : 200 <= status internal_server_error <= 599
                 /\ null_body_status (status internal_server_error) = false
                 /\ headers internal_server_error = [("content-type", "application/json")]
                 /\ exists d, body internal_server_error = Some d).
  { cbn. repeat split; try lia. eauto. }
  assert (Hrel : forall s d, relayable_status s = true ->
                 200 <= status (json_response s d) <= 599
                 /\ null_body_status (status (json_response s d)) = false
                 /\ headers (json_response s d) = [("content-type", "application/json")]
                 /\ exists d', body (json_response s d) = Some d').
  { intros s d Hs. destruct (null_body_relayable s Hs) as [H1 H2].
    apply bool_range in H1. cbn. repeat split; try lia; eauto. }
  unfold answer_of. destruct f as [msg|r]; [exact H500|].
  destruct (ok r).
  - destruct (r_body r); [|exact H500]. cbn. repeat split; try lia. eauto.
  - destruct (relayable_status (r_status r)) eqn:Hs.
    + destruct (r_body r) as [[]|]; auto.
    + destruct (r_body r) as [[]|]; auto.
Qed.

(** X1. Whatever the request and whatever the backend does, each of the
    five route handlers completes with one response and never throws: the
    status lies in 200-599 and is not a null-body status, the body is JSON,
    the only response header is the JSON content type, and the backend was
    called at most once. *)
Theorem handlers_always_answer (h : Handler) (env : Env) (request : NextRequest)
    (net : FetchRequest -> FetchResult) :
  exists t resp d,
    run (handle h env request) net = (t, Normal resp)
    /\ 200 <= status resp <= 599
    /\ null_body_status (status resp) = false
    /\ headers resp = [("content-type", "application/json")]
    /\ body resp = Some d
    /\ (length (fetched t) <= 1)%nat.
Proof.
  destruct (handler_cases h env request net)
    as [(logs & H)|[(msg & H)|(rq & logs & _ & H)]].
  - eexists _, _, _. split; [exact H|]. cbn. repeat split; lia.
  - eexists _, _, _. split; [exact H|]. cbn. repeat split; lia.
  - destruct (answer_of_well_formed (fallback_text h) (net rq)) as (H1 & H2 & H3 & d & H4).
    exists (mkTrace [rq] logs), (answer_of (fallback_text h) (net rq)), d.
    split; [exact H|]. cbn [fetched length]. repeat split; auto; lia.
Qed.

Lemma handler_answer (h : Handler) (env : Env) (request : NextRequest)
    (net : FetchRequest -> FetchResult) (rq : FetchRequest) :
  In rq (fetched (fst (run (handle h env request) net))) ->
  snd (run (handle h env request) net) = Normal (answer_of (fallback_text h) (net rq))
  /\ f_headers rq = api_headers env
  /\ fetched (fst (run (handle h env request) net)) = [rq].
Proof.
  intros Hin.
  destruct (handler_cases h env request net)
    as [(logs & H)|[(msg & H)|(rq0 & logs & Hh & H)]]; rewrite H in *; cbn in Hin.
  - destruct Hin.
  - destruct Hin.
  - destruct Hin as [<-|[]]. auto.
Qed.

(** X2. When the backend answers a handler's fetch with a status that is
    not ok, the handler relays that status only if a response with a body
    can carry it (300-599 except 304) and the backend's body is not the JSON
    value null; otherwise it answers 500 "Internal server error".  The
    relayed text is "Unknown error" when the backend's body is not JSON, and
    else the body's [error] property or, when that is falsy, the handler's
    own fallback text. *)
Theorem backend_error_relay (h : Handler) (env : Env) (request : NextRequest)
    (net : FetchRequest -> FetchResult) (rq : FetchRequest) (r : FetchResponse) :
  In rq (fetched (fst (run (handle h env request) net))) ->
  net rq = Resolved r -> ok r = false ->
  (r_body r = Some JNull \/ relayable_status (r_status r) = false ->
     snd (run (handle h env request) net) = Normal internal_server_error)
  /\ (relayable_status (r_status r) = true -> r_body r = None ->
     snd (run (handle h env request) net) =
       Normal (json_response (r_status r) (error_body (JStr "Unknown error"))))
  /\ (forall d e,
     relayable_status (r_status r) = true -> r_body r = Some d ->
     Js.get d "error" = inr e ->
     snd (run (handle h env request) net) =
       Normal (json_response (r_status r)
                 (error_body (or_else e (JStr (fallback_text h)))))).
Proof.
  intros Hin Hnet Hok.
  destruct (handler_answer h env request net rq Hin) as (Hs & _ & _).
  rewrite Hs, Hnet. unfold answer_of, relay_text. rewrite Hok.
  split; [|split].
  - intros [Hb|Hr].
    + rewrite Hb. reflexivity.
    + rewrite Hr. destruct (r_body r) as [[]|]; reflexivity.
  - intros Hr Hb. rewrite Hb, Hr. reflexivity.
  - intros d e Hr Hb He. rewrite Hb, Hr, He.
    destruct d; try reflexivity. discriminate He.
Qed.

Lemma backend_error_relay_witness :
  snd (run (handle DjsGET [] djs_request) (fun _ => Resolved not_modified)) =
    Normal internal_server_error.
Proof.
  assert (Hin : In (mkFetchRequest (DjsRoute.url [] djs_request) "GET" (api_headers [])
                                   None (Some "no-store"))
                   (fetched (fst (run (handle DjsGET [] djs_request)
                                      (fun _ => Resolved not_modified)))))
    by (vm_compute; left; reflexivity).
  apply (proj1 (backend_error_relay DjsGET [] djs_request _ _ not_modified
                  Hin eq_refl eq_refl)).
  right. reflexivity.
Defined.

(** X3. When the fetch of a handler rejects, or the backend answers ok with
    a body that is not JSON (a 204, say), the handler answers 500 "Internal
    server error"; an ok answer with a JSON body is passed on unchanged with
    status 200, whatever 2xx status the backend gave. *)
Theorem backend_ok_or_unreachable (h : Handler) (env : Env) (request : NextRequest)
    (net : FetchRequest -> FetchResult) (rq : FetchRequest) :
  In rq (fetched (fst (run (handle h env request) net))) ->
  (forall msg, net rq = Rejected msg ->
     snd (run (handle h env request) net) = Normal internal_server_error)
  /\ (forall r d, net rq = Resolved r -> ok r = true -> r_body r = Some d ->
     snd (run (handle h env request) net) = Normal (json_response 200 d))
  /\ (forall r, net rq = Resolved r -> ok r = true -> r_body r = None ->
     snd (run (handle h env request) net) = Normal internal_server_error).
Proof.
  intros Hin. destruct (handler_answer h env request net rq Hin) as (Hs & _ & _).
  rewrite Hs. unfold answer_of. split; [|split].
  - intros msg ->. reflexivity.
  - intros r d -> Hok Hb. rewrite Hok, Hb. reflexivity.
  - intros r -> Hok Hb. rewrite Hok, Hb. reflexivity.
Qed.

Lemma backend_ok_or_unreachable_witness :
  snd (run (handle BookingsPOST [] (mkNextRequest (Some full_booking) [] []))
           (fun _ => Resolved no_content)) = Normal internal_server_error.
Proof.
  assert (Hin : In (mkFetchRequest (API_URL [] +:+ "/bookings") "POST" (api_headers [])
                                   (Some full_booking) None)
                   (fetched (fst (run (handle BookingsPOST []
                                         (mkNextRequest (Some full_booking) [] []))
                                      (fun _ => Resolved no_content)))))
    by (vm_compute; left; reflexivity).
  exact (proj2 (proj2 (backend_ok_or_unreachable BookingsPOST [] _ _ _ Hin))
           no_content eq_refl eq_refl eq_refl).
Defined.

Lemma api_headers_key (env : Env) :
  header_get (api_headers env) "X-API-Key" = configured_key env
  /\ header_get (api_headers env) "Content-Type" = Some "application/json".
Proof.
  unfold api_headers, configured_key, nonempty.
  destruct (API_KEY env) as [k|]; [|split; reflexivity].
  destruct (String.eqb k EmptyString); split; reflexivity.
Qed.

(** X4. Every fetch a handler makes carries the JSON content type and the
    X-API-Key header exactly when API_KEY is set and not empty, with its
    value; the response to the caller never carries that header. *)
Theorem api_key_goes_to_backend_only (h : Handler) (env : Env) (request : NextRequest)
    (net : FetchRequest -> FetchResult) :
  (forall rq, In rq (fetched (fst (run (handle h env request) net))) ->
     header_get (f_headers rq) "X-API-Key" = configured_key env
     /\ header_get (f_headers rq) "Content-Type" = Some "application/json")
  /\ (forall resp, snd (run (handle h env request) net) = Normal resp ->
     header_get (headers resp) "X-API-Key" = None).
Proof.
  split.
  - intros rq Hin. destruct (handler_answer h env request net rq Hin) as (_ & Hh & _).
    rewrite Hh. apply api_headers_key.
  - intros resp Hresp.
    destruct (handler_cases h env request net)
      as [(logs & H)|[(msg & H)|(rq & logs & _ & H)]];
      rewrite H in Hresp; cbn [snd] in Hresp; injection Hresp as <-.
    + reflexivity.
    + reflexivity.
    + destruct (answer_of_well_formed (fallback_text h) (net rq)) as (_ & _ & -> & _).
      reflexivity.
Qed.

Lemma api_key_goes_to_backend_only_witness :
  header_get (f_headers (mkFetchRequest (DjsRoute.url keyed_env djs_request) "GET"
                                        (api_headers keyed_env) None (Some "no-store")))
             "X-API-Key" = configured_key keyed_env
  /\ configured_key keyed_env = Some "s3cret".
Proof.
  assert (Hin : In (mkFetchRequest (DjsRoute.url keyed_env djs_request) "GET"
                                   (api_headers keyed_env) None (Some "no-store"))
                   (fetched (fst (run (handle DjsGET keyed_env djs_request)
                                      unreachable_backend))))
    by (vm_compute; left; reflexivity).
  split; [|reflexivity].
  exact (proj1 (proj1 (api_key_goes_to_backend_only DjsGET keyed_env djs_request
                         unreachable_backend) _ Hin)).
Defined.

(** X5. A request to one of the three POST handlers whose body is not JSON,
    or is the JSON value null, is answered 500 "Internal server error"
    (not 400) and nothing is fetched. *)
Theorem unreadable_body_is_500 (h : Handler) (env : Env) (request : NextRequest)
    (net : FetchRequest -> FetchResult) :
  reads_body h = true ->
  rq_body request = None \/ rq_body request = Some JNull ->
  exists logs,
    run (handle h env request) net = (mkTrace [] logs, Normal internal_server_error)
    /\ length logs = 1%nat.
Proof.
  intros Hh Hb.
  destruct h; try discriminate Hh; cbn [handle];
    destruct Hb as [Hb|Hb];
    unfold QueryRoute.POST, BookingsRoute.POST, EventsRoute.POST; unfold_eff;
    rewrite Hb; simpl; eauto.
Qed.

Lemma unreadable_body_is_500_witness :
  exists logs,
    run (handle EventsPOST [] (mkNextRequest (Some JNull) [] [])) accepting_backend =
      (mkTrace [] logs, Normal internal_server_error)
    /\ length logs = 1%nat.
Proof.
  exact (unreadable_body_is_500 EventsPOST [] (mkNextRequest (Some JNull) [] [])
           accepting_backend eq_refl (or_intror eq_refl)).
Defined.

(** ** Validation and forwarding of the two POST handlers with required fields *)

(** X6. For a POST /api/bookings request with a parsed body, the backend is
    called if and only if each of dj_name, date, time, hours, venue reads as
    a truthy value; the call is then a single POST to API_URL/bookings that
    carries the body unchanged, fields beyond the required ones included. *)
Theorem bookings_forwarded_iff_complete (env : Env) (net : FetchRequest -> FetchResult)
    (request : NextRequest) (b : json) :
  rq_body request = Some b ->
  (all_truthy b BookingsRoute.requiredFields <->
   fetched (fst (run (BookingsRoute.POST env request) net)) <> [])
  /\ (all_truthy b BookingsRoute.requiredFields ->
      fetched (fst (run (BookingsRoute.POST env request) net)) =
        [mkFetchRequest (API_URL env +:+ "/bookings") "POST" (api_headers env)
                        (Some b) None]).
Proof.
  intros Hb.
  assert (Hfwd : all_truthy b BookingsRoute.requiredFields ->
                 fetched (fst (run (BookingsRoute.POST env request) net)) =
                   [mkFetchRequest (API_URL env +:+ "/bookings") "POST" (api_headers env)
                                   (Some b) None]).
  { intros Hall. destruct (bookings_post_dispatched env net request b Hb Hall) as [logs H].
    rewrite H. reflexivity. }
  split; [|exact Hfwd]. split.
  - intros Hall. rewrite (Hfwd Hall). discriminate.
  - intros Hne. unfold run in Hne.
    destruct (validated_post_cases "Error creating booking:" "Error creating booking"
                "/bookings" BookingsRoute.requiredFields env net request)
      as [(logs & H)|[(f & _ & H)|(b' & logs & Hb' & Hall & H)]].
    + change (BookingsRoute.POST env request net no_trace =
                (mkTrace [] logs, Normal internal_server_error)) in H.
      rewrite H in Hne. cbn in Hne. congruence.
    + change (BookingsRoute.POST env request net no_trace =
                (no_trace,
                 Normal (json_response 400 (error_body (JStr (f +:+ " is required")))))) in H.
      rewrite H in Hne. cbn in Hne. congruence.
    + rewrite Hb in Hb'. injection Hb' as <-. exact Hall.
Qed.

Lemma bookings_forwarded_iff_complete_witness :
  fetched (fst (run (BookingsRoute.POST [] (mkNextRequest (Some full_booking) [] []))
                    unreachable_backend)) =
    [mkFetchRequest (API_URL [] +:+ "/bookings") "POST" (api_headers [])
                    (Some full_booking) None].
Proof.
  apply (proj2 (bookings_forwarded_iff_complete [] unreachable_backend
                  (mkNextRequest (Some full_booking) [] []) full_booking eq_refl)).
  intros f Hf. simpl in Hf.
  destruct Hf as [<-|[<-|[<-|[<-|[<-|[]]]]]]; eexists; split; reflexivity.
Defined.

(** X7. For a POST /api/events request with a parsed body, the first of
    title, date, time, venue, location, description, genres that reads as a
    falsy value is named in a 400 "<field> is required" and nothing is
    fetched; when all seven are truthy (an empty genres array is truthy)
    the body is forwarded unchanged in a single POST to API_URL/events. *)
Theorem events_post_validation (env : Env) (net : FetchRequest -> FetchResult)
    (request : NextRequest) (b : json) :
  rq_body request = Some b ->
  (forall (pre : list string) (f : string) (post : list string) (v : value),
      EventsRoute.requiredFields = (pre ++ f :: post)%list ->
      all_truthy b pre -> Js.get b f = inr v -> falsy v = true ->
      run (EventsRoute.POST env request) net =
        (no_trace, Normal (json_response 400 (error_body (JStr (f +:+ " is required"))))))
  /\ (all_truthy b EventsRoute.requiredFields ->
      fetched (fst (run (EventsRoute.POST env request) net)) =
        [mkFetchRequest (API_URL env +:+ "/events") "POST" (api_headers env)
                        (Some b) None]).
Proof.
  intros Hb. split.
  - intros pre f post v Hsplit Hpre Hf Hv.
    unfold EventsRoute.POST, run, try_catch, bind at 1, request_json.
    rewrite Hb. unfold ret at 1. unfold bind at 1. rewrite Hsplit.
    rewrite (check_required_first_falsy b net no_trace pre f post v Hpre Hf Hv).
    reflexivity.
  - intros Hall. destruct (events_post_dispatched env net request b Hb Hall) as [logs H].
    rewrite H. reflexivity.
Qed.

Lemma events_post_validation_witness :
  fetched (fst (run (EventsRoute.POST [] (mkNextRequest (Some event_without_genres) [] []))
                    unreachable_backend)) =
    [mkFetchRequest (API_URL [] +:+ "/events") "POST" (api_headers [])
                    (Some event_without_genres) None].
Proof.
  apply (proj2 (events_post_validation [] unreachable_backend
                  (mkNextRequest (Some event_without_genres) [] [])
                  event_without_genres eq_refl)).
  intros f Hf. simpl in Hf.
  destruct Hf as [<-|[<-|[<-|[<-|[<-|[<-|[<-|[]]]]]]]]; eexists; split; reflexivity.
Defined.

(** ** web/app/api/events/route.ts: GET *)

Lemma events_queryString_joined (request : NextRequest) :
  EventsRoute.queryString request =
    String.concat "&" (map render (events_forwarded_params request)).
Proof.
  unfold EventsRoute.queryString.
  rewrite (append_param_kept request EmptyString "genres" "genres").
  rewrite (append_param_kept request _ "featured" "featured").
  rewrite app_nil_l, <- !trailed_app, strip_trailed.
  unfold events_forwarded_params, events_renaming. simpl.
  destruct (kept request ("genres", "genres")),
           (kept request ("featured", "featured")); reflexivity.
Qed.

(** X8. For every GET /api/events request the handler fetches once, from
    API_URL/events followed by the forwarded parameters: genres and featured
    are forwarded, in this order, exactly when present and non-empty (so
    featured=false is forwarded too), each value URI-encoded, joined by an
    ampersand with none trailing, behind a question mark only when one is
    forwarded; every other incoming parameter is dropped. *)
Theorem events_get_forwards_present_parameters
    (env : Env) (net : FetchRequest -> FetchResult) (request : NextRequest) :
  fetched (fst (run (EventsRoute.GET env request) net)) =
    [mkFetchRequest
       (API_URL env +:+ "/events" +:+ joined_suffix (events_forwarded_params request))
       "GET" (api_headers env) None (Some "no-store")]
  /\ (forall name v,
        In (name, v) (events_forwarded_params request) <->
        (name = "genres" \/ name = "featured")
        /\ searchParams_get (rq_searchParams request) name = Some v /\ v <> EmptyString)
  /\ endsWith_amp (EventsRoute.queryString request) = false.
Proof.
  split; [|split].
  - destruct (events_get_dispatched env net request) as [logs H]. rewrite H.
    cbn [fst fetched]. rewrite events_queryString_joined.
    unfold query_suffix, joined_suffix, nonempty.
    destruct (events_forwarded_params request) as [|p ps]; [reflexivity|].
    rewrite eqb_neq_false by apply joined_nonempty. reflexivity.
  - intros name v. unfold events_forwarded_params. rewrite <- list_elem_of_In.
    rewrite list_elem_of_omap. split.
    + intros (names & Hnames & Hk). apply list_elem_of_In in Hnames.
      destruct names as [inc out]. apply kept_spec in Hk.
      destruct Hk as (w & [= <- <-] & Hget & Hne).
      simpl in Hnames. destruct Hnames as [[= <- <-]|[[= <- <-]|[]]]; auto.
    + intros (Hname & Hget & Hne). exists (name, name). split.
      * apply list_elem_of_In. simpl. destruct Hname as [->| ->]; auto.
      * apply kept_spec. exists v. auto.
  - rewrite events_queryString_joined. apply joined_no_trailing_amp.
Qed.

Lemma events_get_forwards_present_parameters_example :
  map f_url (fetched (fst (run (EventsRoute.GET [] events_request_params)
                               unreachable_backend))) =
    ["http://localhost:8000/events?genres=Afrobeats%2FAmapiano&featured=false"].
Proof.
  rewrite (proj1 (events_get_forwards_present_parameters [] unreachable_backend
                    events_request_params)).
  vm_compute. reflexivity.
Defined.

(** * The client side *)

(** ** The filter toggles *)

Section ToggleFacts.
Context {A : Type} `{EqDecision A}.

Lemma filter_other_id (l : list A) (x : A) : x ∉ l -> filter (fun y => y <> x) l = l.
Proof.
  induction l as [|a l IH]; intros Hx; [reflexivity|].
  rewrite filter_cons. destruct (decide (a <> x)) as [Ha|Ha].
  - f_equal. apply IH. intros Hin. apply Hx. right. exact Hin.
  - exfalso. apply Hx. destruct (decide (a = x)) as [->|Hne]; [left|contradiction].
Qed.

Lemma filter_same_single (l : list A) (x : A) :
  NoDup l -> x ∈ l -> filter (fun y => ~ y <> x) l = [x].
Proof.
  intros Hnd. induction Hnd as [|a l Ha Hl IH]; intros Hx; [inversion Hx|].
  rewrite filter_cons. destruct (decide (~ a <> x)) as [Hax|Hax].
  - assert (a = x) as -> by (destruct (decide (a = x)); [assumption|contradiction]).
    f_equal. clear IH Hx. induction l as [|b l IHl]; [reflexivity|].
    rewrite filter_cons. destruct (decide (~ b <> x)) as [Hb|Hb].
    + exfalso. apply Ha. destruct (decide (b = x)) as [->|Hne]; [left|contradiction].
    + apply IHl.
      * intros Hin. apply Ha. right. exact Hin.
      * inversion Hl; assumption.
  - apply IH. inversion Hx; subst; [|assumption]. exfalso. apply Hax. intros Hne.
    apply Hne. reflexivity.
Qed.

End ToggleFacts.

(** X9. Toggling an element of a filter list ([toggleGenre] of the booking
    page, [toggleFavorite] of the events page) flips the membership of that
    element and of no other, and a list without duplicates stays without
    duplicates. *)
Theorem toggle_flips_membership {A : Type} `{EqDecision A} (l : list A) (x y : A) :
  (y ∈ toggle l x <-> if decide (y = x) then x ∉ l else y ∈ l)
  /\ (NoDup l -> NoDup (toggle l x)).
Proof.
  unfold toggle. split.
  - destruct (decide (x ∈ l)) as [Hx|Hx].
    + rewrite list_elem_of_filter. destruct (decide (y = x)) as [->|Hne]; tauto.
    + rewrite elem_of_app, list_elem_of_singleton.
      destruct (decide (y = x)) as [->|Hne]; tauto.
  - intros Hnd. destruct (decide (x ∈ l)) as [Hx|Hx].
    + apply NoDup_filter. exact Hnd.
    + apply NoDup_app. split; [exact Hnd|]. split; [|apply NoDup_singleton].
      intros z Hz Hzx. apply list_elem_of_singleton in Hzx. subst z. contradiction.
Qed.

Lemma toggle_flips_membership_witness :
  NoDup (toggleGenre ["Afrobeats"; "Amapiano"] "Afrobeats")
  /\ toggleGenre ["Afrobeats"; "Amapiano"] "Afrobeats" = ["Amapiano"].
Proof.
  split; [|vm_compute; reflexivity].
  apply (proj2 (toggle_flips_membership ["Afrobeats"; "Amapiano"] "Afrobeats" "Afrobeats")).
  repeat constructor; set_solver.
Defined.

(** X10. Toggling the same element twice gives the list back when the
    element was not in it; when it was in it (in a list without duplicates)
    the result has the same elements, the toggled one moved to the end. *)
Theorem toggle_twice {A : Type} `{EqDecision A} (l : list A) (x : A) :
  (x ∉ l -> toggle (toggle l x) x = l)
  /\ (NoDup l -> x ∈ l ->
      toggle (toggle l x) x = (filter (fun y => y <> x) l ++ [x])%list
      /\ toggle (toggle l x) x ≡ₚ l).
Proof.
  split.
  - intros Hx. unfold toggle at 2. rewrite decide_False by exact Hx.
    unfold toggle. rewrite decide_True by (apply elem_of_app; right; left).
    rewrite filter_app, (filter_other_id l x Hx).
    rewrite filter_cons, decide_False by (intros Hne; apply Hne; reflexivity).
    rewrite filter_nil. apply List.app_nil_r.
  - intros Hnd Hx. unfold toggle at 2 4. rewrite decide_True by exact Hx.
    unfold toggle.
    rewrite decide_False
      by (rewrite list_elem_of_filter; intros [Hne _]; apply Hne; reflexivity).
    split; [reflexivity|].
    rewrite <- (filter_same_single l x Hnd Hx).
    apply filter_app_complement.
Qed.

Lemma toggle_twice_witness :
  toggleGenre (toggleGenre ["Afrobeats"; "Amapiano"] "Highlife") "Highlife" =
    ["Afrobeats"; "Amapiano"].
Proof.
  apply (proj1 (toggle_twice ["Afrobeats"; "Amapiano"] "Highlife")).
  set_solver.
Defined.

(** ** The list hooks of the api-connector *)

Lemma append_param_present (acc name : string) (v : option string) :
  append_param acc name v = acc +:+ trailed (present name v).
Proof.
  unfold append_param, present, nonempty. destruct v as [x|].
  - destruct (String.eqb x EmptyString); simpl.
    + rewrite app_nil_r. reflexivity.
    + unfold trailed, render. simpl. rewrite !app_assoc. reflexivity.
  - simpl. rewrite app_nil_r. reflexivity.
Qed.

Lemma append_number_trailed (num : Q -> string) (acc name : string) (n : option Q) :
  ApiConnector.append_number num acc name n =
    acc +:+ trailed (match n with
                     | Some x => if (Qnum x =? 0)%Z then [] else [(name, num x)]
                     | None => []
                     end).
Proof.
  unfold ApiConnector.append_number, truthy. destruct n as [x|].
  - destruct (Qnum x =? 0)%Z; simpl.
    + rewrite app_nil_r. reflexivity.
    + unfold trailed, render. simpl. rewrite !app_assoc. reflexivity.
  - simpl. rewrite app_nil_r. reflexivity.
Qed.

Lemma append_flag_trailed (acc name : string) (b : option bool) :
  ApiConnector.append_flag acc name b =
    acc +:+ trailed (match b with
                     | Some true => [(name, "true")]
                     | Some false => [(name, "false")]
                     | None => []
                     end).
Proof.
  unfold ApiConnector.append_flag. destruct b as [[]|].
  - unfold trailed, render. simpl. rewrite !app_assoc. reflexivity.
  - unfold trailed, render. simpl. rewrite !app_assoc. reflexivity.
  - simpl. rewrite app_nil_r. reflexivity.
Qed.

Lemma djs_hook_queryString (num : Q -> string) (filters : option ApiConnector.DJFilters) :
  ApiConnector.djs_queryString num filters =
    String.concat "&" (map render (dj_params num filters)).
Proof.
  unfold ApiConnector.djs_queryString, dj_params.
  rewrite !append_param_present, append_number_trailed, app_nil_l.
  rewrite <- !trailed_app, strip_trailed, <- List.app_assoc. reflexivity.
Qed.

Lemma events_hook_queryString (filters : option ApiConnector.EventFilters) :
  ApiConnector.events_queryString filters =
    String.concat "&" (map render (event_params filters)).
Proof.
  unfold ApiConnector.events_queryString, event_params.
  rewrite append_flag_trailed, append_param_present, app_nil_l.
  rewrite <- trailed_app, strip_trailed. reflexivity.
Qed.

Lemma suffix_joined (ps : list (string * string)) :
  query_suffix (String.concat "&" (map render ps)) = joined_suffix ps.
Proof.
  unfold query_suffix, joined_suffix, nonempty.
  destruct ps as [|p ps]; [reflexivity|].
  rewrite eqb_neq_false by apply joined_nonempty. reflexivity.
Qed.

(** The outcome of a list hook, by cases on the fetch. *)
Lemma fetch_list_run (url key thrown label shown : string) (st : ApiConnector.ListState)
    (net : FetchRequest -> FetchResult) :
  exists logs st',
    run (ApiConnector.fetch_list url key thrown label shown st) net =
      (mkTrace [ApiConnector.plain_get url] logs, Normal st')
    /\ ApiConnector.loading st' = false
    /\ (list_failure (net (ApiConnector.plain_get url)) ->
        ApiConnector.items st' = ApiConnector.items st
        /\ ApiConnector.error st' = Some shown)
    /\ (forall r d l,
        net (ApiConnector.plain_get url) = Resolved r -> ok r = true ->
        r_body r = Some d -> Js.get d key = inr l ->
        ApiConnector.items st' = or_else l (JArr [])
        /\ ApiConnector.error st' = None).
Proof.
  unfold ApiConnector.fetch_list. unfold_eff. simpl.
  destruct (net (ApiConnector.plain_get url)) as [msg|r] eqn:Hnet; simpl.
  { eexists _, _. split; [reflexivity|]. simpl. split; [reflexivity|]. split.
    - intros _. split; reflexivity.
    - intros r d l Hr. discriminate Hr. }
  destruct (ok r) eqn:Hok; simpl.
  2:{ eexists _, _. split; [reflexivity|]. simpl. split; [reflexivity|]. split.
      - intros _. split; reflexivity.
      - intros r' d l [= <-] Hok'. congruence. }
  destruct (r_body r) as [d|] eqn:Hd; simpl.
  2:{ eexists _, _. split; [reflexivity|]. simpl. split; [reflexivity|]. split.
      - intros _. split; reflexivity.
      - intros r' d l [= <-] _ Hd'. congruence. }
  destruct (Js.get d key) as [e|l] eqn:Hget; simpl.
  { eexists _, _. split; [reflexivity|]. simpl. split; [reflexivity|]. split.
    - intros _. split; reflexivity.
    - intros r' d' l [= <-] _ Hd' Hl. congruence. }
  eexists _, _. split; [reflexivity|]. simpl. split; [reflexivity|]. split.
  - intros [H|[H|H]]; try congruence.
    try rewrite Hd in H. injection H as ->. discriminate Hget.
  - intros r' d' l' [= <-] _ Hd' Hl.
    try rewrite Hd in Hd'. injection Hd' as <-.
    rewrite Hget in Hl. injection Hl as <-. auto.
Qed.

(** X11. The effects of [useDJs] and [useEvents] make exactly one GET and
    never throw.  On every failure (the fetch rejects, the answer is not ok,
    its body is not JSON or is null) the list shown before is kept and the
    error is one fixed text per hook, whatever the failure was; on an ok
    JSON answer the list is the [djs] (resp. [events]) property of the
    answer, or the empty array when that is falsy, and the error is cleared.
    The loading flag is off afterwards in every case. *)
Theorem list_hooks_outcome (num : Q -> string) (st : ApiConnector.ListState)
    (net : FetchRequest -> FetchResult) :
  (forall filters,
     list_hook_outcome (ApiConnector.fetchDJs num filters st)
       ("/api/djs" +:+ query_suffix (ApiConnector.djs_queryString num filters))
       "djs" "Failed to load DJs. Please try again later." st net)
  /\ (forall filters,
     list_hook_outcome (ApiConnector.fetchEvents filters st)
       ("/api/events" +:+ query_suffix (ApiConnector.events_queryString filters))
       "events" "Failed to load events. Please try again later." st net).
Proof.
  split; intros filters; apply fetch_list_run.
Qed.

Lemma list_hooks_outcome_witness :
  exists logs st',
    run (ApiConnector.fetchDJs sample_num None loaded_djs) unreachable_backend =
      (mkTrace [ApiConnector.plain_get "/api/djs"] logs, Normal st')
    /\ ApiConnector.items st' = ApiConnector.items loaded_djs
    /\ ApiConnector.error st' = Some "Failed to load DJs. Please try again later.".
Proof.
  destruct (proj1 (list_hooks_outcome sample_num loaded_djs unreachable_backend) None)
    as (logs & st' & Hrun & _ & Hfail & _).
  exists logs, st'. split; [exact Hrun|]. apply Hfail. exact I.
Defined.

Lemma positive_rating (x : Q) : Qle_bool x 0 = false -> (Qnum x =? 0)%Z = false.
Proof.
  unfold Qle_bool. simpl. rewrite Z.mul_1_r. intros H.
  apply Z.leb_gt in H. apply Z.eqb_neq. lia.
Qed.

(** X12. [useDJs] requests /api/djs followed by the filters that are set:
    genres and availability when non-empty, minRating (under that name)
    when it is a number other than zero, each value URI-encoded, joined by an
    ampersand, behind a question mark only when there is one.  From the
    booking page the genres are the selected ones joined by commas, the
    rating is sent only when positive and the day only when one is chosen. *)
Theorem useDJs_requests_set_filters (num : Q -> string) :
  (forall filters st net,
     fetched (fst (run (ApiConnector.fetchDJs num filters st) net)) =
       [ApiConnector.plain_get ("/api/djs" +:+ joined_suffix (dj_params num filters))])
  /\ (forall selectedGenres selectedDay minRating,
     dj_params num (Some (BookingPage.dj_filters selectedGenres selectedDay minRating)) =
       (present "genres" (Some (String.concat "," selectedGenres))
        ++ (if Qle_bool minRating 0 then [] else [("minRating", num minRating)])
        ++ present "availability" (Some selectedDay))%list).
Proof.
  split.
  - intros filters st net.
    destruct (fetch_list_run
                ("/api/djs" +:+ query_suffix (ApiConnector.djs_queryString num filters))
                "djs" "Failed to fetch DJs" "Error fetching DJs:"
                "Failed to load DJs. Please try again later." st net)
      as (logs & st' & Hrun & _).
    unfold ApiConnector.fetchDJs. rewrite Hrun. cbn [fst fetched].
    rewrite djs_hook_queryString, suffix_joined. reflexivity.
  - intros selectedGenres selectedDay minRating.
    unfold dj_params, BookingPage.dj_filters. cbn [mbind option_bind
      ApiConnector.dj_genres ApiConnector.dj_minRating ApiConnector.dj_availability].
    f_equal; [|f_equal].
    + destruct selectedGenres as [|g gs]; reflexivity.
    + destruct (Qle_bool minRating 0) eqn:Hr; [reflexivity|]. cbn [negb].
      rewrite (positive_rating _ Hr). reflexivity.
    + unfold present, nonempty.
      destruct (String.eqb selectedDay EmptyString) eqn:E; simpl; rewrite ?E; reflexivity.
Qed.

Lemma useDJs_requests_set_filters_example :
  fetched (fst (run (ApiConnector.fetchDJs sample_num
                       (Some (BookingPage.dj_filters ["Afrobeats"; "Amapiano"] "Saturday"
                                                     (45 # 10)))
                       loaded_djs) unreachable_backend)) =
    [ApiConnector.plain_get
       "/api/djs?genres=Afrobeats%2CAmapiano&minRating=4.5&availability=Saturday"].
Proof.
  rewrite (proj1 (useDJs_requests_set_filters sample_num)).
  rewrite (proj2 (useDJs_requests_set_filters sample_num)).
  vm_compute. reflexivity.
Defined.

(** X13. [useEvents] requests /api/events followed by genres when non-empty
    and by featured=true or featured=false whenever featured is defined.
    The events page passes [showFeaturedOnly || undefined], so from that page
    featured=true is sent when the box is ticked and featured=false never. *)
Theorem useEvents_requests_set_filters :
  (forall filters st net,
     fetched (fst (run (ApiConnector.fetchEvents filters st) net)) =
       [ApiConnector.plain_get ("/api/events" +:+ joined_suffix (event_params filters))])
  /\ (forall selectedGenre showFeaturedOnly,
     event_params (Some (EventsPage.event_filters selectedGenre showFeaturedOnly)) =
       (present "genres" (Some selectedGenre)
        ++ (if showFeaturedOnly then [("featured", "true")] else []))%list
     /\ ~ In ("featured", "false")
            (event_params (Some (EventsPage.event_filters selectedGenre showFeaturedOnly)))).
Proof.
  split.
  - intros filters st net.
    destruct (fetch_list_run
                ("/api/events" +:+ query_suffix (ApiConnector.events_queryString filters))
                "events" "Failed to fetch events" "Error fetching events:"
                "Failed to load events. Please try again later." st net)
      as (logs & st' & Hrun & _).
    unfold ApiConnector.fetchEvents. rewrite Hrun. cbn [fst fetched].
    rewrite events_hook_queryString, suffix_joined. reflexivity.
  - intros selectedGenre showFeaturedOnly.
    assert (E : event_params (Some (EventsPage.event_filters selectedGenre showFeaturedOnly)) =
                (present "genres" (Some selectedGenre)
                 ++ (if showFeaturedOnly then [("featured", "true")] else []))%list).
    { unfold event_params, EventsPage.event_filters, present, nonempty.
      cbn [mbind option_bind ApiConnector.ev_genres ApiConnector.ev_featured].
      destruct (String.eqb selectedGenre EmptyString) eqn:Eg, showFeaturedOnly; simpl;
        rewrite ?Eg; reflexivity. }
    split; [exact E|]. rewrite E. unfold present.
    destruct (String.eqb selectedGenre EmptyString), showFeaturedOnly; simpl;
      intros H; repeat destruct H as [H|H]; try discriminate H; try contradiction.
Qed.

Lemma useEvents_requests_set_filters_example :
  fetched (fst (run (ApiConnector.fetchEvents
                       (Some (EventsPage.event_filters "Afrobeats" true)) loaded_djs)
                    unreachable_backend)) =
    [ApiConnector.plain_get "/api/events?genres=Afrobeats&featured=true"]
  /\ ~ In ("featured", "false")
         (event_params (Some (EventsPage.event_filters "Afrobeats" false))).
Proof.
  split.
  - rewrite (proj1 useEvents_requests_set_filters).
    rewrite (proj1 (proj2 useEvents_requests_set_filters "Afrobeats" true)).
    vm_compute. reflexivity.
  - exact (proj2 (proj2 useEvents_requests_set_filters "Afrobeats" false)).
Defined.

(** ** The hooks against the routes they call *)

Lemma required_text_nonempty (f : string) :
  String.eqb (f +:+ " is required") EmptyString = false.
Proof.
  apply String.eqb_neq. intros H. apply app_eq_nil in H. destruct H as [_ H].
  discriminate H.
Qed.

Lemma bookings_post_first_missing (env : Env) (net : FetchRequest -> FetchResult)
    (request : NextRequest) (b : json) (pre : list string) (f : string)
    (post : list string) (v : value) :
  rq_body request = Some b ->
  BookingsRoute.requiredFields = (pre ++ f :: post)%list ->
  all_truthy b pre -> Js.get b f = inr v -> falsy v = true ->
  run (BookingsRoute.POST env request) net =
    (no_trace, Normal (json_response 400 (error_body (JStr (f +:+ " is required"))))).
Proof.
  intros Hb Hsplit Hpre Hf Hv.
  unfold BookingsRoute.POST, run, try_catch, bind at 1, request_json.
  rewrite Hb. unfold ret at 1. unfold bind at 1. rewrite Hsplit.
  rewrite (check_required_first_falsy b net no_trace pre f post v Hpre Hf Hv).
  reflexivity.
Qed.

(** The hook's outcome when the route rejects the booking. *)
Lemma submitBooking_validation (num : Q -> string) (env : Env) (reason : Z -> string)
    (backend : FetchRequest -> FetchResult) (b : json)
    (pre : list string) (f : string) (post : list string) (v : value) :
  BookingsRoute.requiredFields = (pre ++ f :: post)%list ->
  all_truthy b pre -> Js.get b f = inr v -> falsy v = true ->
  snd (run (ApiConnector.submitBooking num b)
           (serve reason (BookingsRoute.POST env) backend)) =
    Normal (ApiConnector.mkBookingState false (Some (f +:+ " is required")) JNull, JNull).
Proof.
  intros Hsplit Hpre Hf Hv.
  assert (Hserve : serve reason (BookingsRoute.POST env) backend
                     (ApiConnector.json_post "/api/bookings" b) =
                   Resolved (mkFetchResponse 400 (reason 400)
                               (Some (error_body (JStr (f +:+ " is required")))))).
  { unfold serve, ApiConnector.json_post. cbn [f_body f_headers].
    rewrite (bookings_post_first_missing env backend
               (mkNextRequest (Some b) [] [("Content-Type", "application/json")])
               b pre f post v eq_refl Hsplit Hpre Hf Hv). reflexivity. }
  unfold ApiConnector.submitBooking. unfold_eff. rewrite Hserve. simpl.
  rewrite required_text_nonempty. simpl.
  unfold JsText.or_text. rewrite required_text_nonempty. reflexivity.
Qed.

(** X14. [submitBooking] of [useBooking] against the bookings route: when a
    required field of the booking is falsy, the hook ends with the route's
    message "<field> is required" as its error, no success value, the loading
    flag off, and returns null, whatever the backend would have answered;
    when all required fields are truthy and the backend answers ok with a
    JSON body, that body is the success value and the return value. *)
Theorem booking_hook_through_route (num : Q -> string) (env : Env) (reason : Z -> string)
    (backend : FetchRequest -> FetchResult) (b : json) :
  (forall (pre : list string) (f : string) (post : list string) (v : value),
      BookingsRoute.requiredFields = (pre ++ f :: post)%list ->
      all_truthy b pre -> Js.get b f = inr v -> falsy v = true ->
      snd (run (ApiConnector.submitBooking num b)
               (serve reason (BookingsRoute.POST env) backend)) =
        Normal (ApiConnector.mkBookingState false (Some (f +:+ " is required")) JNull,
                JNull))
  /\ (forall r d,
      all_truthy b BookingsRoute.requiredFields ->
      backend (bookings_forwarded env b) = Resolved r -> ok r = true ->
      r_body r = Some d ->
      snd (run (ApiConnector.submitBooking num b)
               (serve reason (BookingsRoute.POST env) backend)) =
        Normal (ApiConnector.mkBookingState false None d, d)).
Proof.
  split.
  - intros pre f post v. apply submitBooking_validation.
  - intros r d Hall Hnet Hok Hd.
    assert (Hserve : serve reason (BookingsRoute.POST env) backend
                       (ApiConnector.json_post "/api/bookings" b) =
                     Resolved (mkFetchResponse 200 (reason 200) (Some d))).
    { unfold serve, ApiConnector.json_post. cbn [f_body f_headers].
      destruct (bookings_post_dispatched env backend
                  (mkNextRequest (Some b) [] [("Content-Type", "application/json")])
                  b eq_refl Hall) as [logs Hrun].
      rewrite Hrun. cbn [snd]. fold (bookings_forwarded env b). rewrite Hnet.
      unfold answer_of. rewrite Hok, Hd. reflexivity. }
    unfold ApiConnector.submitBooking. unfold_eff. rewrite Hserve. reflexivity.
Qed.

Lemma booking_hook_through_route_witness :
  snd (run (ApiConnector.submitBooking sample_num zero_hours_body)
           (serve reason_phrase (BookingsRoute.POST []) accepting_backend)) =
    Normal (ApiConnector.mkBookingState false (Some "hours is required") JNull, JNull).
Proof.
  refine (proj1 (booking_hook_through_route sample_num [] reason_phrase accepting_backend
                   zero_hours_body)
            ["dj_name"; "date"; "time"] "hours" ["venue"] (Some (JNum 0))
            eq_refl _ eq_refl eq_refl).
  intros g [<-|[<-|[<-|[]]]]; eexists; split; reflexivity.
Defined.

Lemma query_body_props (q : string) (ctx : value) :
  Js.get (ApiConnector.query_body q ctx) "query" = inr (Some (JStr q))
  /\ Js.get (ApiConnector.query_body q ctx) "context" = inr ctx.
Proof. destruct ctx; split; reflexivity. Qed.

Lemma serve_query_dispatched (env : Env) (reason : Z -> string)
    (backend : FetchRequest -> FetchResult) (q : string) (ctx : value) :
  q <> EmptyString ->
  serve reason (QueryRoute.POST env) backend
        (ApiConnector.json_post "/api/query" (ApiConnector.query_body q ctx)) =
    Resolved
      (mkFetchResponse
         (status (answer_of "Error processing query"
                    (backend (forwarded env (Some (JStr q)) ctx))))
         (reason (status (answer_of "Error processing query"
                            (backend (forwarded env (Some (JStr q)) ctx)))))
         (body (answer_of "Error processing query"
                  (backend (forwarded env (Some (JStr q)) ctx))))).
Proof.
  intros Hq. unfold serve, ApiConnector.json_post. cbn [f_body f_headers].
  assert (Hv : truthy (Some (JStr q)) = true).
  { simpl. rewrite eqb_neq_false by exact Hq. reflexivity. }
  destruct (query_body_props q ctx) as [H1 H2].
  destruct (query_post_dispatched env backend
              (mkNextRequest (Some (ApiConnector.query_body q ctx)) []
                             [("Content-Type", "application/json")])
              _ _ _ eq_refl H1 Hv H2) as [logs Hrun].
  rewrite Hrun. reflexivity.
Qed.

(** X15. [submitQuery] of [useAgent] against the query route shows the
    route's error text to the user and returns null: "Query is required"
    for an empty query, "Internal server error" when the backend cannot be
    reached, and, when the backend answers with a relayable status that is
    not ok and a non-empty string as the [error] of its body, that very
    string.  On an ok JSON answer it returns the [response] property and
    keeps it (or the empty string when falsy) as the response. *)
Theorem agent_hook_through_route (num : Q -> string) (env : Env) (reason : Z -> string)
    (backend : FetchRequest -> FetchResult) (q : string) (ctx : value) :
  (q = EmptyString ->
     snd (run (ApiConnector.submitQuery num q ctx)
              (serve reason (QueryRoute.POST env) backend)) =
       Normal (ApiConnector.mkAgentState false (Some "Query is required") JNull,
               Some JNull))
  /\ (forall msg,
     q <> EmptyString ->
     backend (forwarded env (Some (JStr q)) ctx) = Rejected msg ->
     snd (run (ApiConnector.submitQuery num q ctx)
              (serve reason (QueryRoute.POST env) backend)) =
       Normal (ApiConnector.mkAgentState false (Some "Internal server error") JNull,
               Some JNull))
  /\ (forall r d s,
     q <> EmptyString ->
     backend (forwarded env (Some (JStr q)) ctx) = Resolved r ->
     ok r = false -> relayable_status (r_status r) = true ->
     r_body r = Some d -> Js.get d "error" = inr (Some (JStr s)) -> s <> EmptyString ->
     snd (run (ApiConnector.submitQuery num q ctx)
              (serve reason (QueryRoute.POST env) backend)) =
       Normal (ApiConnector.mkAgentState false (Some s) JNull, Some JNull))
  /\ (forall r d v,
     q <> EmptyString ->
     backend (forwarded env (Some (JStr q)) ctx) = Resolved r ->
     ok r = true -> r_body r = Some d -> Js.get d "response" = inr v ->
     snd (run (ApiConnector.submitQuery num q ctx)
              (serve reason (QueryRoute.POST env) backend)) =
       Normal (ApiConnector.mkAgentState false None (or_else v (JStr EmptyString)), v)).
Proof.
  split; [|split; [|split]].
  - intros ->.
    assert (Hserve : serve reason (QueryRoute.POST env) backend
                       (ApiConnector.json_post "/api/query"
                          (ApiConnector.query_body EmptyString ctx)) =
                     Resolved (mkFetchResponse 400 (reason 400)
                                 (Some (error_body (JStr "Query is required"))))).
    { unfold serve, ApiConnector.json_post. cbn [f_body f_headers].
      destruct (query_body_props EmptyString ctx) as [H1 _].
      rewrite (query_post_missing env backend
                 (mkNextRequest (Some (ApiConnector.query_body EmptyString ctx)) []
                                [("Content-Type", "application/json")])
                 _ _ eq_refl H1 eq_refl). reflexivity. }
    unfold ApiConnector.submitQuery. unfold_eff. rewrite Hserve. reflexivity.
  - intros msg Hq Hnet.
    unfold ApiConnector.submitQuery. unfold_eff.
    rewrite (serve_query_dispatched env reason backend q ctx Hq), Hnet. reflexivity.
  - intros r d s Hq Hnet Hok Hrel Hd He Hs.
    unfold ApiConnector.submitQuery. unfold_eff.
    rewrite (serve_query_dispatched env reason backend q ctx Hq), Hnet.
    unfold answer_of, relay_text. rewrite Hok, Hd, Hrel, He.
    assert (Hnn : match d with JNull => False | _ => True end)
      by (destruct d; try exact I; discriminate He).
    assert (Hor : or_else (Some (JStr s)) (JStr "Error processing query") = JStr s).
    { unfold or_else, truthy. rewrite eqb_neq_false by exact Hs. reflexivity. }
    rewrite Hor.
    assert (Hnok : ok (mkFetchResponse (r_status r) (reason (r_status r))
                         (Some (error_body (JStr s)))) = false) by exact Hok.
    destruct d; try contradiction; cbn [status body json_response];
      rewrite Hnok; simpl; unfold or_else, truthy;
      rewrite (eqb_neq_false s EmptyString Hs); simpl;
      unfold JsText.or_text; rewrite (eqb_neq_false s EmptyString Hs); reflexivity.
  - intros r d v Hq Hnet Hok Hd Hv.
    unfold ApiConnector.submitQuery. unfold_eff.
    rewrite (serve_query_dispatched env reason backend q ctx Hq), Hnet.
    unfold answer_of. rewrite Hok, Hd. simpl. rewrite Hv. reflexivity.
Qed.

Lemma agent_hook_through_route_witness :
  snd (run (ApiConnector.submitQuery sample_num "Who plays tonight?" None)
           (serve reason_phrase (QueryRoute.POST []) (fun _ => Resolved provider_down))) =
    Normal (ApiConnector.mkAgentState false
              (Some "gemini: quota exceeded for key AIza...") JNull,
            Some JNull).
Proof.
  refine (proj1 (proj2 (proj2 (agent_hook_through_route sample_num [] reason_phrase
                                 (fun _ => Resolved provider_down)
                                 "Who plays tonight?" None)))
            provider_down _ _ _ eq_refl eq_refl eq_refl eq_refl eq_refl _);
    discriminate.
Defined.

(** ** web/app/agents/page.tsx: the chat log *)

(** The runs of the chat page's [handleSubmit], by cases on the fetch. *)
Lemma chat_submit_cases (clock : nat -> Z) (st : AgentsPage.State)
    (net : FetchRequest -> FetchResult) :
  (Home.blank (AgentsPage.input st) = true ->
     run (AgentsPage.handleSubmit clock st) net = (no_trace, Normal st))
  /\ (Home.blank (AgentsPage.input st) = false ->
     exists logs st' reply,
       run (AgentsPage.handleSubmit clock st) net =
         (mkTrace [page_query (AgentsPage.input st)] logs, Normal st')
       /\ AgentsPage.messages st' =
            (AgentsPage.messages st
             ++ [AgentsPage.mkMessage (pretty (clock 0%nat)) AgentsPage.user
                   (JStr (AgentsPage.input st)) (clock 1%nat);
                 reply])%list
       /\ AgentsPage.input st' = EmptyString
       /\ AgentsPage.isLoading st' = false
       /\ (list_failure (net (page_query (AgentsPage.input st))) ->
           AgentsPage.role reply = AgentsPage.system
           /\ AgentsPage.content reply = JStr AgentsPage.apology)
       /\ (forall r d v,
           net (page_query (AgentsPage.input st)) = Resolved r -> ok r = true ->
           r_body r = Some d -> Js.get d "response" = inr v ->
           AgentsPage.role reply = AgentsPage.agent
           /\ AgentsPage.content reply = or_else v (JStr AgentsPage.no_answer))).
Proof.
  unfold AgentsPage.handleSubmit. split; intros Hb; rewrite Hb; [reflexivity|].
  unfold_eff. cbn [fetched logged no_trace app].
  fold (page_query (AgentsPage.input st)).
  destruct (net (page_query (AgentsPage.input st))) as [msg|r] eqn:Hnet; simpl.
  { eexists _, _, _. split; [reflexivity|]. simpl.
    rewrite <- List.app_assoc. split; [reflexivity|].
    split; [reflexivity|]. split; [reflexivity|]. split.
    - intros _. split; reflexivity.
    - intros r0 d0 v0 Hr. discriminate Hr. }
  destruct (ok r) eqn:Hok; simpl.
  2:{ eexists _, _, _. split; [reflexivity|]. simpl.
      rewrite <- List.app_assoc. split; [reflexivity|].
      split; [reflexivity|]. split; [reflexivity|]. split.
      - intros _. split; reflexivity.
      - intros r0 d0 v0 [= <-] Hok'. congruence. }
  destruct (r_body r) as [d|] eqn:Hd; simpl.
  2:{ eexists _, _, _. split; [reflexivity|]. simpl.
      rewrite <- List.app_assoc. split; [reflexivity|].
      split; [reflexivity|]. split; [reflexivity|]. split.
      - intros _. split; reflexivity.
      - intros r0 d0 v0 [= <-] _ Hd'. congruence. }
  destruct (Js.get d "response") as [e|v] eqn:Hget; simpl.
  { eexists _, _, _. split; [reflexivity|]. simpl.
    rewrite <- List.app_assoc. split; [reflexivity|].
    split; [reflexivity|]. split; [reflexivity|]. split.
    - intros _. split; reflexivity.
    - intros r0 d0 v0 [= <-] _ Hd' Hv.
      try rewrite Hd in Hd'. injection Hd' as <-. congruence. }
  eexists _, _, _. split; [reflexivity|]. simpl.
  rewrite <- List.app_assoc. split; [reflexivity|].
  split; [reflexivity|]. split; [reflexivity|]. split.
  - intros [H|[H|H]]; try congruence.
    try rewrite Hd in H. injection H as ->. discriminate Hget.
  - intros r0 d0 v0 [= <-] _ Hd' Hv.
    try rewrite Hd in Hd'. injection Hd' as <-.
    rewrite Hget in Hv. injection Hv as <-. split; reflexivity.
Qed.

(** X16. [handleSubmit] of the chat page does nothing for a blank input.
    Otherwise it makes one POST of {query: input} to /api/query, never
    throws, and leaves the log as it was with exactly two messages added:
    the user's input verbatim, then one reply.  The reply is the system's
    fixed apology on every failure (the fetch rejects, the answer is not ok,
    its body is not JSON or is null), and an agent message holding the
    [response] of the answer (or a fixed text when that is falsy) otherwise.
    The input is cleared and the loading flag is off afterwards. *)
Theorem chat_log_grows_by_two (clock : nat -> Z) (st : AgentsPage.State)
    (net : FetchRequest -> FetchResult) :
  (Home.blank (AgentsPage.input st) = true ->
     run (AgentsPage.handleSubmit clock st) net = (no_trace, Normal st))
  /\ (Home.blank (AgentsPage.input st) = false ->
     exists logs st' reply,
       run (AgentsPage.handleSubmit clock st) net =
         (mkTrace [page_query (AgentsPage.input st)] logs, Normal st')
       /\ AgentsPage.messages st' =
            (AgentsPage.messages st
             ++ [AgentsPage.mkMessage (pretty (clock 0%nat)) AgentsPage.user
                   (JStr (AgentsPage.input st)) (clock 1%nat);
                 reply])%list
       /\ AgentsPage.input st' = EmptyString
       /\ AgentsPage.isLoading st' = false
       /\ (list_failure (net (page_query (AgentsPage.input st))) ->
           AgentsPage.role reply = AgentsPage.system
           /\ AgentsPage.content reply = JStr AgentsPage.apology)
       /\ (forall r d v,
           net (page_query (AgentsPage.input st)) = Resolved r -> ok r = true ->
           r_body r = Some d -> Js.get d "response" = inr v ->
           AgentsPage.role reply = AgentsPage.agent
           /\ AgentsPage.content reply = or_else v (JStr AgentsPage.no_answer))).
Proof. exact (chat_submit_cases clock st net). Qed.

Lemma chat_log_grows_by_two_witness :
  exists logs st' reply,
    run (AgentsPage.handleSubmit sample_clock greeted) unreachable_backend =
      (mkTrace [page_query "Who plays tonight?"] logs, Normal st')
    /\ length (AgentsPage.messages st') = 3%nat
    /\ AgentsPage.role reply = AgentsPage.system
    /\ last (AgentsPage.messages st') = Some reply.
Proof.
  destruct (proj2 (chat_log_grows_by_two sample_clock greeted unreachable_backend) eq_refl)
    as (logs & st' & reply & Hrun & Hm & _ & _ & Hfail & _).
  exists logs, st', reply. split; [exact Hrun|]. rewrite Hm.
  split; [reflexivity|]. split; [apply Hfail; exact I|]. reflexivity.
Defined.

Lemma answer_of_failing_not_ok (fallback : string) (f : FetchResult) :
  failing f ->
  (200 <=? status (answer_of fallback f)) && (status (answer_of fallback f) <=? 299) = false.
Proof.
  intros Hf. unfold answer_of. destruct f as [msg|r]; [reflexivity|].
  simpl in Hf. rewrite Hf.
  assert (Hrel : forall d, relayable_status (r_status r) = true ->
                 (200 <=? status (json_response (r_status r) d))
                 && (status (json_response (r_status r) d) <=? 299) = false).
  { intros d H. unfold relayable_status in H. cbn [status json_response].
    apply andb_true_iff in H. destruct H as [H _]. apply bool_range in H.
    apply andb_false_iff. right. apply Z.leb_gt. lia. }
  destruct (relayable_status (r_status r)) eqn:Hs;
    destruct (r_body r) as [[]|]; try reflexivity; apply Hrel; reflexivity.
Qed.

(** X17. The chat page against the query route: whenever the route's call
    of the backend fails (the fetch rejects or the backend's status is not
    ok), the reply added to the log is the system's fixed apology, whatever
    error text the backend or the route produced. *)
Theorem chat_shows_apology_for_every_failure (env : Env) (reason : Z -> string)
    (backend : FetchRequest -> FetchResult) (clock : nat -> Z) (st : AgentsPage.State) :
  Home.blank (AgentsPage.input st) = false ->
  failing (backend (forwarded env (Some (JStr (AgentsPage.input st))) None)) ->
  exists st' reply,
    snd (run (AgentsPage.handleSubmit clock st)
             (serve reason (QueryRoute.POST env) backend)) = Normal st'
    /\ last (AgentsPage.messages st') = Some reply
    /\ AgentsPage.role reply = AgentsPage.system
    /\ AgentsPage.content reply = JStr AgentsPage.apology
    /\ length (AgentsPage.messages st') = (length (AgentsPage.messages st) + 2)%nat.
Proof.
  intros Hb Hf.
  destruct (proj2 (chat_submit_cases clock st (serve reason (QueryRoute.POST env) backend)) Hb)
    as (logs & st' & reply & Hrun & Hm & _ & _ & Hfail & _).
  exists st', reply. rewrite Hrun. split; [reflexivity|].
  assert (Hlf : list_failure (serve reason (QueryRoute.POST env) backend
                                (page_query (AgentsPage.input st)))).
  { change (page_query (AgentsPage.input st))
      with (ApiConnector.json_post "/api/query"
              (ApiConnector.query_body (AgentsPage.input st) None)).
    rewrite (serve_query_dispatched env reason backend _ None
               (blank_false_nonempty _ Hb)).
    left. apply answer_of_failing_not_ok. exact Hf. }
  destruct (Hfail Hlf) as [Hr Hc]. rewrite Hm.
  split.
  { match goal with
    | |- last (?l ++ [?u; ?m])%list = _ =>
        change (l ++ [u; m])%list with (l ++ ([u] ++ [m]))%list
    end.
    rewrite List.app_assoc. apply last_snoc. }
  split; [exact Hr|]. split; [exact Hc|].
  rewrite length_app. reflexivity.
Qed.

Lemma chat_shows_apology_for_every_failure_witness :
  exists st' reply,
    snd (run (AgentsPage.handleSubmit sample_clock greeted)
             (serve reason_phrase (QueryRoute.POST []) (fun _ => Resolved provider_down))) =
      Normal st'
    /\ last (AgentsPage.messages st') = Some reply
    /\ AgentsPage.content reply = JStr AgentsPage.apology.
Proof.
  destruct (chat_shows_apology_for_every_failure [] reason_phrase
              (fun _ => Resolved provider_down) sample_clock greeted eq_refl eq_refl)
    as (st' & reply & H1 & H2 & _ & H3 & _).
  exists st', reply. auto.
Defined.

(** ** web/app/page.tsx: handleSubmit *)

(** X18. [handleSubmit] of the home page does nothing for a blank query.
    Otherwise it makes one POST of {query} to /api/query, never throws,
    keeps the query and ends with the loading flag off; what was shown
    before is cleared, and the page then holds either an error or a
    response, never both: on every failure the fixed apology with an empty
    response and no agents, and on an ok JSON answer no error, the
    [response] of the answer and its [agents_used] (or the empty array). *)
Theorem home_submit_outcome (st : Home.State) (net : FetchRequest -> FetchResult) :
  (Home.blank (Home.query st) = true ->
     run (Home.handleSubmit st) net = (no_trace, Normal st))
  /\ (Home.blank (Home.query st) = false ->
     exists logs st',
       run (Home.handleSubmit st) net =
         (mkTrace [page_query (Home.query st)] logs, Normal st')
       /\ Home.query st' = Home.query st
       /\ Home.isLoading st' = false
       /\ (list_failure (net (page_query (Home.query st))) ->
           Home.error st' = Home.apology
           /\ Home.response st' = Some (JStr EmptyString)
           /\ Home.agentsUsed st' = JArr [])
       /\ (forall r d v a,
           net (page_query (Home.query st)) = Resolved r -> ok r = true ->
           r_body r = Some d -> Js.get d "response" = inr v ->
           Js.get d "agents_used" = inr a ->
           Home.error st' = EmptyString
           /\ Home.response st' = v
           /\ Home.agentsUsed st' = or_else a (JArr []))).
Proof.
  unfold Home.handleSubmit. split; intros Hb; rewrite Hb; [reflexivity|].
  unfold_eff. cbn [fetched logged no_trace app].
  fold (ApiConnector.json_post "/api/query" (JObj [("query", JStr (Home.query st))])).
  fold (page_query (Home.query st)).
  destruct (net (page_query (Home.query st))) as [msg|r] eqn:Hnet; simpl.
  { eexists _, _. split; [reflexivity|]. simpl.
    split; [reflexivity|]. split; [reflexivity|]. split.
    - intros _. repeat split.
    - intros r0 d0 v0 a0 Hr. discriminate Hr. }
  destruct (ok r) eqn:Hok; simpl.
  2:{ eexists _, _. split; [reflexivity|]. simpl.
      split; [reflexivity|]. split; [reflexivity|]. split.
      - intros _. repeat split.
      - intros r0 d0 v0 a0 [= <-] Hok'. congruence. }
  destruct (r_body r) as [d|] eqn:Hd; simpl.
  2:{ eexists _, _. split; [reflexivity|]. simpl.
      split; [reflexivity|]. split; [reflexivity|]. split.
      - intros _. repeat split.
      - intros r0 d0 v0 a0 [= <-] _ Hd'. congruence. }
  destruct (Js.get d "response") as [e|v] eqn:Hget; simpl.
  { eexists _, _. split; [reflexivity|]. simpl.
    split; [reflexivity|]. split; [reflexivity|]. split.
    - intros _. repeat split.
    - intros r0 d0 v0 a0 [= <-] _ Hd' Hv.
      try rewrite Hd in Hd'. injection Hd' as <-. congruence. }
  destruct (Js.get d "agents_used") as [e|a] eqn:Hag; simpl.
  { destruct d; discriminate. }
  eexists _, _. split; [reflexivity|]. simpl.
  split; [reflexivity|]. split; [reflexivity|]. split.
  - intros [H|[H|H]]; try congruence.
    try rewrite Hd in H. injection H as ->. discriminate Hget.
  - intros r0 d0 v0 a0 [= <-] _ Hd' Hv Ha.
    try rewrite Hd in Hd'. injection Hd' as <-.
    rewrite Hget in Hv. injection Hv as <-.
    rewrite Hag in Ha. injection Ha as <-. repeat split.
Qed.

Lemma home_submit_outcome_witness :
  run (Home.handleSubmit (Home.initial "   ")) accepting_backend =
    (no_trace, Normal (Home.initial "   ")).
Proof.
  exact (proj1 (home_submit_outcome (Home.initial "   ") accepting_backend) eq_refl).
Defined.

(** ** web/app/booking/page.tsx: handleBookingSubmit *)

Lemma submitBooking_fetches (num : Q -> string) (b : json)
    (net : FetchRequest -> FetchResult) :
  fetched (fst (run (ApiConnector.submitBooking num b) net)) =
    [ApiConnector.json_post "/api/bookings" b].
Proof.
  unfold ApiConnector.submitBooking. unfold_eff. simpl.
  destruct (net _) as [msg|r]; simpl; [reflexivity|].
  repeat split_match; reflexivity.
Qed.

Lemma handleBookingSubmit_run (num : Q -> string) (dj : json) (name : value)
    (form : BookingPage.BookingForm) (st : ApiConnector.BookingState)
    (net : FetchRequest -> FetchResult) :
  truthy (Some dj) = true -> Js.get dj "name" = inr name ->
  run (BookingPage.handleBookingSubmit num (Some dj) form st) net =
    (fst (run (ApiConnector.submitBooking num (BookingPage.bookingData name form)) net),
     match snd (run (ApiConnector.submitBooking num (BookingPage.bookingData name form)) net) with
     | Normal out => Normal (fst out)
     | Thrown e => Thrown e
     end).
Proof.
  intros Ht Hn. unfold BookingPage.handleBookingSubmit, falsy. rewrite Ht. cbn [negb].
  unfold run, bind at 1, lift. rewrite Hn. unfold ret at 1. unfold bind at 1.
  destruct (ApiConnector.submitBooking num (BookingPage.bookingData name form) net no_trace)
    as [t [out|e]]; reflexivity.
Qed.

Lemma bookingData_fields (name : value) (form : BookingPage.BookingForm) :
  Js.get (BookingPage.bookingData name form) "dj_name" = inr name
  /\ Js.get (BookingPage.bookingData name form) "date" =
       inr (Some (JStr (BookingPage.date form))).
Proof. destruct name; split; reflexivity. Qed.

(** X19. [handleBookingSubmit] of the booking page does nothing while no DJ
    is selected.  With a DJ selected it makes one POST to /api/bookings with
    the DJ's name and the five form fields.  Against the bookings route, a
    DJ whose name is missing or falsy ends in the error "dj_name is
    required", and a DJ with a name but a form whose date is still empty in
    "date is required"; in both cases nothing is reported as success. *)
Theorem booking_page_submit (num : Q -> string) (form : BookingPage.BookingForm)
    (st : ApiConnector.BookingState) :
  (forall selectedDJ net,
     falsy selectedDJ = true ->
     run (BookingPage.handleBookingSubmit num selectedDJ form st) net = (no_trace, Normal st))
  /\ (forall dj name net,
     truthy (Some dj) = true -> Js.get dj "name" = inr name ->
     fetched (fst (run (BookingPage.handleBookingSubmit num (Some dj) form st) net)) =
       [ApiConnector.json_post "/api/bookings" (BookingPage.bookingData name form)])
  /\ (forall dj name env reason backend,
     truthy (Some dj) = true -> Js.get dj "name" = inr name -> falsy name = true ->
     snd (run (BookingPage.handleBookingSubmit num (Some dj) form st)
              (serve reason (BookingsRoute.POST env) backend)) =
       Normal (ApiConnector.mkBookingState false (Some "dj_name is required") JNull))
  /\ (forall dj name env reason backend,
     truthy (Some dj) = true -> Js.get dj "name" = inr name -> truthy name = true ->
     BookingPage.date form = EmptyString ->
     snd (run (BookingPage.handleBookingSubmit num (Some dj) form st)
              (serve reason (BookingsRoute.POST env) backend)) =
       Normal (ApiConnector.mkBookingState false (Some "date is required") JNull)).
Proof.
  split; [|split; [|split]].
  - intros selectedDJ net Hf. unfold BookingPage.handleBookingSubmit.
    destruct selectedDJ as [dj|]; [|reflexivity]. rewrite Hf. reflexivity.
  - intros dj name net Ht Hn. rewrite (handleBookingSubmit_run num dj name form st net Ht Hn).
    cbn [fst]. apply submitBooking_fetches.
  - intros dj name env reason backend Ht Hn Hf.
    rewrite (handleBookingSubmit_run num dj name form st _ Ht Hn). cbn [snd].
    destruct (bookingData_fields name form) as [Hname _].
    rewrite (submitBooking_validation num env reason backend _ [] "dj_name"
               ["date"; "time"; "hours"; "venue"] name eq_refl
               (fun g (Hg : In g []) => match Hg with end) Hname Hf).
    reflexivity.
  - intros dj name env reason backend Ht Hn Htn Hdate.
    rewrite (handleBookingSubmit_run num dj name form st _ Ht Hn). cbn [snd].
    destruct (bookingData_fields name form) as [Hname Hd].
    assert (Hpre : all_truthy (BookingPage.bookingData name form) ["dj_name"]).
    { intros g [<-|[]]. exists name. auto. }
    rewrite (submitBooking_validation num env reason backend _ ["dj_name"] "date"
               ["time"; "hours"; "venue"] (Some (JStr (BookingPage.date form)))
               eq_refl Hpre Hd).
    + reflexivity.
    + rewrite Hdate. reflexivity.
Qed.

Lemma booking_page_submit_witness :
  snd (run (BookingPage.handleBookingSubmit sample_num
              (Some (JObj [("name", JStr "DJ Spinall")])) untouched_form idle_booking)
           (serve reason_phrase (BookingsRoute.POST []) accepting_backend)) =
    Normal (ApiConnector.mkBookingState false (Some "date is required") JNull).
Proof.
  exact (proj2 (proj2 (proj2 (booking_page_submit sample_num untouched_form idle_booking)))
           (JObj [("name", JStr "DJ Spinall")]) (Some (JStr "DJ Spinall")) []
           reason_phrase accepting_backend eq_refl eq_refl eq_refl eq_refl).
Defined.

(** ** The forwarded URL determines the forwarded parameters *)

Lemma unpercent_percent (c : ascii) :
  unpercent (Uri.hex_digit (nat_of_ascii c / 16)) (Uri.hex_digit (nat_of_ascii c mod 16)) = c.
Proof. destruct c as [[] [] [] [] [] [] [] []]; reflexivity. Qed.

Lemma encoded_char_inj (c1 c2 : ascii) (t1 t2 : string) :
  encoded_char c1 +:+ t1 = encoded_char c2 +:+ t2 -> c1 = c2 /\ t1 = t2.
Proof.
  unfold encoded_char, Uri.percent.
  destruct (Uri.unreserved c1) eqn:U1, (Uri.unreserved c2) eqn:U2;
    rewrite ?app_cons, ?app_nil_l; intros H.
  - injection H as -> ->. auto.
  - injection H as -> _. discriminate U1.
  - injection H as <- _. discriminate U2.
  - injection H as Hx Hy Ht. split; [|exact Ht].
    transitivity (unpercent (Uri.hex_digit (nat_of_ascii c1 / 16))
                            (Uri.hex_digit (nat_of_ascii c1 mod 16)));
      [symmetry; apply unpercent_percent|].
    transitivity (unpercent (Uri.hex_digit (nat_of_ascii c2 / 16))
                            (Uri.hex_digit (nat_of_ascii c2 mod 16)));
      [|apply unpercent_percent].
    f_equal; [exact Hx|exact Hy].
Qed.

Lemma encoded_char_nonempty (c : ascii) (t : string) : encoded_char c +:+ t <> EmptyString.
Proof.
  unfold encoded_char, Uri.percent. destruct (Uri.unreserved c); rewrite app_cons; discriminate.
Qed.

Lemma encodeURIComponent_inj (s1 s2 : string) :
  Uri.encodeURIComponent s1 = Uri.encodeURIComponent s2 -> s1 = s2.
Proof.
  revert s2. induction s1 as [|c1 s1 IH]; intros [|c2 s2] H.
  - reflexivity.
  - cbn [Uri.encodeURIComponent] in H. symmetry in H.
    exfalso. exact (encoded_char_nonempty _ _ H).
  - cbn [Uri.encodeURIComponent] in H. exfalso. exact (encoded_char_nonempty _ _ H).
  - cbn [Uri.encodeURIComponent] in H. apply encoded_char_inj in H.
    destruct H as [-> H]. f_equal. apply IH. exact H.
Qed.

Lemma contains_app (c : ascii) (a b : string) :
  contains c (a +:+ b) = contains c a || contains c b.
Proof.
  induction a as [|x a IH]; [reflexivity|].
  rewrite app_cons. simpl. rewrite IH. apply orb_assoc.
Qed.

Lemma encoded_char_plain (c : ascii) :
  contains "=" (encoded_char c) = false /\ contains "&" (encoded_char c) = false.
Proof. destruct c as [[] [] [] [] [] [] [] []]; split; reflexivity. Qed.

Lemma encodeURIComponent_plain (s : string) :
  contains "=" (Uri.encodeURIComponent s) = false
  /\ contains "&" (Uri.encodeURIComponent s) = false.
Proof.
  induction s as [|c s [IH1 IH2]]; [split; reflexivity|].
  cbn [Uri.encodeURIComponent]. fold (encoded_char c).
  destruct (encoded_char_plain c) as [H1 H2].
  rewrite !contains_app, IH1, IH2, H1, H2. split; reflexivity.
Qed.

(** A string is cut in one way only at the first occurrence of [c]. *)
Lemma split_unique (c : ascii) (a a' r r' : string) :
  contains c a = false -> contains c a' = false ->
  a +:+ String c r = a' +:+ String c r' -> a = a' /\ r = r'.
Proof.
  revert a'. induction a as [|x a IH]; intros [|x' a'] Ha Ha' H.
  - rewrite !app_nil_l in H. injection H as ->. auto.
  - rewrite app_nil_l, app_cons in H. injection H as <- _.
    simpl in Ha'. rewrite Ascii.eqb_refl in Ha'. discriminate Ha'.
  - rewrite app_nil_l, app_cons in H. injection H as -> _.
    simpl in Ha. rewrite Ascii.eqb_refl in Ha. discriminate Ha.
  - rewrite !app_cons in H. injection H as -> H.
    simpl in Ha, Ha'. apply orb_false_iff in Ha. apply orb_false_iff in Ha'.
    destruct (IH a' (proj2 Ha) (proj2 Ha') H) as [-> ->]. auto.
Qed.

Lemma render_inj (p q : string * string) :
  plain_name (fst p) = true -> plain_name (fst q) = true ->
  render p = render q -> p = q.
Proof.
  unfold plain_name, render. destruct p as [n v], q as [n' v']. cbn [fst snd].
  intros Hp Hq H.
  apply andb_true_iff in Hp. apply andb_true_iff in Hq.
  destruct Hp as [Hp _]. destruct Hq as [Hq _].
  apply negb_true_iff in Hp. apply negb_true_iff in Hq.
  change ("=" +:+ Uri.encodeURIComponent v) with (String "=" (Uri.encodeURIComponent v)) in H.
  change ("=" +:+ Uri.encodeURIComponent v') with (String "=" (Uri.encodeURIComponent v')) in H.
  destruct (split_unique "=" n n' _ _ Hp Hq H) as [-> He].
  apply encodeURIComponent_inj in He. subst v'. reflexivity.
Qed.

Lemma render_plain (p : string * string) :
  plain_name (fst p) = true -> contains "&" (render p) = false.
Proof.
  unfold plain_name, render. intros Hp. apply andb_true_iff in Hp.
  destruct Hp as [_ Hp]. apply negb_true_iff in Hp.
  rewrite !contains_app, Hp. destruct (encodeURIComponent_plain (snd p)) as [_ ->].
  reflexivity.
Qed.

Lemma joined_cons (p q : string * string) (ps : list (string * string)) :
  String.concat "&" (map render (p :: q :: ps)) =
    render p +:+ String "&" (String.concat "&" (map render (q :: ps))).
Proof. reflexivity. Qed.

Lemma joined_contains_amp (p q : string * string) (ps : list (string * string)) :
  contains "&" (String.concat "&" (map render (p :: q :: ps))) = true.
Proof.
  rewrite joined_cons, contains_app. simpl. apply orb_true_r.
Qed.

Lemma joined_inj (ps qs : list (string * string)) :
  (forall p, In p ps -> plain_name (fst p) = true) ->
  (forall q, In q qs -> plain_name (fst q) = true) ->
  String.concat "&" (map render ps) = String.concat "&" (map render qs) -> ps = qs.
Proof.
  revert qs. induction ps as [|p ps IH]; intros [|q qs] Hps Hqs H.
  - reflexivity.
  - exfalso. symmetry in H. exact (joined_nonempty q qs H).
  - exfalso. exact (joined_nonempty p ps H).
  - assert (Hp : plain_name (fst p) = true) by (apply Hps; left; reflexivity).
    assert (Hq : plain_name (fst q) = true) by (apply Hqs; left; reflexivity).
    destruct ps as [|p' ps], qs as [|q' qs].
    + f_equal. apply render_inj; assumption.
    + exfalso. apply (f_equal (contains "&")) in H.
      rewrite joined_contains_amp in H. simpl in H. rewrite render_plain in H by exact Hp.
      discriminate H.
    + exfalso. apply (f_equal (contains "&")) in H.
      rewrite joined_contains_amp in H. simpl in H. rewrite render_plain in H by exact Hq.
      discriminate H.
    + rewrite !joined_cons in H.
      destruct (split_unique "&" _ _ _ _ (render_plain p Hp) (render_plain q Hq) H)
        as [Hr Hrest].
      f_equal; [apply render_inj; assumption|].
      apply IH; [intros x Hx; apply Hps; right; exact Hx
                |intros x Hx; apply Hqs; right; exact Hx|exact Hrest].
Qed.

Lemma joined_suffix_inj (ps qs : list (string * string)) :
  (forall p, In p ps -> plain_name (fst p) = true) ->
  (forall q, In q qs -> plain_name (fst q) = true) ->
  joined_suffix ps = joined_suffix qs -> ps = qs.
Proof.
  intros Hps Hqs H. destruct ps as [|p ps], qs as [|q qs].
  - reflexivity.
  - discriminate H.
  - discriminate H.
  - unfold joined_suffix in H. rewrite !app_cons, !app_nil_l in H. injection H as H.
    apply joined_inj; assumption.
Qed.

Lemma app_inv_head (a b c : string) : a +:+ b = a +:+ c -> b = c.
Proof.
  induction a as [|x a IH]; [exact (fun H => H)|].
  rewrite !app_cons. intros H. injection H as H. apply IH. exact H.
Qed.

Lemma kept_names_plain (request : NextRequest) (renaming : list (string * string)) :
  (forall names, In names renaming -> plain_name (snd names) = true) ->
  forall p, In p (omap (kept request) renaming) -> plain_name (fst p) = true.
Proof.
  intros Hr p Hp. apply list_elem_of_In, list_elem_of_omap in Hp.
  destruct Hp as ([inc out] & Hin & Hk). apply list_elem_of_In in Hin.
  apply kept_spec in Hk. destruct Hk as (v & -> & _). exact (Hr _ Hin).
Qed.

(** X20. The URL a GET handler forwards determines the forwarded parameters:
    two requests to /api/djs (or to /api/events) are forwarded to the same
    URL only if the same parameters with the same values are forwarded.  In
    particular a value cannot smuggle a further parameter in: the encoding
    is one-to-one and leaves no [&] or [=] in a value. *)
Theorem forwarded_url_determines_parameters (env : Env) (r1 r2 : NextRequest) :
  (DjsRoute.url env r1 = DjsRoute.url env r2 -> forwarded_params r1 = forwarded_params r2)
  /\ (API_URL env +:+ "/events" +:+ query_suffix (EventsRoute.queryString r1) =
      API_URL env +:+ "/events" +:+ query_suffix (EventsRoute.queryString r2) ->
      events_forwarded_params r1 = events_forwarded_params r2)
  /\ (forall v1 v2, Uri.encodeURIComponent v1 = Uri.encodeURIComponent v2 -> v1 = v2)
  /\ (forall v, contains "&" (Uri.encodeURIComponent v) = false
                /\ contains "=" (Uri.encodeURIComponent v) = false).
Proof.
  split; [|split; [|split]].
  - unfold DjsRoute.url. rewrite !djs_suffix_joined. intros H.
    apply app_inv_head, app_inv_head in H.
    apply joined_suffix_inj; [| |exact H];
      apply kept_names_plain;
      intros names [<-|[<-|[<-|[]]]]; reflexivity.
  - rewrite !events_queryString_joined, !suffix_joined. intros H.
    apply app_inv_head, app_inv_head in H.
    apply joined_suffix_inj; [| |exact H];
      apply kept_names_plain;
      intros names [<-|[<-|[]]]; reflexivity.
  - exact encodeURIComponent_inj.
  - intros v. destruct (encodeURIComponent_plain v). auto.
Qed.

Lemma forwarded_url_determines_parameters_witness :
  forwarded_params reordered_request = forwarded_params honest_request
  /\ DjsRoute.url [] injection_attempt <> DjsRoute.url [] honest_request.
Proof.
  assert (H : DjsRoute.url [] reordered_request = DjsRoute.url [] honest_request)
    by (vm_compute; reflexivity).
  split.
  - exact (proj1 (forwarded_url_determines_parameters [] reordered_request honest_request) H).
  - intros E.
    apply (proj1 (forwarded_url_determines_parameters [] injection_attempt honest_request))
      in E.
    vm_compute in E. discriminate E.
Defined.
